(** * Voice Session Controller

    A shallow embedding of the browser-side voice controller of the
    calendar voice agent (the script with text input and the agent-speech
    debounce, [startCall], [handleMicClick], [handleTextSend],
    [sendTextToVapi], [getOrCreateUserId] and the handlers registered on
    the Vapi instance), together with the properties of its finite state
    machine.

    The script is event driven and single threaded.  Every handler runs to
    its next [await] without interruption, so the controller is modelled as
    a total function [step : State -> Event -> State]:

    - the module-level variables ([vapi], [isCallActive], [pendingText],
      [agentSpeakingTimer]) are fields of [State];
    - an [async] function suspended at an [await] is an entry of [tasks];
      the event that settles the awaited promise resumes it;
    - [setTimeout] adds an entry to [timers]; the entry runs when the event
      [TimerFire] names it and its delay has elapsed on the clock [now];
    - everything the script does to the outside world (the DOM projection
      of [applyState], the permission API, [fetch], the transport instance,
      the console) is appended to [log] with the time at which it happened.

    The repository holds two earlier copies of the same script without the
    text input: they have no [pendingText] and no [agentSpeakingTimer], and
    their ['message'] handler shows [listening] as soon as an assistant
    update other than ['started'] arrives.  What is modelled here is the
    copy with text input and debounce.

    [Page] holds the elements of the voice page and [applyState] as it
    writes to them.  [Index] holds the panels of the landing page and
    [showState]; [checkAuthStatus] and [redirectToGoogle] of the landing
    page script are defined with the controller, whose identity provider
    and store they share.

    Not modelled: exceptions thrown by [localStorage] or by the DOM, the
    clearing of the input box, the tear-down of the page after the auth
    guard redirects, and, strings being sequences of 8-bit code units, the
    white space above code unit 255 that [trim] removes as well.
*)

From Stdlib Require Import List String Ascii Bool Arith PeanoNat ZArith PArith Lia.

Import ListNotations.

Open Scope string_scope.

Open Scope list_scope.

(** ** Data *)

(** The nine states handled by the [switch] of [applyState]. *)
Inductive UIState : Type :=
| Idle | RequestingMic | MicDenied | Connecting
| Listening | UserSpeaking | AgentSpeaking
| CallEnded | CallError.

(** [PermissionStatus.state] of the Permissions API. *)
Inductive PermissionState : Type := Granted | Denied | Prompt.

(** The JSON value read at [data.token]. *)
Inductive JsValue : Type :=
| JUndefined | JNull
| JBool (b : bool)
| JNumber (z : Z)
| JString (str : string)
| JObject.

(** JavaScript truthiness, as used by [sessionToken ? ... : ...]. *)
Definition truthy (v : JsValue) : bool :=
  match v with
  | JUndefined | JNull => false
  | JBool b => b
  | JNumber z => negb (Z.eqb z 0)
  | JString str => negb (String.eqb str "")
  | JObject => true
  end.

(** Truthiness of a string variable that may hold [null]. *)
Definition truthy_text (t : option string) : bool :=
  match t with
  | Some str => negb (String.eqb str "")
  | None => false
  end.

(** A message delivered to the ['message'] handler; only these three
    properties are read.  A property that is absent is any string other
    than the literals it is compared with. *)
Record Message : Type := mkMessage {
  msg_type : string;
  msg_role : string;
  msg_status : string
}.

(** Events emitted by a Vapi instance, one per [vapi.on] registration. *)
Inductive TransportEvent : Type :=
| CallStart | CallEnd | SpeechStart | SpeechEnd
| MessageEv (m : Message)
| ErrorEv.

(** What a suspended [async] function is waiting for. *)
Inductive Awaiting : Type :=
| AwaitPermission                 (* handleMicClick at getMicPermissionState() *)
| AwaitMic                        (* handleMicClick at requestMic() *)
| AwaitSession (userId : string)  (* startCall at fetch(...) / res.json() *)
| AwaitStart (sid : nat)          (* startCall at vapi.start(...) *)
| AwaitAuth.                      (* guardAuth at fetch(...) / res.json() *)

(** Callbacks handed to [setTimeout]. *)
Inductive TimerAction : Type :=
| FlushText (text : string)       (* () => sendTextToVapi(textToSend) *)
| BackToListening.                (* the debounce callback *)

(** Timer handles are integers greater than zero, hence always truthy. *)
Record Timer : Type := mkTimer {
  t_id : positive;
  t_due : nat;
  t_action : TimerAction
}.

Inductive Effect : Type :=
| Render (u : UIState)
| QueryPermission
| GetUserMedia
| StopTracks
| DrawUUID
| StorageSet (key value : string)
| FetchSession (userId : string)
| FetchAuthStatus (userId : string)
| ConsoleWarn
| ConsoleError
| VapiNew (sid : nat)
| VapiStart (sid : nat) (assistant userId : string) (token : option JsValue)
| VapiStop (sid : nat)
| VapiSend (sid : nat) (role content : string)
| SetTimeout (id : positive) (delay : nat)
| ClearTimeout (id : positive)
| Navigate (url : string).

Inductive Event : Type :=
| MicClick                                    (* click on #mic-btn *)
| RetryClick                                  (* click on #retry-btn *)
| TextSubmit (raw : string)                   (* Enter / click on #send-btn *)
| PermissionSettled (k : nat) (r : option PermissionState)
| MicSettled (k : nat) (granted : bool)
| SessionSettled (k : nat) (r : option JsValue) (opens : bool)
| StartSettled (k : nat) (ok : bool)
| AuthSettled (k : nat) (r : option bool)
| Transport (sid : nat) (e : TransportEvent)
| TimerFire (id : positive)
| Advance (dt : nat).

Definition Storage : Type := list (string * string).

Record State : Type := mkState {
  vapi : option nat;
  isCallActive : bool;
  pendingText : option string;
  agentSpeakingTimer : option positive;
  ui : UIState;
  localStorage : Storage;
  uuids_drawn : nat;
  now : nat;
  timers : list Timer;
  next_timer : positive;
  tasks : list (nat * Awaiting);
  next_task : nat;
  next_sid : nat;
  log : list (nat * Effect)
}.

(** ** Configuration *)

Definition VAPI_PUBLIC_KEY : string := "214915eb-a2c4-4a12-a5ed-25cdf9b7c61a".

Definition ASSISTANT_ID : string := "66c72102-02ea-4c75-98e9-8974555e282b".

Definition USER_ID_KEY : string := "calendarUserId".

Definition SETTLE_DELAY : nat := 600.

Definition DEBOUNCE_DELAY : nat := 800.

(** ** Field updates *)

Definition set_vapi (v : option nat) (s : State) : State :=
  mkState v (isCallActive s) (pendingText s) (agentSpeakingTimer s) (ui s)
    (localStorage s) (uuids_drawn s) (now s) (timers s) (next_timer s)
    (tasks s) (next_task s) (next_sid s) (log s).

Definition set_isCallActive (b : bool) (s : State) : State :=
  mkState (vapi s) b (pendingText s) (agentSpeakingTimer s) (ui s)
    (localStorage s) (uuids_drawn s) (now s) (timers s) (next_timer s)
    (tasks s) (next_task s) (next_sid s) (log s).

Definition set_pendingText (t : option string) (s : State) : State :=
  mkState (vapi s) (isCallActive s) t (agentSpeakingTimer s) (ui s)
    (localStorage s) (uuids_drawn s) (now s) (timers s) (next_timer s)
    (tasks s) (next_task s) (next_sid s) (log s).

Definition set_agentSpeakingTimer (h : option positive) (s : State) : State :=
  mkState (vapi s) (isCallActive s) (pendingText s) h (ui s)
    (localStorage s) (uuids_drawn s) (now s) (timers s) (next_timer s)
    (tasks s) (next_task s) (next_sid s) (log s).

Definition set_ui (u : UIState) (s : State) : State :=
  mkState (vapi s) (isCallActive s) (pendingText s) (agentSpeakingTimer s) u
    (localStorage s) (uuids_drawn s) (now s) (timers s) (next_timer s)
    (tasks s) (next_task s) (next_sid s) (log s).

Definition set_localStorage (ls : Storage) (s : State) : State :=
  mkState (vapi s) (isCallActive s) (pendingText s) (agentSpeakingTimer s) (ui s)
    ls (uuids_drawn s) (now s) (timers s) (next_timer s)
    (tasks s) (next_task s) (next_sid s) (log s).

Definition set_uuids_drawn (n : nat) (s : State) : State :=
  mkState (vapi s) (isCallActive s) (pendingText s) (agentSpeakingTimer s) (ui s)
    (localStorage s) n (now s) (timers s) (next_timer s)
    (tasks s) (next_task s) (next_sid s) (log s).

Definition set_now (n : nat) (s : State) : State :=
  mkState (vapi s) (isCallActive s) (pendingText s) (agentSpeakingTimer s) (ui s)
    (localStorage s) (uuids_drawn s) n (timers s) (next_timer s)
    (tasks s) (next_task s) (next_sid s) (log s).

Definition set_timers (ts : list Timer) (s : State) : State :=
  mkState (vapi s) (isCallActive s) (pendingText s) (agentSpeakingTimer s) (ui s)
    (localStorage s) (uuids_drawn s) (now s) ts (next_timer s)
    (tasks s) (next_task s) (next_sid s) (log s).

Definition set_next_timer (p : positive) (s : State) : State :=
  mkState (vapi s) (isCallActive s) (pendingText s) (agentSpeakingTimer s) (ui s)
    (localStorage s) (uuids_drawn s) (now s) (timers s) p
    (tasks s) (next_task s) (next_sid s) (log s).

Definition set_tasks (ts : list (nat * Awaiting)) (s : State) : State :=
  mkState (vapi s) (isCallActive s) (pendingText s) (agentSpeakingTimer s) (ui s)
    (localStorage s) (uuids_drawn s) (now s) (timers s) (next_timer s)
    ts (next_task s) (next_sid s) (log s).

Definition set_next_task (n : nat) (s : State) : State :=
  mkState (vapi s) (isCallActive s) (pendingText s) (agentSpeakingTimer s) (ui s)
    (localStorage s) (uuids_drawn s) (now s) (timers s) (next_timer s)
    (tasks s) n (next_sid s) (log s).

Definition set_next_sid (n : nat) (s : State) : State :=
  mkState (vapi s) (isCallActive s) (pendingText s) (agentSpeakingTimer s) (ui s)
    (localStorage s) (uuids_drawn s) (now s) (timers s) (next_timer s)
    (tasks s) (next_task s) n (log s).

Definition set_log (l : list (nat * Effect)) (s : State) : State :=
  mkState (vapi s) (isCallActive s) (pendingText s) (agentSpeakingTimer s) (ui s)
    (localStorage s) (uuids_drawn s) (now s) (timers s) (next_timer s)
    (tasks s) (next_task s) (next_sid s) l.

(** ** Runtime primitives *)

(** Record an interaction with the outside world, stamped with the clock. *)
Definition emit (e : Effect) (s : State) : State :=
  set_log (log s ++ [(now s, e)]) s.

(** Suspend the running [async] function at an [await]. *)
Definition suspend (a : Awaiting) (s : State) : State :=
  set_next_task (S (next_task s)) (set_tasks (tasks s ++ [(next_task s, a)]) s).

Fixpoint find_task (k : nat) (l : list (nat * Awaiting)) : option Awaiting :=
  match l with
  | [] => None
  | (k', a) :: r => if Nat.eqb k k' then Some a else find_task k r
  end.

Definition drop_task (k : nat) (s : State) : State :=
  set_tasks (filter (fun p => negb (Nat.eqb (fst p) k)) (tasks s)) s.

(** [setTimeout(cb, delay)]: a fresh handle, due [delay] ms from now. *)
Definition setTimeout (a : TimerAction) (delay : nat) (s : State) : positive * State :=
  let id := next_timer s in
  let s := set_timers (timers s ++ [mkTimer id (now s + delay) a]) s in
  let s := set_next_timer (Pos.succ id) s in
  (id, emit (SetTimeout id delay) s).

(** [clearTimeout(id)]. *)
Definition clearTimeout (id : positive) (s : State) : State :=
  emit (ClearTimeout id)
       (set_timers (filter (fun t => negb (Pos.eqb (t_id t) id)) (timers s)) s).

Fixpoint find_timer (id : positive) (l : list Timer) : option Timer :=
  match l with
  | [] => None
  | t :: r => if Pos.eqb (t_id t) id then Some t else find_timer id r
  end.

(** [localStorage.getItem] and [localStorage.setItem]. *)
Fixpoint getItem (key : string) (ls : Storage) : option string :=
  match ls with
  | [] => None
  | (k, v) :: r => if String.eqb k key then Some v else getItem key r
  end.

Fixpoint setItem (key value : string) (ls : Storage) : Storage :=
  match ls with
  | [] => [(key, value)]
  | (k, v) :: r =>
      if String.eqb k key then (k, value) :: r else (k, v) :: setItem key value r
  end.

(** [String.prototype.trim] on code units below 256. *)
Definition is_space (c : ascii) : bool :=
  let n := nat_of_ascii c in
  (Nat.leb 9 n && Nat.leb n 13) || Nat.eqb n 32 || Nat.eqb n 160.

Fixpoint trim_start (str : string) : string :=
  match str with
  | EmptyString => EmptyString
  | String c r => if is_space c then trim_start r else str
  end.

Fixpoint trim_end (str : string) : string :=
  match str with
  | EmptyString => EmptyString
  | String c r =>
      match trim_end r with
      | EmptyString => if is_space c then EmptyString else String c EmptyString
      | r' => String c r'
      end
  end.

Definition trim (str : string) : string := trim_end (trim_start str).

(** The shape of the strings produced by [crypto.randomUUID()]: 36
    characters, lower-case hexadecimal digits in five groups, version
    nibble 4 and variant nibble 8, 9, a or b. *)
Definition is_hex (c : ascii) : bool :=
  let n := nat_of_ascii c in
  (Nat.leb 48 n && Nat.leb n 57) || (Nat.leb 97 n && Nat.leb n 102).

Definition uuid_char_ok (i : nat) (c : ascii) : bool :=
  if Nat.eqb i 8 || Nat.eqb i 13 || Nat.eqb i 18 || Nat.eqb i 23
  then Ascii.eqb c "-"
  else if Nat.eqb i 14 then Ascii.eqb c "4"
  else if Nat.eqb i 19
       then Ascii.eqb c "8" || Ascii.eqb c "9" || Ascii.eqb c "a" || Ascii.eqb c "b"
       else is_hex c.

Fixpoint uuid_chars_from (i : nat) (str : string) : bool :=
  match str with
  | EmptyString => Nat.eqb i 36
  | String c r => uuid_char_ok i c && uuid_chars_from (S i) r
  end.

Definition is_uuid_v4 (str : string) : bool := uuid_chars_from 0 str.

(** ** The DOM projection

    [applyState] first resets the shared flags and then sets them per
    state, so what the page shows is a function of the last state applied. *)

Definition micBtn_disabled (u : UIState) : bool :=
  match u with
  | RequestingMic | Connecting => true
  | _ => false
  end.

Definition permCard_shown (u : UIState) : bool :=
  match u with
  | MicDenied => true
  | _ => false
  end.

(** [setTextSection(visible, enabled = true)]: first component is whether
    the text section is shown, second whether input and send button are
    enabled. *)
Definition textSection (u : UIState) : bool * bool :=
  match u with
  | MicDenied | Listening | UserSpeaking => (true, true)
  | AgentSpeaking => (true, false)
  | Idle | RequestingMic | Connecting | CallEnded | CallError => (false, true)
  end.

(** ** Page elements

    An element with the three attributes the scripts write.  [classList]
    is an ordered set of tokens; assigning [className] replaces it. *)

Module Element.

Record Element : Type := mkElement {
  classList : list string;
  disabled : bool;
  textContent : string
}.

(** [el.classList.contains(token)] *)
Definition contains (token : string) (el : Element) : bool :=
  existsb (String.eqb token) (classList el).

(** [el.classList.add(token)] *)
Definition add (token : string) (el : Element) : Element :=
  if contains token el then el
  else mkElement (classList el ++ [token]) (disabled el) (textContent el).

(** [el.classList.remove(token)] *)
Definition remove (token : string) (el : Element) : Element :=
  mkElement (filter (fun t => negb (String.eqb t token)) (classList el))
    (disabled el) (textContent el).

(** [el.classList.toggle(token, force)] *)
Definition toggle (token : string) (force : bool) (el : Element) : Element :=
  if force then add token el else remove token el.

(** [el.className = name], for a name that is a single token. *)
Definition set_className (name : string) (el : Element) : Element :=
  mkElement [name] (disabled el) (textContent el).

(** [el.disabled = b] *)
Definition set_disabled (b : bool) (el : Element) : Element :=
  mkElement (classList el) b (textContent el).

(** [el.textContent = t] *)
Definition set_textContent (t : string) (el : Element) : Element :=
  mkElement (classList el) (disabled el) t.

(** An element is on display when it does not carry the class
    ['v-hidden']. *)
Definition visible (el : Element) : bool := negb (contains "v-hidden" el).

End Element.

(** ** The voice page

    The elements the controller script holds references to, and
    [applyState] with its helpers as they write to them. *)

Module Page.

Import Element.

Inductive Ref : Type :=
| micBtn | micWrapper | micIcon | stopIcon | spinner
| statusLabel | statusSub | waveform | permCard | retryBtn
| textInput | sendBtn | textSection.

Definition Ref_eqb (a b : Ref) : bool :=
  match a, b with
  | micBtn, micBtn | micWrapper, micWrapper | micIcon, micIcon
  | stopIcon, stopIcon | spinner, spinner | statusLabel, statusLabel
  | statusSub, statusSub | waveform, waveform | permCard, permCard
  | retryBtn, retryBtn | textInput, textInput | sendBtn, sendBtn
  | textSection, textSection => true
  | _, _ => false
  end.

Definition Dom : Type := Ref -> Element.

(** Apply [f] to the element behind [r]. *)
Definition update (r : Ref) (f : Element -> Element) (d : Dom) : Dom :=
  fun r' => if Ref_eqb r r' then f (d r') else d r'.

Definition show (el : Ref) (d : Dom) : Dom := update el (remove "v-hidden") d.

Definition hide (el : Ref) (d : Dom) : Dom := update el (add "v-hidden") d.

Definition setTextSection (visible enabled : bool) (d : Dom) : Dom :=
  let d := if visible then show textSection d else hide textSection d in
  let d := update textInput (set_disabled (negb enabled)) d in
  update sendBtn (set_disabled (negb enabled)) d.

Definition setIcons (mic stop spin : bool) (d : Dom) : Dom :=
  let d := if mic then show micIcon d else hide micIcon d in
  let d := if stop then show stopIcon d else hide stopIcon d in
  if spin then show spinner d else hide spinner d.

Definition setStatus (label sub : string) (d : Dom) : Dom :=
  let d := update statusLabel (set_textContent label) d in
  update statusSub (set_textContent sub) d.

Definition setWaveform (active agentMode : bool) (d : Dom) : Dom :=
  let d := update waveform (toggle "active" active) d in
  update waveform (toggle "agent-mode" agentMode) d.

(** What [applyState] writes to the page.  Arguments left out in the
    script are given their default values. *)
Definition applyState (state : UIState) (d : Dom) : Dom :=
  let d := update micWrapper (set_className "mic-wrapper") d in
  let d := update micBtn (set_disabled false) d in
  let d := hide permCard d in
  let d := setWaveform false false d in
  match state with
  | Idle =>
      let d := setIcons true false false d in
      let d := setStatus "Tap to speak" "Your AI assistant is ready" d in
      setTextSection false true d
  | RequestingMic =>
      let d := setIcons false false true d in
      let d := setStatus "Checking microphone…" "Please allow access when prompted" d in
      let d := update micBtn (set_disabled true) d in
      setTextSection false true d
  | MicDenied =>
      let d := setIcons true false false d in
      let d := setStatus "Microphone blocked" "" d in
      let d := show permCard d in
      setTextSection true true d
  | Connecting =>
      let d := setIcons false false true d in
      let d := setStatus "Connecting…" "Starting your voice assistant" d in
      let d := update micBtn (set_disabled true) d in
      setTextSection false true d
  | Listening =>
      let d := setIcons false true false d in
      let d := setStatus "Listening" "Speak or type — tap ■ to end" d in
      let d := update micWrapper (add "active") d in
      setTextSection true true d
  | UserSpeaking =>
      let d := setIcons false true false d in
      let d := setStatus "Listening…" "Go ahead, I'm listening" d in
      let d := update micWrapper (add "active") d in
      let d := update micWrapper (add "user-speaking") d in
      let d := setWaveform true false d in
      setTextSection true true d
  | AgentSpeaking =>
      let d := setIcons false true false d in
      let d := setStatus "Agent speaking…" "Tap to end call" d in
      let d := update micWrapper (add "active") d in
      let d := update micWrapper (add "agent-talking") d in
      let d := setWaveform true true d in
      setTextSection true false d
  | CallEnded =>
      let d := setIcons true false false d in
      let d := setStatus "Call ended" "Tap to start a new conversation" d in
      setTextSection false true d
  | CallError =>
      let d := setIcons true false false d in
      let d := setStatus "Connection error" "Tap to try again" d in
      setTextSection false true d
  end.

(** What a visitor can tell from the page. *)
Record Presentation : Type := mkPresentation {
  mic_disabled : bool;
  wrapper_classes : list string;
  mic_icon : bool;
  stop_icon : bool;
  spinner_icon : bool;
  label : string;
  sub_label : string;
  wave_active : bool;
  wave_agent : bool;
  permission_card : bool;
  text_section : bool;
  input_disabled : bool;
  send_disabled : bool
}.

Definition presentation (d : Dom) : Presentation :=
  mkPresentation
    (disabled (d micBtn))
    (classList (d micWrapper))
    (visible (d micIcon))
    (visible (d stopIcon))
    (visible (d spinner))
    (textContent (d statusLabel))
    (textContent (d statusSub))
    (contains "active" (d waveform))
    (contains "agent-mode" (d waveform))
    (visible (d permCard))
    (visible (d textSection))
    (disabled (d textInput))
    (disabled (d sendBtn)).

(** The page after the renderings recorded in a log, starting from [d]. *)
Definition paint (d : Dom) (p : nat * Effect) : Dom :=
  match snd p with
  | Render u => applyState u d
  | _ => d
  end.

Definition page_after (l : list (nat * Effect)) (d : Dom) : Dom :=
  fold_left paint l d.

End Page.

(** ** The index page

    The three panels of the landing page and [showState], which shows one
    of them.  The script calls [showState] with the literals ['loading'],
    ['disconnected'] and ['connected'] only, so its argument is the panel
    that [getElementById] finds for the name. *)

Module Index.

Import Element.

Inductive Ref : Type := stateLoading | stateDisconnected | stateConnected.

Definition Ref_eqb (a b : Ref) : bool :=
  match a, b with
  | stateLoading, stateLoading | stateDisconnected, stateDisconnected
  | stateConnected, stateConnected => true
  | _, _ => false
  end.

Definition Dom : Type := Ref -> Element.

Definition update (r : Ref) (f : Element -> Element) (d : Dom) : Dom :=
  fun r' => if Ref_eqb r r' then f (d r') else d r'.

Definition showState (name : Ref) (d : Dom) : Dom :=
  let d := update stateLoading (add "v-hidden") d in
  let d := update stateDisconnected (add "v-hidden") d in
  let d := update stateConnected (add "v-hidden") d in
  update name (remove "v-hidden") d.

End Index.

(** ** Concrete runs *)

Definition demo_uuid (n : nat) : string :=
  if Nat.even n
  then "3f2b8c1e-9a4d-4e6f-8b7a-0c1d2e3f4a5b"
  else "7c9e6679-7425-40de-944b-e07fc1f90ae7".

(** Page load with empty storage, a click with permission already
    granted, the session opens with a token and the call starts. *)
Definition demo_call : list Event :=
  [MicClick;
   PermissionSettled 1 (Some Granted);
   SessionSettled 2 (Some (JString "tok")) true;
   Transport 0 CallStart].

(** Page load, permission denied, then a text typed into the fallback
    input. *)
Definition demo_typed : list Event :=
  [MicClick;
   PermissionSettled 1 (Some Denied);
   TextSubmit "  Schedule a sync "].

(** A page whose elements carry no class, are enabled and hold no text. *)
Definition bare : Element.Element := Element.mkElement [] false "".

Definition bare_page : Page.Dom := fun _ => bare.

Definition bare_index : Index.Dom := fun _ => bare.

(** The call of [demo_call] ends, and the events of the ended session and
    a click on the enabled button follow. *)
Definition demo_after_call : list Event :=
  [Transport 0 (MessageEv (mkMessage "speech-update" "assistant" "started"));
   Transport 0 SpeechStart;
   Advance 900;
   TimerFire 1;
   MicClick].

Section Controller.

(** [randomUUID n] is the value returned by the [n]-th call of
    [crypto.randomUUID()] in this browser profile. *)
Variable randomUUID : nat -> string.

(** ** User identity *)

Definition generateUserId (s : State) : string * State :=
  let userId := randomUUID (uuids_drawn s) in
  let s := emit DrawUUID (set_uuids_drawn (S (uuids_drawn s)) s) in
  let s := emit (StorageSet USER_ID_KEY userId)
                (set_localStorage (setItem USER_ID_KEY userId (localStorage s)) s) in
  (userId, s).

Definition getOrCreateUserId (s : State) : string * State :=
  match getItem USER_ID_KEY (localStorage s) with
  | Some userId =>
      if String.eqb userId "" then generateUserId s else (userId, s)
  | None => generateUserId s
  end.

(** ** State machine *)

Definition applyState (u : UIState) (s : State) : State :=
  let s := emit (Render u) (set_ui u s) in
  match u with
  | CallEnded | CallError => set_isCallActive false s
  | _ => s
  end.

(** ** Text input *)

Definition sendTextToVapi (text : string) (s : State) : State :=
  match vapi s with
  | None => s
  | Some sid =>
      if negb (isCallActive s) then s
      else emit (VapiSend sid "user" text) s
  end.

(** ** Vapi call *)

(** [startCall] up to its first [await]. *)
Definition startCall (s : State) : State :=
  let s := applyState Connecting s in
  let (userId, s) := getOrCreateUserId s in
  let s := emit (FetchSession userId) s in
  suspend (AwaitSession userId) s.

(** The [catch] block around the construction and start of the instance. *)
Definition startCall_catch (s : State) : State :=
  let s := emit ConsoleError s in
  let s := set_isCallActive false s in
  let s := set_vapi None s in
  applyState CallError s.

(** [startCall] from the settlement of the pre-registration request to the
    [await] of [vapi.start].  [r] is [None] when [fetch] or [res.json()]
    threw and [Some v] when [data.token] evaluated to [v]; [opens] tells
    whether [new Vapi(...)] returned. *)
Definition startCall_open (userId : string) (r : option JsValue) (opens : bool)
    (s : State) : State :=
  let (sessionToken, s) :=
    match r with
    | Some v => (v, s)
    | None => (JNull, emit ConsoleWarn s)
    end in
  if opens then
    let sid := next_sid s in
    let s := set_next_sid (S sid) s in
    let s := emit (VapiNew sid) (set_vapi (Some sid) s) in
    let s := emit (VapiStart sid ASSISTANT_ID userId
                     (if truthy sessionToken then Some sessionToken else None)) s in
    suspend (AwaitStart sid) s
  else startCall_catch s.

(** [startCall] after [vapi.start] settled. *)
Definition startCall_started (ok : bool) (s : State) : State :=
  if ok then s else startCall_catch s.

Definition stopCall (s : State) : State :=
  match vapi s with
  | Some sid => emit (VapiStop sid) s
  | None => s
  end.

(** *** Handlers registered on the instance *)

Definition on_call_start (s : State) : State :=
  let s := set_isCallActive true s in
  let s := applyState Listening s in
  match pendingText s with
  | Some textToSend =>
      if String.eqb textToSend "" then s
      else
        let s := set_pendingText None s in
        snd (setTimeout (FlushText textToSend) SETTLE_DELAY s)
  | None => s
  end.

Definition cancel_agentSpeakingTimer (s : State) : State :=
  match agentSpeakingTimer s with
  | Some id => set_agentSpeakingTimer None (clearTimeout id s)
  | None => s
  end.

Definition on_call_end (s : State) : State :=
  let s := set_isCallActive false s in
  let s := set_vapi None s in
  let s := cancel_agentSpeakingTimer s in
  applyState CallEnded s.

Definition on_speech_start (s : State) : State :=
  if isCallActive s then applyState UserSpeaking s else s.

Definition on_speech_end (s : State) : State :=
  if isCallActive s then applyState Listening s else s.

Definition on_message (m : Message) (s : State) : State :=
  if String.eqb (msg_type m) "speech-update" && isCallActive s
     && String.eqb (msg_role m) "assistant"
  then
    if String.eqb (msg_status m) "started" then
      applyState AgentSpeaking (cancel_agentSpeakingTimer s)
    else
      let (id, s) := setTimeout BackToListening DEBOUNCE_DELAY s in
      set_agentSpeakingTimer (Some id) s
  else s.

Definition on_error (s : State) : State :=
  let s := emit ConsoleError s in
  let s := set_isCallActive false s in
  let s := set_vapi None s in
  applyState CallError s.

Definition dispatch (e : TransportEvent) (s : State) : State :=
  match e with
  | CallStart => on_call_start s
  | CallEnd => on_call_end s
  | SpeechStart => on_speech_start s
  | SpeechEnd => on_speech_end s
  | MessageEv m => on_message m s
  | ErrorEv => on_error s
  end.

(** *** Timer callbacks *)

Definition run_timer (a : TimerAction) (s : State) : State :=
  match a with
  | FlushText text => sendTextToVapi text s
  | BackToListening =>
      let s := set_agentSpeakingTimer None s in
      if isCallActive s then applyState Listening s else s
  end.

(** ** Main handler *)

(** [handleMicClick] up to its first [await]. *)
Definition handleMicClick (s : State) : State :=
  if isCallActive s then stopCall s
  else
    let s := applyState RequestingMic s in
    suspend AwaitPermission (emit QueryPermission s).

(** [getMicPermissionState]: a query that throws counts as ['prompt']. *)
Definition getMicPermissionState (r : option PermissionState) : PermissionState :=
  match r with
  | Some st => st
  | None => Prompt
  end.

(** [handleMicClick] after the permission query settled. *)
Definition handleMicClick_permission (r : option PermissionState) (s : State) : State :=
  match getMicPermissionState r with
  | Denied => applyState MicDenied s
  | Prompt => suspend AwaitMic (emit GetUserMedia s)
  | Granted => startCall s
  end.

(** [handleMicClick] after [requestMic] returned [granted]. *)
Definition handleMicClick_mic (granted : bool) (s : State) : State :=
  if granted then startCall (emit StopTracks s)
  else applyState MicDenied s.

(** [handleTextSend]; [raw] is [textInput.value]. *)
Definition handleTextSend (raw : string) (s : State) : State :=
  let text := trim raw in
  if String.eqb text "" then s
  else if isCallActive s then sendTextToVapi text s
  else startCall (set_pendingText (Some text) s).

(** ** Auth guard *)

Definition guardAuth (s : State) : State :=
  let (userId, s) := getOrCreateUserId s in
  suspend AwaitAuth (emit (FetchAuthStatus userId) s).

(** [r] is [None] when the request failed and [Some b] with [b] the
    truthiness of [data.connected]. *)
Definition guardAuth_settled (r : option bool) (s : State) : State :=
  match r with
  | Some false => emit (Navigate "index.html") s
  | _ => s
  end.

(** ** The event loop *)

Definition step (s : State) (e : Event) : State :=
  match e with
  | MicClick | RetryClick => handleMicClick s
  | TextSubmit raw => handleTextSend raw s
  | PermissionSettled k r =>
      match find_task k (tasks s) with
      | Some AwaitPermission => handleMicClick_permission r (drop_task k s)
      | _ => s
      end
  | MicSettled k granted =>
      match find_task k (tasks s) with
      | Some AwaitMic => handleMicClick_mic granted (drop_task k s)
      | _ => s
      end
  | SessionSettled k r opens =>
      match find_task k (tasks s) with
      | Some (AwaitSession userId) => startCall_open userId r opens (drop_task k s)
      | _ => s
      end
  | StartSettled k ok =>
      match find_task k (tasks s) with
      | Some (AwaitStart _) => startCall_started ok (drop_task k s)
      | _ => s
      end
  | AuthSettled k r =>
      match find_task k (tasks s) with
      | Some AwaitAuth => guardAuth_settled r (drop_task k s)
      | _ => s
      end
  | Transport sid e =>
      (* only an instance that was constructed has handlers registered *)
      if Nat.ltb sid (next_sid s) then dispatch e s else s
  | TimerFire id =>
      match find_timer id (timers s) with
      | Some t =>
          if Nat.leb (t_due t) (now s) then
            run_timer (t_action t)
              (set_timers (filter (fun t' => negb (Pos.eqb (t_id t') id)) (timers s)) s)
          else s
      | None => s
      end
  | Advance dt => set_now (now s + dt) s
  end.

Definition run (s : State) (evs : list Event) : State := fold_left step evs s.

(** The page as the script leaves it after loading, given what
    [localStorage] held: [applyState('idle')] and [guardAuth()]. *)
Definition blank (ls : Storage) : State :=
  mkState None false None None Idle ls 0 0 [] 1%positive [] 0 0 [].

Definition boot (ls : Storage) : State := guardAuth (applyState Idle (blank ls)).

(** ** Reachable states and what was emitted by a step *)

Inductive reachable : State -> Prop :=
| reach_boot : forall ls, reachable (boot ls)
| reach_step : forall s e, reachable s -> reachable (step s e).

(** The log entries appended by handling [e] in [s]. *)
Definition emitted (s : State) (e : Event) : list (nat * Effect) :=
  skipn (List.length (log s)) (log (step s e)).

Definition is_active_ui (u : UIState) : bool :=
  match u with
  | Listening | UserSpeaking | AgentSpeaking => true
  | _ => false
  end.

(** Well-formedness of the bookkeeping: handles and task numbers are
    allocated in increasing order, and the three in-call states are shown
    only while the call is marked active. *)
Record wf (s : State) : Prop := mk_wf {
  wf_timers_fresh :
    Forall (fun t => (t_id t < next_timer s)%positive) (timers s);
  wf_handle_fresh :
    forall h, agentSpeakingTimer s = Some h -> (h < next_timer s)%positive;
  wf_tasks_fresh :
    Forall (fun p => fst p < next_task s) (tasks s);
  wf_vapi :
    forall sid, vapi s = Some sid -> sid < next_sid s;
  wf_active :
    is_active_ui (ui s) = true -> isCallActive s = true
}.

Definition stopped_update : Message := mkMessage "speech-update" "assistant" "stopped".

Definition started_update : Message := mkMessage "speech-update" "assistant" "started".

(** ** Observations on runs

    Predicates and bookkeeping used to state the properties below. *)

Definition is_settlement (e : Event) : bool :=
  match e with
  | PermissionSettled _ _ | MicSettled _ _ | SessionSettled _ _ _
  | StartSettled _ _ | AuthSettled _ _ => true
  | _ => false
  end.

Definition is_call_start (e : Event) : bool :=
  match e with
  | Transport _ CallStart => true
  | _ => false
  end.

Definition is_text_submit (e : Event) : bool :=
  match e with
  | TextSubmit _ => true
  | _ => false
  end.

Definition is_send (p : nat * Effect) : bool :=
  match snd p with
  | VapiSend _ _ _ => true
  | _ => false
  end.

Definition is_listening_render (p : nat * Effect) : bool :=
  match snd p with
  | Render Listening => true
  | _ => false
  end.

Definition is_permission_effect (p : nat * Effect) : bool :=
  match snd p with
  | QueryPermission | GetUserMedia => true
  | _ => false
  end.

Definition is_assistant_update (m : Message) : bool :=
  String.eqb (msg_type m) "speech-update" && String.eqb (msg_role m) "assistant".

(** The events that neither run a timer callback, nor start or end a
    call, nor fail to open one, nor report the end of user speech, nor are
    assistant speech updates. *)
Definition quiet (e : Event) : bool :=
  match e with
  | MicClick | RetryClick | TextSubmit _ | Advance _
  | PermissionSettled _ _ | MicSettled _ _ | AuthSettled _ _ => true
  | SessionSettled _ _ opens => opens
  | StartSettled _ ok => ok
  | Transport _ SpeechStart => true
  | Transport _ (MessageEv m) => negb (is_assistant_update m)
  | Transport _ _ => false
  | TimerFire _ => false
  end.

(** What a quiet event leaves alone while the call is active. *)
Record undisturbed (s s' : State) : Prop := mk_undisturbed {
  und_active : isCallActive s' = true;
  und_handle : agentSpeakingTimer s' = agentSpeakingTimer s;
  und_timers : timers s' = timers s;
  und_next_timer : next_timer s' = next_timer s;
  und_next_sid : next_sid s <= next_sid s';
  und_ui : ui s <> Listening -> ui s' <> Listening;
  und_log : exists l, log s' = log s ++ l /\ filter is_listening_render l = []
}.

Definition is_flush (t : Timer) : bool :=
  match t_action t with
  | FlushText _ => true
  | BackToListening => false
  end.

(** The entries of the log that are messages sent to the instance. *)
Definition sends (l : list (nat * Effect)) : list (nat * Effect) := filter is_send l.

(** The pending timers whose callback sends queued text. *)
Definition flush_timers (s : State) : list Timer := filter is_flush (timers s).

(** What a step other than a text submission can do to the call flag, the
    pending text, the flush timers and the messages sent. *)
Inductive flush_effect (s : State) (e : Event) : Prop :=
| fe_other :
    pendingText (step s e) = pendingText s ->
    (exists f, flush_timers (step s e) = filter f (flush_timers s)) ->
    sends (emitted s e) = [] ->
    (isCallActive s = false ->
     isCallActive (step s e) = false /\
     filter is_listening_render (emitted s e) = []) ->
    flush_effect s e
| fe_start_plain :
    (pendingText s = None \/ pendingText s = Some "") ->
    pendingText (step s e) = pendingText s ->
    flush_timers (step s e) = flush_timers s ->
    emitted s e = [(now s, Render Listening)] ->
    flush_effect s e
| fe_start_flush : forall text,
    pendingText s = Some text ->
    text <> "" ->
    pendingText (step s e) = None ->
    flush_timers (step s e) =
      flush_timers s ++ [mkTimer (next_timer s) (now s + SETTLE_DELAY) (FlushText text)] ->
    emitted s e = [(now s, Render Listening);
                   (now s, SetTimeout (next_timer s) SETTLE_DELAY)] ->
    flush_effect s e
| fe_fire : forall id t text,
    e = TimerFire id ->
    In t (timers s) ->
    t_id t = id ->
    t_action t = FlushText text ->
    t_due t <= now s ->
    pendingText (step s e) = pendingText s ->
    flush_timers (step s e) =
      filter (fun t' => negb (Pos.eqb (t_id t') id)) (flush_timers s) ->
    (emitted s e = [] \/
     exists sid, emitted s e = [(now s, VapiSend sid "user" text)]) ->
    flush_effect s e.

(** ** One call session at a time *)

(** A call session exists from the moment [vapi.start] is called on a new
    instance until that instance reports ['call-end'] or ['error'], or its
    start is rejected.  [live] lists the sessions that exist; the
    controller does not see it.  [live_after s live e] is the list once
    [e] has been handled in [s]. *)
Definition live_after (s : State) (live : list nat) (e : Event) : list nat :=
  match e with
  | SessionSettled k _ true =>
      match find_task k (tasks s) with
      | Some (AwaitSession _) => next_sid s :: live
      | _ => live
      end
  | StartSettled k false =>
      match find_task k (tasks s) with
      | Some (AwaitStart sid) => remove Nat.eq_dec sid live
      | _ => live
      end
  | Transport sid CallEnd | Transport sid ErrorEv => remove Nat.eq_dec sid live
  | _ => live
  end.

(** Modelled from the spec: the page markup (voice.html) and the Vapi SDK
    are not among the sources, so what the environment can deliver is taken
    from the specification and from the flags [applyState] sets.  A click
    on the microphone button arrives only while the button is enabled; a
    click on the retry button only while the permission card, taken to
    hold that button, is shown; a text submission only while the text
    section is shown and enabled; an event of an instance, or the rejection
    of its start, only while its session exists (a session that has ended
    or failed reports nothing more). *)
Definition offered (s : State) (live : list nat) (e : Event) : bool :=
  match e with
  | MicClick => negb (micBtn_disabled (ui s))
  | RetryClick => permCard_shown (ui s)
  | TextSubmit _ => fst (textSection (ui s)) && snd (textSection (ui s))
  | Transport sid _ => existsb (Nat.eqb sid) live
  | StartSettled k false =>
      match find_task k (tasks s) with
      | Some (AwaitStart sid) => existsb (Nat.eqb sid) live
      | _ => true
      end
  | _ => true
  end.

(** A run in which every event is one the environment can deliver. *)
Fixpoint admissible (s : State) (live : list nat) (evs : list Event) : bool :=
  match evs with
  | [] => true
  | e :: rest =>
      offered s live e && admissible (step s e) (live_after s live e) rest
  end.

(** The sessions that exist at the end of a run. *)
Fixpoint live_sessions (s : State) (live : list nat) (evs : list Event) : list nat :=
  match evs with
  | [] => live
  | e :: rest => live_sessions (step s e) (live_after s live e) rest
  end.

Definition prestart (p : nat * Awaiting) : bool :=
  match snd p with
  | AwaitPermission | AwaitMic | AwaitSession _ => true
  | AwaitStart _ | AwaitAuth => false
  end.

(** The start attempts that have not reached [vapi.start] yet. *)
Definition prestart_tasks (s : State) : list (nat * Awaiting) :=
  filter prestart (tasks s).

Inductive one_session (s : State) (live : list nat) : Prop :=
| os_rest :
    live = [] ->
    prestart_tasks s = [] ->
    isCallActive s = false ->
    one_session s live
| os_starting : forall p,
    live = [] ->
    prestart_tasks s = [p] ->
    isCallActive s = false ->
    micBtn_disabled (ui s) = true ->
    one_session s live
| os_opening : forall sid,
    live = [sid] ->
    vapi s = Some sid ->
    prestart_tasks s = [] ->
    isCallActive s = false ->
    micBtn_disabled (ui s) = true ->
    one_session s live
| os_in_call : forall sid,
    live = [sid] ->
    vapi s = Some sid ->
    prestart_tasks s = [] ->
    isCallActive s = true ->
    is_active_ui (ui s) = true ->
    one_session s live.

(** ** The ['message'] handler without debounce

    The handler of the copies of the script that have no text input
    (frontend/voice.js): an assistant update shows [agent-speaking] when
    its status is ['started'] and [listening] otherwise, at once. *)

Definition on_message_undebounced (m : Message) (s : State) : State :=
  if String.eqb (msg_type m) "speech-update" && isCallActive s
     && String.eqb (msg_role m) "assistant"
  then applyState (if String.eqb (msg_status m) "started"
                   then AgentSpeaking else Listening) s
  else s.

(** ** The index page script

    The landing page shares [localStorage] with the voice page and keeps
    its own copy of [getOrCreateUserId]; its [BACKEND_URL] is empty. *)

Definition redirectToGoogle (s : State) : State :=
  let (userId, s) := getOrCreateUserId s in
  emit (Navigate (String.append "/auth/google?userId=" userId)) s.

(** [checkAuthStatus] up to its first [await]. *)
Definition checkAuthStatus (p : Index.Dom) (s : State) : Index.Dom * State :=
  let p := Index.showState Index.stateLoading p in
  let (userId, s) := getOrCreateUserId s in
  (p, suspend AwaitAuth (emit (FetchAuthStatus userId) s)).

(** [checkAuthStatus] after the status request settled.  [r] is as in
    [guardAuth_settled]; [isReconnect] tells whether the address of the
    page has a [reconnect] parameter. *)
Definition checkAuthStatus_settled (r : option bool) (isReconnect : bool)
    (p : Index.Dom) (s : State) : Index.Dom * State :=
  match r with
  | Some true =>
      if negb isReconnect then (p, emit (Navigate "voice.html") s)
      else (Index.showState Index.stateConnected p, s)
  | Some false => (Index.showState Index.stateDisconnected p, s)
  | None => (Index.showState Index.stateDisconnected p, s)
  end.

(** ** Further observations *)

Definition is_active_render (p : nat * Effect) : bool :=
  match snd p with
  | Render u => is_active_ui u
  | _ => false
  end.

Definition is_navigate (p : nat * Effect) : bool :=
  match snd p with
  | Navigate _ => true
  | _ => false
  end.

Definition is_auth_task (p : nat * Awaiting) : bool :=
  match snd p with
  | AwaitAuth => true
  | _ => false
  end.

(** The user identity an interaction carries, if any. *)
Definition user_of (e : Effect) : option string :=
  match e with
  | StorageSet _ value => Some value
  | FetchSession userId | FetchAuthStatus userId => Some userId
  | VapiStart _ _ userId _ => Some userId
  | _ => None
  end.

(** The state shown by the last rendering of a log. *)
Definition last_render (l : list (nat * Effect)) : option UIState :=
  fold_left (fun acc p => match snd p with Render u => Some u | _ => acc end) l None.

(** The stored identity is [id], and every suspended start attempt and
    every interaction logged so far carries it. *)
Record identity_kept (id : string) (s : State) : Prop := mk_identity_kept {
  ik_stored : getItem USER_ID_KEY (localStorage s) = Some id;
  ik_tasks : forall k u, In (k, AwaitSession u) (tasks s) -> u = id;
  ik_log : forall t e u, In (t, e) (log s) -> user_of e = Some u -> u = id
}.

(** [text] is what [handleTextSend] read from one of the submissions of
    [evs]: the trimmed value of the input, which was not empty. *)
Definition submitted (evs : list Event) (text : string) : Prop :=
  text <> "" /\ exists raw, In (TextSubmit raw) evs /\ text = trim raw.

(** Every text held for sending or already sent satisfies [Q], and every
    message sent has the role ['user']. *)
Record texts_from (Q : string -> Prop) (s : State) : Prop := mk_texts_from {
  tf_pending : forall x, pendingText s = Some x -> x <> "" -> Q x;
  tf_timers : forall t x, In t (timers s) -> t_action t = FlushText x -> Q x;
  tf_log : forall t sid role x,
      In (t, VapiSend sid role x) (log s) -> role = "user" /\ Q x
}.

Definition is_render (p : nat * Effect) : bool :=
  match snd p with
  | Render _ => true
  | _ => false
  end.

(** The transitions of the state machine: the events whose handler
    applies [u], with what the handler requires of the call flag and of
    the event. *)
Definition transition (s : State) (e : Event) (u : UIState) : Prop :=
  match u with
  | Idle => False
  | RequestingMic =>
      (e = MicClick \/ e = RetryClick) /\ isCallActive s = false
  | MicDenied =>
      (exists k, e = PermissionSettled k (Some Denied)) \/
      (exists k, e = MicSettled k false)
  | Connecting =>
      (exists k, e = PermissionSettled k (Some Granted)) \/
      (exists k, e = MicSettled k true) \/
      (exists raw, e = TextSubmit raw /\ trim raw <> "" /\ isCallActive s = false)
  | Listening =>
      (exists sid, e = Transport sid CallStart) \/
      (exists sid, e = Transport sid SpeechEnd /\ isCallActive s = true) \/
      (exists id, e = TimerFire id /\ isCallActive s = true)
  | UserSpeaking =>
      exists sid, e = Transport sid SpeechStart /\ isCallActive s = true
  | AgentSpeaking =>
      exists sid m,
        e = Transport sid (MessageEv m) /\ isCallActive s = true /\
        is_assistant_update m = true /\ msg_status m = "started"
  | CallEnded => exists sid, e = Transport sid CallEnd
  | CallError =>
      (exists sid, e = Transport sid ErrorEv) \/
      (exists k r, e = SessionSettled k r false) \/
      (exists k, e = StartSettled k false)
  end.

(** ** The debounce window and the settle timer *)

(** The events that, handled in [s], defeat a pending debounce: a call
    start or an error reported by a constructed instance; during a call,
    the end of user speech or an assistant speech update other than
    ['started']; the failure to open or to start of a pending attempt;
    during a call, the callback of a debounce timer that is due. *)
Definition disturbs (s : State) (e : Event) : bool :=
  match e with
  | Transport sid te =>
      Nat.ltb sid (next_sid s) &&
      match te with
      | CallStart | ErrorEv => true
      | SpeechEnd => isCallActive s
      | MessageEv m =>
          isCallActive s && is_assistant_update m &&
          negb (String.eqb (msg_status m) "started")
      | CallEnd | SpeechStart => false
      end
  | SessionSettled k _ opens =>
      negb opens &&
      match find_task k (tasks s) with
      | Some (AwaitSession _) => true
      | _ => false
      end
  | StartSettled k ok =>
      negb ok &&
      match find_task k (tasks s) with
      | Some (AwaitStart _) => true
      | _ => false
      end
  | TimerFire id =>
      match find_timer id (timers s) with
      | Some t => Nat.leb (t_due t) (now s) && negb (is_flush t) && isCallActive s
      | None => false
      end
  | _ => false
  end.

(** A run none of whose events disturbs the state it is handled in. *)
Fixpoint calm (s : State) (evs : list Event) : bool :=
  match evs with
  | [] => true
  | e :: rest => negb (disturbs s e) && calm (step s e) rest
  end.

(** The events whose handler may clear the timer held in
    [agentSpeakingTimer]: a call end and an assistant speech update. *)
Definition ends_window (e : Event) : bool :=
  match e with
  | Transport _ CallEnd => true
  | Transport _ (MessageEv m) => is_assistant_update m
  | _ => false
  end.

(** Either the debounce timer [tm] with handle [id] is pending during a
    call with its handle stored, or no timer with that handle is pending. *)
Definition debounce_phase (id : positive) (tm : Timer) (s : State) : Prop :=
  (isCallActive s = true /\ agentSpeakingTimer s = Some id /\
   find_timer id (timers s) = Some tm) \/
  find_timer id (timers s) = None.

(** Handling [e] in [s] runs the callback of the timer [id]: the timer is
    pending and due. *)
Definition fires (id : positive) (s : State) (e : Event) : bool :=
  match e with
  | TimerFire id' =>
      Pos.eqb id' id &&
      match find_timer id (timers s) with
      | Some t => Nat.leb (t_due t) (now s)
      | None => false
      end
  | _ => false
  end.

(** The callback of the timer [id] runs somewhere in the run. *)
Fixpoint fired (id : positive) (s : State) (evs : list Event) : bool :=
  match evs with
  | [] => false
  | e :: rest => fires id s e || fired id (step s e) rest
  end.

(** ** Basic facts *)

Lemma find_timer_filter_same id l :
  find_timer id (filter (fun t => negb (Pos.eqb (t_id t) id)) l) = None.
Proof.
  induction l as [|t l IH]; simpl; [reflexivity|].
  destruct (Pos.eqb (t_id t) id) eqn:E; simpl; [exact IH|].
  rewrite E. exact IH.
Qed.

Lemma find_timer_fresh id l :
  Forall (fun t => (t_id t < id)%positive) l -> find_timer id l = None.
Proof.
  induction 1 as [|t l Ht _ IH]; simpl; [reflexivity|].
  destruct (Pos.eqb_spec (t_id t) id) as [E|E]; [lia|exact IH].
Qed.

Lemma find_timer_app id l1 l2 :
  find_timer id (l1 ++ l2) =
  match find_timer id l1 with
  | Some t => Some t
  | None => find_timer id l2
  end.
Proof.
  induction l1 as [|t l1 IH]; simpl; [reflexivity|].
  destruct (Pos.eqb (t_id t) id); [reflexivity|exact IH].
Qed.

Lemma find_timer_none_filter id id' l :
  find_timer id l = None ->
  find_timer id (filter (fun t => negb (Pos.eqb (t_id t) id')) l) = None.
Proof.
  induction l as [|t l IH]; simpl; [reflexivity|].
  destruct (Pos.eqb (t_id t) id) eqn:E; [discriminate|].
  intros H. destruct (Pos.eqb (t_id t) id'); simpl; [auto|].
  rewrite E. auto.
Qed.

Lemma find_task_fresh k l :
  Forall (fun p => fst p < k) l -> find_task k l = None.
Proof.
  induction 1 as [|[k' a] l Hk _ IH]; simpl in *; [reflexivity|].
  destruct (Nat.eqb_spec k k') as [E|E]; [lia|exact IH].
Qed.

Lemma find_task_app k l1 l2 :
  find_task k (l1 ++ l2) =
  match find_task k l1 with
  | Some a => Some a
  | None => find_task k l2
  end.
Proof.
  induction l1 as [|[k' a] l1 IH]; simpl; [reflexivity|].
  destruct (Nat.eqb k k'); [reflexivity|exact IH].
Qed.

Lemma Forall_filter_keep {A} (P : A -> Prop) (f : A -> bool) l :
  Forall P l -> Forall P (filter f l).
Proof.
  induction 1; simpl; [constructor|].
  destruct (f x); [constructor|]; assumption.
Qed.

Lemma Forall_timer_lt_succ (p : positive) l :
  Forall (fun t => (t_id t < p)%positive) l ->
  Forall (fun t => (t_id t < Pos.succ p)%positive) l.
Proof. apply Forall_impl. intros t Ht. lia. Qed.

Lemma Forall_task_lt_succ (n : nat) (l : list (nat * Awaiting)) :
  Forall (fun p => fst p < n) l ->
  Forall (fun p => fst p < S n) l.
Proof. apply Forall_impl. intros t Ht. lia. Qed.

Lemma is_uuid_v4_nonempty u : is_uuid_v4 u = true -> u <> "".
Proof. intros H E. subst u. discriminate H. Qed.

Ltac unfold_handlers :=
  unfold step, dispatch, run_timer, handleMicClick, handleMicClick_permission,
    handleMicClick_mic, handleTextSend, startCall_open, startCall_started,
    startCall_catch, startCall, stopCall, guardAuth, guardAuth_settled,
    on_call_start, on_call_end, on_speech_start, on_speech_end, on_message,
    on_error, cancel_agentSpeakingTimer, sendTextToVapi, getMicPermissionState,
    getOrCreateUserId, generateUserId, applyState, setTimeout, clearTimeout,
    suspend, drop_task, emit in *.

Ltac split_cases :=
  repeat match goal with
    | |- context [match ?x with _ => _ end] =>
        lazymatch x with
        | context [match _ with _ => _ end] => fail
        | _ => destruct x eqn:?; simpl in *
        end
    end.

Ltac solve_fresh :=
  repeat match goal with
    | |- Forall _ (_ ++ _) => apply Forall_app; split
    | |- Forall _ [_] => constructor; [simpl; lia | constructor]
    | |- Forall _ (filter _ _) => apply Forall_filter_keep
    | |- Forall (fun t => (t_id t < Pos.succ _)%positive) _ =>
        apply Forall_timer_lt_succ
    | |- Forall (fun p => fst p < S _) _ => apply Forall_task_lt_succ
    | |- Forall _ _ => assumption
    end.

Lemma wf_boot ls : wf (boot ls).
Proof.
  unfold boot, blank. unfold_handlers. simpl. split_cases;
  constructor; simpl; intros; try discriminate; solve_fresh; constructor.
Qed.

Lemma wf_step s e : wf s -> wf (step s e).
Proof.
  intros [H1 H2 H3 H4 H5].
  destruct e; unfold_handlers; simpl; split_cases.
  all: try (constructor; assumption).
  all: constructor; simpl; intros.
  all: try discriminate; try assumption; try (apply H2; assumption); try (apply H4; assumption); try (apply H5; assumption).
  all: solve_fresh.
  all: try (apply H4; congruence).
  all: try (apply Nat.lt_lt_succ_r, H4; congruence).
  all: try (apply H2; congruence).
  all: try (apply Pos.lt_lt_succ, H2; congruence).
  all: try (match goal with H : Some _ = Some _ |- _ => inversion H; subst; lia end).
  all: try (apply H5; congruence).
  all: try congruence.
  all: try match goal with
       | Hx : is_active_ui _ = true -> _, Hy : is_active_ui _ = true |- _ =>
           specialize (Hx Hy); congruence
       end.
  all: repeat match goal with
       | H : _ && _ = true |- _ => apply andb_prop in H; destruct H
       end; assumption.
Qed.

Lemma reachable_wf s : reachable s -> wf s.
Proof. induction 1; [apply wf_boot | apply wf_step; assumption]. Qed.

Lemma reachable_run s evs : reachable s -> reachable (run s evs).
Proof.
  revert s. induction evs as [|e evs IH]; intros s H; simpl; [exact H|].
  apply IH. constructor. exact H.
Qed.

(** ** Identity provider *)

Lemma getItem_setItem key value ls :
  getItem key (setItem key value ls) = Some value.
Proof.
  induction ls as [|[k v] ls IH]; simpl.
  - rewrite String.eqb_refl. reflexivity.
  - destruct (String.eqb k key) eqn:E; simpl; rewrite E; [reflexivity|exact IH].
Qed.

Lemma getOrCreateUserId_stored s userId :
  getItem USER_ID_KEY (localStorage s) = Some userId ->
  userId <> "" ->
  getOrCreateUserId s = (userId, s).
Proof.
  intros H Hne. unfold getOrCreateUserId. rewrite H.
  destruct (String.eqb_spec userId ""); [contradiction|reflexivity].
Qed.

(** C8. [getOrCreateUserId] is idempotent.  When nothing is stored under
    the fixed key ['calendarUserId'] the call draws one value from
    [crypto.randomUUID()], a version-4 UUID string, and stores it under
    that key; after any call the key holds the returned string, and every
    later call made with the same store contents, in this page or after a
    reload, returns that string and changes nothing: no draw, no write. *)
Theorem getOrCreateUserId_idempotent :
  forall s : State,
    (forall n, is_uuid_v4 (randomUUID n) = true) ->
    let userId := fst (getOrCreateUserId s) in
    let s1 := snd (getOrCreateUserId s) in
    (getItem USER_ID_KEY (localStorage s) = None ->
       userId = randomUUID (uuids_drawn s) /\
       is_uuid_v4 userId = true /\
       uuids_drawn s1 = S (uuids_drawn s) /\
       localStorage s1 = setItem USER_ID_KEY userId (localStorage s)) /\
    getItem USER_ID_KEY (localStorage s1) = Some userId /\
    (forall s2 : State,
       localStorage s2 = localStorage s1 ->
       getOrCreateUserId s2 = (userId, s2)).
Proof.
  intros s Huuid userId s1.
  assert (Hgen : fst (generateUserId s) <> "").
  { simpl. apply is_uuid_v4_nonempty, Huuid. }
  assert (Hstored : getItem USER_ID_KEY (localStorage s1) = Some userId /\ userId <> "").
  { subst userId s1. unfold getOrCreateUserId.
    destruct (getItem USER_ID_KEY (localStorage s)) as [u|] eqn:Hget.
    - destruct (String.eqb_spec u "") as [E|E].
      + split; [simpl; apply getItem_setItem | exact Hgen].
      + split; [exact Hget | exact E].
    - split; [simpl; apply getItem_setItem | exact Hgen]. }
  destruct Hstored as [Hget1 Hne].
  split; [|split].
  - intros Hnone. subst userId s1. unfold getOrCreateUserId. rewrite Hnone.
    simpl. repeat split. apply Huuid.
  - exact Hget1.
  - intros s2 Hls. apply getOrCreateUserId_stored; [rewrite Hls; exact Hget1 | exact Hne].
Qed.

(** ** Log and task bookkeeping *)

Lemma step_log_app s e : exists l, log (step s e) = log s ++ l.
Proof.
  destruct e; unfold_handlers; simpl; split_cases;
    rewrite <- ?app_assoc;
    first [ eexists; reflexivity | exists []; rewrite app_nil_r; reflexivity ].
Qed.

Lemma log_step s e : log (step s e) = log s ++ emitted s e.
Proof.
  unfold emitted. destruct (step_log_app s e) as [l Hl]. rewrite Hl.
  rewrite skipn_app, skipn_all, Nat.sub_diag. reflexivity.
Qed.

Lemma emitted_eq s e l : log (step s e) = log s ++ l -> emitted s e = l.
Proof.
  intros H. unfold emitted. rewrite H.
  rewrite skipn_app, skipn_all, Nat.sub_diag. reflexivity.
Qed.

Lemma filter_task_fresh k (l : list (nat * Awaiting)) :
  Forall (fun p => fst p < k) l ->
  filter (fun p => negb (Nat.eqb (fst p) k)) l = l.
Proof.
  induction 1 as [|[k' a] l Hk _ IH]; simpl in *; [reflexivity|].
  destruct (Nat.eqb_spec k' k) as [E|E]; [lia|]. simpl. f_equal. exact IH.
Qed.

Lemma drop_new_task k a (l : list (nat * Awaiting)) :
  Forall (fun p => fst p < k) l ->
  filter (fun p => negb (Nat.eqb (fst p) k)) (l ++ [(k, a)]) = l.
Proof.
  intros H. rewrite filter_app, filter_task_fresh by exact H.
  simpl. rewrite Nat.eqb_refl. simpl. apply app_nil_r.
Qed.

Lemma find_new_task k a (l : list (nat * Awaiting)) :
  Forall (fun p => fst p < k) l ->
  find_task k (l ++ [(k, a)]) = Some a.
Proof.
  intros H. rewrite find_task_app, find_task_fresh by exact H.
  simpl. rewrite Nat.eqb_refl. reflexivity.
Qed.

Lemma find_suspended a s :
  Forall (fun p => fst p < next_task s) (tasks s) ->
  find_task (next_task s) (tasks (suspend a s)) = Some a.
Proof. intros H. unfold suspend. simpl. apply find_new_task, H. Qed.

Lemma drop_suspended a s :
  Forall (fun p => fst p < next_task s) (tasks s) ->
  drop_task (next_task s) (suspend a s) = set_next_task (S (next_task s)) s.
Proof.
  intros H. unfold drop_task, suspend. simpl.
  rewrite (drop_new_task _ _ _ H). reflexivity.
Qed.

(** ** Permission gate *)

Lemma GetUserMedia_only_on_prompt s e t :
  In (t, GetUserMedia) (emitted s e) ->
  exists k r,
    e = PermissionSettled k r /\
    getMicPermissionState r = Prompt /\
    find_task k (tasks s) = Some AwaitPermission.
Proof.
  intros Hin.
  destruct e;
    try (exfalso; revert Hin; unfold emitted;
         unfold_handlers; simpl; split_cases;
         rewrite <- ?app_assoc, ?skipn_app, ?skipn_all, ?Nat.sub_diag; simpl;
         intros Hin; repeat (destruct Hin as [Hin|Hin]; [discriminate Hin|]);
         exact Hin).
  exists k, r. split; [reflexivity|].
  revert Hin. unfold emitted, step.
  destruct (find_task k (tasks s)) as [[| | | |]|] eqn:Hf;
    try (rewrite skipn_all; intros []).
  unfold handleMicClick_permission.
  destruct (getMicPermissionState r) eqn:Hr; [| |intros _; split; reflexivity];
    unfold_handlers; simpl; split_cases;
    rewrite <- ?app_assoc, ?skipn_app, ?skipn_all, ?Nat.sub_diag; simpl;
    intros Hin; repeat (destruct Hin as [Hin|Hin]; [discriminate Hin|]);
    contradiction.
Qed.

(** C7. A microphone click made while no call is active queries the
    permission state; when the query answers ['denied'] the controller
    shows [mic-denied], the attempt is over (no task of it is left) and
    from click to end it has rendered [requesting-mic], queried the
    permission and rendered [mic-denied], nothing else, so
    [getUserMedia] was not invoked.  Whatever was handled between the
    click and the answer, the answer ['denied'] only renders [mic-denied]
    and leaves no task behind.  Whatever the state and the event,
    [getUserMedia] is invoked only by the continuation of a permission
    query whose answer (a failed query counting as ['prompt']) is
    ['prompt'], and that continuation does invoke it. *)
Theorem requestMic_only_when_prompt :
  (forall s : State,
     reachable s ->
     isCallActive s = false ->
     let s1 := step s MicClick in
     let s2 := step s1 (PermissionSettled (next_task s) (Some Denied)) in
     ui s2 = MicDenied /\
     tasks s2 = tasks s /\
     log s2 = log s ++ [(now s, Render RequestingMic);
                        (now s, QueryPermission);
                        (now s, Render MicDenied)]) /\
  (forall (s : State) (k : nat),
     find_task k (tasks s) = Some AwaitPermission ->
     let s' := step s (PermissionSettled k (Some Denied)) in
     ui s' = MicDenied /\
     tasks s' = filter (fun p => negb (Nat.eqb (fst p) k)) (tasks s) /\
     emitted s (PermissionSettled k (Some Denied)) = [(now s, Render MicDenied)]) /\
  (forall (s : State) (e : Event) (t : nat),
     In (t, GetUserMedia) (emitted s e) ->
     exists k r,
       e = PermissionSettled k r /\
       getMicPermissionState r = Prompt /\
       find_task k (tasks s) = Some AwaitPermission) /\
  (forall (s : State) (k : nat) (r : option PermissionState),
     find_task k (tasks s) = Some AwaitPermission ->
     getMicPermissionState r = Prompt ->
     emitted s (PermissionSettled k r) = [(now s, GetUserMedia)]).
Proof.
  split; [|split; [|split]].
  - intros s Hr Hact s1 s2.
    pose proof (wf_tasks_fresh _ (reachable_wf _ Hr)) as Hfresh.
    set (s0 := emit QueryPermission (applyState RequestingMic s)).
    assert (Hs1 : s1 = suspend AwaitPermission s0).
    { subst s1 s0. simpl. unfold handleMicClick. rewrite Hact. reflexivity. }
    change (next_task s) with (next_task s0) in s2.
    subst s2. rewrite Hs1. unfold step.
    rewrite (find_suspended AwaitPermission s0 Hfresh),
            (drop_suspended AwaitPermission s0 Hfresh).
    simpl. rewrite <- !app_assoc. repeat split.
  - intros s k Hf s'. subst s'.
    assert (Hs : step s (PermissionSettled k (Some Denied)) =
                 applyState MicDenied (drop_task k s))
      by (unfold step; rewrite Hf; reflexivity).
    split; [rewrite Hs; reflexivity|].
    split; [rewrite Hs; reflexivity|].
    apply emitted_eq. rewrite Hs. reflexivity.
  - exact GetUserMedia_only_on_prompt.
  - intros s k r Hf Hp. apply emitted_eq. unfold step. rewrite Hf.
    unfold handleMicClick_permission. rewrite Hp. reflexivity.
Qed.

(** ** Start sequence *)

Lemma getOrCreateUserId_frame s :
  let s' := snd (getOrCreateUserId s) in
  vapi s' = vapi s /\ isCallActive s' = isCallActive s /\
  pendingText s' = pendingText s /\ agentSpeakingTimer s' = agentSpeakingTimer s /\
  ui s' = ui s /\ now s' = now s /\ timers s' = timers s /\
  next_timer s' = next_timer s /\ tasks s' = tasks s /\
  next_task s' = next_task s /\ next_sid s' = next_sid s.
Proof.
  unfold getOrCreateUserId, generateUserId.
  destruct (getItem USER_ID_KEY (localStorage s)) as [u|];
    [destruct (String.eqb u "")|]; simpl; repeat split.
Qed.

Lemma startCall_suspends s :
  Forall (fun p => fst p < next_task s) (tasks s) ->
  find_task (next_task s) (tasks (startCall s)) =
  Some (AwaitSession (fst (getOrCreateUserId (applyState Connecting s)))).
Proof.
  intros Hfresh. unfold startCall.
  pose proof (getOrCreateUserId_frame (applyState Connecting s)) as Hframe.
  destruct (getOrCreateUserId (applyState Connecting s)) as [userId s'].
  simpl in Hframe.
  destruct Hframe as (_ & _ & _ & _ & _ & _ & _ & _ & Ht & Hn & _).
  unfold suspend. simpl. rewrite Ht, Hn. apply find_new_task, Hfresh.
Qed.

(** C6. [startCall] suspends on the pre-registration request carrying the
    identity returned by [getOrCreateUserId].  When that request fails the
    continuation only logs a warning, constructs the instance and starts it
    with the assistant id and [variableValues] holding the identity and no
    [sessionToken]; the state shown, the call flag and the pending text are
    left as they were.  Whether the instance opens or not, the state shown
    afterwards is the one a successful pre-registration would have led to. *)
Theorem preregistration_failure_is_swallowed :
  (forall s : State,
     reachable s ->
     find_task (next_task s) (tasks (startCall s)) =
     Some (AwaitSession (fst (getOrCreateUserId (applyState Connecting s))))) /\
  (forall (s : State) (k : nat) (userId : string),
     find_task k (tasks s) = Some (AwaitSession userId) ->
     let s' := step s (SessionSettled k None true) in
     emitted s (SessionSettled k None true) =
       [(now s, ConsoleWarn);
        (now s, VapiNew (next_sid s));
        (now s, VapiStart (next_sid s) ASSISTANT_ID userId None)] /\
     ui s' = ui s /\
     isCallActive s' = isCallActive s /\
     pendingText s' = pendingText s /\
     vapi s' = Some (next_sid s)) /\
  (forall (s : State) (k : nat) (r : option JsValue) (opens : bool),
     ui (step s (SessionSettled k None opens)) =
     ui (step s (SessionSettled k r opens))).
Proof.
  split; [|split].
  - intros s Hr. apply startCall_suspends, (wf_tasks_fresh _ (reachable_wf _ Hr)).
  - intros s k userId Hf s'. subst s'. split.
    + apply emitted_eq. unfold step. rewrite Hf. simpl.
      rewrite <- !app_assoc. reflexivity.
    + unfold step. rewrite Hf. simpl. repeat split.
  - intros s k r opens. unfold step.
    destruct (find_task k (tasks s)) as [[| |userId| |]|]; try reflexivity.
    destruct r, opens; reflexivity.
Qed.

(** C5. When the construction of the instance throws, or [vapi.start]
    rejects, the [catch] block of [startCall] shows [call-error], sets
    [vapi] to [null] and marks the call inactive.  Among the operations
    awaited on the way to a call (permission query, microphone request,
    pre-registration, construction and start of the instance, and the auth
    check) no other outcome brings the controller into [call-error]. *)
Theorem open_failure_goes_to_call_error :
  (forall (s : State) (k : nat) (userId : string) (r : option JsValue),
     find_task k (tasks s) = Some (AwaitSession userId) ->
     let s' := step s (SessionSettled k r false) in
     ui s' = CallError /\ vapi s' = None /\ isCallActive s' = false) /\
  (forall (s : State) (k sid : nat),
     find_task k (tasks s) = Some (AwaitStart sid) ->
     let s' := step s (StartSettled k false) in
     ui s' = CallError /\ vapi s' = None /\ isCallActive s' = false) /\
  (forall (s : State) (e : Event),
     is_settlement e = true ->
     ui (step s e) = CallError ->
     ui s = CallError \/
     (exists k r userId,
        e = SessionSettled k r false /\
        find_task k (tasks s) = Some (AwaitSession userId)) \/
     (exists k sid,
        e = StartSettled k false /\
        find_task k (tasks s) = Some (AwaitStart sid))).
Proof.
  split; [|split].
  - intros s k userId r Hf s'. subst s'. unfold step. rewrite Hf.
    destruct r; simpl; repeat split.
  - intros s k sid Hf s'. subst s'. unfold step. rewrite Hf.
    simpl. repeat split.
  - intros s e He Hui.
    destruct e; try discriminate He; clear He; revert Hui; unfold step.
    + destruct (find_task k (tasks s)) as [[| | | |]|]; auto.
      unfold handleMicClick_permission.
      destruct (getMicPermissionState r); unfold_handlers; simpl; split_cases;
        intros Hui; first [discriminate Hui | auto].
    + destruct (find_task k (tasks s)) as [[| | | |]|]; auto.
      destruct granted; unfold_handlers; simpl; split_cases; intros Hui; first [discriminate Hui | auto].
    + destruct (find_task k (tasks s)) as [[| |userId| |]|] eqn:Hf; auto.
      destruct opens.
      * destruct r; simpl; auto.
      * intros _. right; left. exists k, r, userId. split; [reflexivity|exact Hf].
    + destruct (find_task k (tasks s)) as [[| | |sid|]|] eqn:Hf; auto.
      destruct ok.
      * simpl; auto.
      * intros _. right; right. exists k, sid. split; [reflexivity|exact Hf].
    + destruct (find_task k (tasks s)) as [[| | | |]|]; auto.
      destruct r as [[|]|]; simpl; auto.
Qed.

(** Projections through field updates, without touching list functions. *)
Ltac norm :=
  cbn [vapi isCallActive pendingText agentSpeakingTimer ui localStorage
       uuids_drawn now timers next_timer tasks next_task next_sid log
       set_vapi set_isCallActive set_pendingText set_agentSpeakingTimer set_ui
       set_localStorage set_uuids_drawn set_now set_timers set_next_timer
       set_tasks set_next_task set_next_sid set_log
       emit suspend applyState setTimeout clearTimeout fst snd
       t_id t_due t_action] in *.

(** ** Timers *)

Lemma find_timer_filter_other id h l :
  h <> id ->
  find_timer id (filter (fun t => negb (Pos.eqb (t_id t) h)) l) = find_timer id l.
Proof.
  intros Hne. induction l as [|t l IH]; simpl; [reflexivity|].
  destruct (Pos.eqb_spec (t_id t) h) as [E|E]; simpl.
  - destruct (Pos.eqb_spec (t_id t) id) as [E'|E']; [congruence|exact IH].
  - destruct (Pos.eqb (t_id t) id); [reflexivity|exact IH].
Qed.

Lemma find_new_timer t l :
  Forall (fun t' => (t_id t' < t_id t)%positive) l ->
  find_timer (t_id t) (l ++ [t]) = Some t.
Proof.
  intros H. rewrite find_timer_app, find_timer_fresh by exact H.
  simpl. rewrite Pos.eqb_refl. reflexivity.
Qed.

Lemma on_call_start_flush s text :
  pendingText s = Some text ->
  text <> "" ->
  on_call_start s =
  snd (setTimeout (FlushText text) SETTLE_DELAY
         (set_pendingText None (applyState Listening (set_isCallActive true s)))).
Proof.
  intros Hp Hne. unfold on_call_start.
  change (pendingText (applyState Listening (set_isCallActive true s)))
    with (pendingText s).
  rewrite Hp. destruct (String.eqb_spec text ""); [contradiction|reflexivity].
Qed.

Lemma sendTextToVapi_noop s text :
  vapi s = None \/ isCallActive s = false ->
  sendTextToVapi text s = s.
Proof.
  intros [H|H]; unfold sendTextToVapi; rewrite H; [reflexivity|].
  destruct (vapi s); reflexivity.
Qed.

(** ** Pending text *)

Lemma getOrCreateUserId_pendingText s :
  pendingText (snd (getOrCreateUserId s)) = pendingText s.
Proof. apply (getOrCreateUserId_frame s). Qed.

Lemma startCall_pendingText s : pendingText (startCall s) = pendingText s.
Proof.
  unfold startCall.
  pose proof (getOrCreateUserId_pendingText (applyState Connecting s)) as H.
  destruct (getOrCreateUserId (applyState Connecting s)) as [u s'].
  simpl in *. exact H.
Qed.

Lemma pendingText_step s e :
  pendingText (step s e) = pendingText s \/
  (exists sid, e = Transport sid CallStart /\ pendingText (step s e) = None) \/
  (exists raw, e = TextSubmit raw /\ trim raw <> "" /\
               pendingText (step s e) = Some (trim raw)).
Proof.
  destruct e as [| |raw|k r|k granted|k r opens|k ok|k r|sid te|id|dt].
  1-2: left; unfold step, handleMicClick, stopCall;
       destruct (isCallActive s); [destruct (vapi s)|]; reflexivity.
  - unfold step, handleTextSend.
    destruct (String.eqb_spec (trim raw) "") as [E|E]; [left; reflexivity|].
    destruct (isCallActive s) eqn:Ha.
    + left. unfold sendTextToVapi. rewrite Ha. destruct (vapi s); reflexivity.
    + right; right. exists raw. repeat split; [exact E|].
      rewrite startCall_pendingText. reflexivity.
  - left. unfold step. destruct (find_task k (tasks s)) as [[| | | |]|]; try reflexivity.
    unfold handleMicClick_permission.
    destruct (getMicPermissionState r); try reflexivity.
    rewrite startCall_pendingText. reflexivity.
  - left. unfold step. destruct (find_task k (tasks s)) as [[| | | |]|]; try reflexivity.
    unfold handleMicClick_mic. destruct granted; try reflexivity.
    rewrite startCall_pendingText. reflexivity.
  - left. unfold step. destruct (find_task k (tasks s)) as [[| | | |]|]; try reflexivity.
    destruct r, opens; reflexivity.
  - left. unfold step. destruct (find_task k (tasks s)) as [[| | | |]|]; try reflexivity.
    destruct ok; reflexivity.
  - left. unfold step. destruct (find_task k (tasks s)) as [[| | | |]|]; try reflexivity.
    destruct r as [[|]|]; reflexivity.
  - unfold step. destruct (Nat.ltb sid (next_sid s)); [|left; reflexivity].
    destruct te as [| | | |m|].
    + unfold dispatch, on_call_start.
      change (pendingText (applyState Listening (set_isCallActive true s)))
        with (pendingText s).
      destruct (pendingText s) as [t|] eqn:Hp; [|left; exact Hp].
      destruct (String.eqb t ""); [left; exact Hp|].
      right; left. exists sid. split; reflexivity.
    + left. unfold dispatch, on_call_end, cancel_agentSpeakingTimer. norm.
      destruct (agentSpeakingTimer s); reflexivity.
    + left. unfold dispatch, on_speech_start. destruct (isCallActive s); reflexivity.
    + left. unfold dispatch, on_speech_end. destruct (isCallActive s); reflexivity.
    + left. unfold dispatch, on_message, cancel_agentSpeakingTimer.
      destruct (_ && _ && _); [|reflexivity].
      destruct (String.eqb (msg_status m) "started"); [|reflexivity].
      destruct (agentSpeakingTimer s); reflexivity.
    + left. reflexivity.
  - left. unfold step. destruct (find_timer id (timers s)) as [t|]; [|reflexivity].
    destruct (Nat.leb (t_due t) (now s)); [|reflexivity].
    destruct (t_action t); unfold run_timer, sendTextToVapi; norm.
    + destruct (vapi s); [destruct (isCallActive s)|]; reflexivity.
    + destruct (isCallActive s); reflexivity.
  - left. reflexivity.
Qed.

Lemma pendingText_run s evs :
  Forall (fun e => is_call_start e = false /\ is_text_submit e = false) evs ->
  pendingText (run s evs) = pendingText s.
Proof.
  intros H. revert s. induction H as [|e evs [H1 H2] _ IH]; intros s; simpl.
  - reflexivity.
  - rewrite IH. destruct (pendingText_step s e) as [E|[(sid & -> & _)|(raw & -> & _)]];
      [exact E|discriminate H1|discriminate H2].
Qed.

Lemma handleTextSend_queues s raw :
  isCallActive s = false ->
  trim raw <> "" ->
  step s (TextSubmit raw) = startCall (set_pendingText (Some (trim raw)) s).
Proof.
  intros Ha Hne. unfold step, handleTextSend. rewrite Ha.
  destruct (String.eqb_spec (trim raw) ""); [contradiction|reflexivity].
Qed.

Lemma session_open_failure_ui s k userId r :
  find_task k (tasks s) = Some (AwaitSession userId) ->
  ui (step s (SessionSettled k r false)) = CallError.
Proof. intros Hf. unfold step. rewrite Hf. destruct r; reflexivity. Qed.

(** ** Agent-speech debounce *)

Lemma run_advance s waits :
  run s (map Advance waits) = set_now (now s + list_sum waits) s.
Proof.
  revert s. induction waits as [|d waits IH]; intros s; simpl.
  - rewrite Nat.add_0_r. destruct s; reflexivity.
  - rewrite IH. unfold set_now. simpl. rewrite Nat.add_assoc. reflexivity.
Qed.

Lemma on_message_stopped s :
  isCallActive s = true ->
  on_message stopped_update s =
  set_agentSpeakingTimer (Some (next_timer s))
    (snd (setTimeout BackToListening DEBOUNCE_DELAY s)).
Proof. intros Ha. unfold on_message. simpl. rewrite Ha. reflexivity. Qed.

Lemma on_message_started s :
  isCallActive s = true ->
  on_message started_update s = applyState AgentSpeaking (cancel_agentSpeakingTimer s).
Proof. intros Ha. unfold on_message. simpl. rewrite Ha. reflexivity. Qed.

(** A handle that is no longer pending, and was handed out already, is
    never pending again. *)
Lemma cancelled_stays_cancelled id s e :
  (id < next_timer s)%positive ->
  find_timer id (timers s) = None ->
  (id < next_timer (step s e))%positive /\
  find_timer id (timers (step s e)) = None.
Proof.
  intros Hlt Hnone.
  assert (Hnew : forall d a,
    find_timer id (timers s ++ [mkTimer (next_timer s) d a]) = None).
  { intros d a. rewrite find_timer_app, Hnone. simpl.
    destruct (Pos.eqb_spec (next_timer s) id); [lia|reflexivity]. }
  destruct e; unfold_handlers; simpl; split_cases;
    (split; [try assumption; lia|]);
    first [ assumption
          | apply Hnew
          | apply find_timer_none_filter; assumption ].
Qed.

Lemma cancelled_for_good id s evs :
  (id < next_timer s)%positive ->
  find_timer id (timers s) = None ->
  find_timer id (timers (run s evs)) = None.
Proof.
  revert s. induction evs as [|e evs IH]; intros s Hlt Hnone; simpl; [exact Hnone|].
  destruct (cancelled_stays_cancelled id s e Hlt Hnone) as [Hlt' Hnone'].
  apply IH; assumption.
Qed.

Lemma startCall_quiet s :
  isCallActive (startCall s) = isCallActive s /\
  agentSpeakingTimer (startCall s) = agentSpeakingTimer s /\
  timers (startCall s) = timers s /\
  next_timer (startCall s) = next_timer s /\
  next_sid (startCall s) = next_sid s /\
  ui (startCall s) = Connecting /\
  exists l, log (startCall s) = log s ++ l /\ filter is_listening_render l = [].
Proof.
  unfold startCall, getOrCreateUserId, generateUserId.
  destruct (getItem USER_ID_KEY (localStorage (applyState Connecting s))) as [u|];
    [destruct (String.eqb u "")|]; norm; repeat split;
    rewrite <- ?app_assoc; eexists; split; reflexivity.
Qed.

Lemma undisturbed_refl s : isCallActive s = true -> undisturbed s s.
Proof.
  intros Ha. constructor; auto. exists []. split; [symmetry; apply app_nil_r|reflexivity].
Qed.

Lemma undisturbed_startCall s s0 l0 :
  isCallActive s = true ->
  isCallActive s0 = true ->
  agentSpeakingTimer s0 = agentSpeakingTimer s ->
  timers s0 = timers s ->
  next_timer s0 = next_timer s ->
  next_sid s0 = next_sid s ->
  log s0 = log s ++ l0 ->
  filter is_listening_render l0 = [] ->
  undisturbed s (startCall s0).
Proof.
  intros Ha Ha0 Hh Ht Hn Hsid Hl Hl0.
  destruct (startCall_quiet s0) as (E1 & E2 & E3 & E4 & E5 & E6 & l & E7 & E8).
  constructor; try congruence.
  - rewrite E5, Hsid. apply Nat.le_refl.
  - exists (l0 ++ l). split.
    + rewrite E7, Hl, app_assoc. reflexivity.
    + rewrite filter_app, Hl0, E8. reflexivity.
Qed.

Lemma quiet_step s e :
  quiet e = true ->
  isCallActive s = true ->
  undisturbed s (step s e).
Proof.
  intros Hq Ha.
  destruct e as [| |raw|k r|k granted|k r opens|k ok|k r|sid te|id|dt];
    try discriminate Hq.
  - unfold step, handleMicClick, stopCall. rewrite Ha.
    destruct (vapi s); [|apply undisturbed_refl; exact Ha].
    constructor; auto. eexists. split; reflexivity.
  - unfold step, handleMicClick, stopCall. rewrite Ha.
    destruct (vapi s); [|apply undisturbed_refl; exact Ha].
    constructor; auto. eexists. split; reflexivity.
  - unfold step, handleTextSend, sendTextToVapi. rewrite Ha.
    destruct (String.eqb (trim raw) ""); [apply undisturbed_refl; exact Ha|].
    destruct (vapi s); [|apply undisturbed_refl; exact Ha].
    constructor; auto. eexists. split; reflexivity.
  - unfold step.
    destruct (find_task k (tasks s)) as [[| | | |]|];
      try (apply undisturbed_refl; exact Ha).
    unfold handleMicClick_permission. destruct (getMicPermissionState r).
    + apply (undisturbed_startCall s _ []); auto. symmetry. apply app_nil_r.
    + constructor; auto; [intros _; discriminate|].
      eexists. split; reflexivity.
    + constructor; auto. eexists. split; reflexivity.
  - unfold step.
    destruct (find_task k (tasks s)) as [[| | | |]|];
      try (apply undisturbed_refl; exact Ha).
    unfold handleMicClick_mic. destruct granted.
    + apply (undisturbed_startCall s _ [(now s, StopTracks)]); auto.
    + constructor; auto; [intros _; discriminate|].
      eexists. split; reflexivity.
  - simpl in Hq. subst opens. unfold step.
    destruct (find_task k (tasks s)) as [[| |userId| |]|];
      try (apply undisturbed_refl; exact Ha).
    unfold startCall_open.
    destruct r; norm; constructor; norm; auto;
      rewrite <- ?app_assoc; eexists; split; reflexivity.
  - simpl in Hq. subst ok. unfold step.
    destruct (find_task k (tasks s)) as [[| | | |]|];
      try (apply undisturbed_refl; exact Ha).
    constructor; auto. exists []. split; [symmetry; apply app_nil_r|reflexivity].
  - unfold step.
    destruct (find_task k (tasks s)) as [[| | | |]|];
      try (apply undisturbed_refl; exact Ha).
    destruct r as [[|]|]; constructor; auto;
      first [ exists []; split; [symmetry; apply app_nil_r|reflexivity]
            | eexists; split; reflexivity ].
  - unfold step. destruct (Nat.ltb sid (next_sid s));
      [|apply undisturbed_refl; exact Ha].
    destruct te as [| | | |m|]; try discriminate Hq.
    + unfold dispatch, on_speech_start. rewrite Ha.
      constructor; auto; [intros _; discriminate|].
      eexists. split; reflexivity.
    + simpl in Hq. apply negb_true_iff in Hq. unfold is_assistant_update in Hq.
      unfold dispatch, on_message. rewrite Ha.
      destruct (String.eqb (msg_type m) "speech-update");
        destruct (String.eqb (msg_role m) "assistant");
        try discriminate Hq; apply undisturbed_refl; exact Ha.
  - constructor; auto. exists []. split; [symmetry; apply app_nil_r|reflexivity].
Qed.

Lemma undisturbed_trans s1 s2 s3 :
  undisturbed s1 s2 -> undisturbed s2 s3 -> undisturbed s1 s3.
Proof.
  intros [A1 A2 A3 A4 A5 A6 (l & A7 & A8)] [B1 B2 B3 B4 B5 B6 (l' & B7 & B8)].
  constructor; try congruence; auto.
  - lia.
  - exists (l ++ l'). split.
    + rewrite B7, A7, app_assoc. reflexivity.
    + rewrite filter_app, A8, B8. reflexivity.
Qed.

Lemma quiet_run mid :
  Forall (fun e => quiet e = true) mid ->
  forall s, isCallActive s = true -> undisturbed s (run s mid).
Proof.
  induction 1 as [|e mid He _ IH]; intros s Ha; simpl.
  - apply undisturbed_refl. exact Ha.
  - pose proof (quiet_step s e He Ha) as H1.
    apply (undisturbed_trans _ _ _ H1). apply IH. exact (und_active _ _ H1).
Qed.

(** ** Text queued before the call is live *)

Lemma find_timer_In id l t : find_timer id l = Some t -> In t l /\ t_id t = id.
Proof.
  induction l as [|t' l IH]; simpl; [discriminate|].
  destruct (Pos.eqb_spec (t_id t') id) as [E|E].
  - intros H. injection H as <-. auto.
  - intros H. destruct (IH H). auto.
Qed.

Lemma filter_filter_comm {A} (f g : A -> bool) l :
  filter f (filter g l) = filter g (filter f l).
Proof.
  induction l as [|x l IH]; simpl; [reflexivity|].
  destruct (f x) eqn:Ef, (g x) eqn:Eg; simpl; rewrite ?Ef, ?Eg, IH; reflexivity.
Qed.

Lemma filter_true {A} (l : list A) : filter (fun _ => true) l = l.
Proof. induction l; simpl; congruence. Qed.

Lemma startCall_flush_frame s :
  isCallActive (startCall s) = isCallActive s /\
  timers (startCall s) = timers s /\
  sends (skipn (List.length (log s)) (log (startCall s))) = [] /\
  filter is_listening_render (skipn (List.length (log s)) (log (startCall s))) = [] /\
  filter is_permission_effect (skipn (List.length (log s)) (log (startCall s))) = [].
Proof.
  unfold startCall, getOrCreateUserId, generateUserId.
  destruct (getItem USER_ID_KEY (localStorage (applyState Connecting s))) as [u|];
    [destruct (String.eqb u "")|]; norm;
    rewrite <- ?app_assoc, skipn_app, skipn_all, Nat.sub_diag; repeat split.
Qed.

Lemma startCall_log s :
  exists l,
    log (startCall s) = log s ++ l /\
    sends l = [] /\
    filter is_listening_render l = [] /\
    filter is_permission_effect l = [].
Proof.
  exists (skipn (List.length (log s)) (log (startCall s))).
  pose proof (startCall_flush_frame s) as (_ & _ & H1 & H2 & H3).
  repeat split; try assumption.
  unfold startCall, getOrCreateUserId, generateUserId.
  destruct (getItem USER_ID_KEY (localStorage (applyState Connecting s))) as [u|];
    [destruct (String.eqb u "")|]; norm;
    rewrite <- ?app_assoc, skipn_app, skipn_all, Nat.sub_diag; reflexivity.
Qed.

Lemma flush_timers_filter g s s' :
  timers s' = filter g (timers s) ->
  flush_timers s' = filter g (flush_timers s).
Proof.
  intros H. unfold flush_timers. rewrite H. apply filter_filter_comm.
Qed.

Lemma flush_timers_same s s' :
  timers s' = timers s ->
  exists f, flush_timers s' = filter f (flush_timers s).
Proof.
  intros H. exists (fun _ => true). unfold flush_timers.
  rewrite H, filter_true. reflexivity.
Qed.

Lemma flush_timers_debounce s s' d :
  timers s' = timers s ++ [mkTimer (next_timer s) d BackToListening] ->
  exists f, flush_timers s' = filter f (flush_timers s).
Proof.
  intros H. exists (fun _ => true). unfold flush_timers.
  rewrite H, filter_true, filter_app. simpl. apply app_nil_r.
Qed.

Lemma fe_other_intro s e l :
  log (step s e) = log s ++ l ->
  pendingText (step s e) = pendingText s ->
  (exists f, flush_timers (step s e) = filter f (flush_timers s)) ->
  sends l = [] ->
  (isCallActive s = false ->
   isCallActive (step s e) = false /\ filter is_listening_render l = []) ->
  flush_effect s e.
Proof.
  intros Hl Hp Hf Hs Ha. rewrite <- (emitted_eq _ _ _ Hl) in Hs, Ha.
  apply fe_other; assumption.
Qed.

Lemma fe_unchanged s e : step s e = s -> flush_effect s e.
Proof.
  intros H. apply (fe_other_intro s e []); rewrite ?H.
  - symmetry. apply app_nil_r.
  - reflexivity.
  - apply flush_timers_same. reflexivity.
  - reflexivity.
  - intros Ha. split; [exact Ha|reflexivity].
Qed.

Lemma fe_startCall s e s0 l0 :
  step s e = startCall s0 ->
  log s0 = log s ++ l0 ->
  sends l0 = [] ->
  filter is_listening_render l0 = [] ->
  pendingText s0 = pendingText s ->
  timers s0 = timers s ->
  isCallActive s0 = isCallActive s ->
  flush_effect s e.
Proof.
  intros Hs Hl Hs0 Hl0 Hp Ht Ha.
  destruct (startCall_log s0) as (l & Hlog & H1 & H2 & _).
  pose proof (startCall_flush_frame s0) as (Hact & Htim & _).
  apply (fe_other_intro s e (l0 ++ l)); rewrite ?Hs.
  - rewrite Hlog, Hl, app_assoc. reflexivity.
  - rewrite startCall_pendingText. exact Hp.
  - apply flush_timers_same. rewrite Htim. exact Ht.
  - unfold sends in *. rewrite filter_app, Hs0, H1. reflexivity.
  - intros Hina. split; [rewrite Hact, Ha; exact Hina|].
    rewrite filter_app, Hl0, H2. reflexivity.
Qed.

Lemma step_flush_effect s e : is_text_submit e = false -> flush_effect s e.
Proof.
  intros He.
  destruct e as [| |raw|k r|k granted|k r opens|k ok|k r|sid te|id|dt];
    try discriminate He; clear He.
  - (* MicClick *)
    destruct (isCallActive s) eqn:Ha; [destruct (vapi s) as [v|] eqn:Hv|].
    + apply (fe_other_intro _ _ [(now s, VapiStop v)]);
        unfold step, handleMicClick, stopCall; rewrite ?Ha, ?Hv;
        try reflexivity; [apply flush_timers_same; reflexivity|discriminate].
    + apply fe_unchanged. unfold step, handleMicClick, stopCall.
      rewrite ?Ha, ?Hv. reflexivity.
    + apply (fe_other_intro _ _ [(now s, Render RequestingMic); (now s, QueryPermission)]);
        unfold step, handleMicClick; rewrite ?Ha; norm; rewrite <- ?app_assoc;
        try reflexivity; [apply flush_timers_same; reflexivity|].
      intros _. split; [exact Ha|reflexivity].
  - (* RetryClick *)
    destruct (isCallActive s) eqn:Ha; [destruct (vapi s) as [v|] eqn:Hv|].
    + apply (fe_other_intro _ _ [(now s, VapiStop v)]);
        unfold step, handleMicClick, stopCall; rewrite ?Ha, ?Hv;
        try reflexivity; [apply flush_timers_same; reflexivity|discriminate].
    + apply fe_unchanged. unfold step, handleMicClick, stopCall.
      rewrite ?Ha, ?Hv. reflexivity.
    + apply (fe_other_intro _ _ [(now s, Render RequestingMic); (now s, QueryPermission)]);
        unfold step, handleMicClick; rewrite ?Ha; norm; rewrite <- ?app_assoc;
        try reflexivity; [apply flush_timers_same; reflexivity|].
      intros _. split; [exact Ha|reflexivity].
  - (* PermissionSettled *)
    destruct (find_task k (tasks s)) as [[| | | |]|] eqn:Hf;
      try (apply fe_unchanged; unfold step; rewrite ?Hf; reflexivity).
    destruct (getMicPermissionState r) eqn:Hr.
    + apply (fe_startCall s _ (drop_task k s) []);
        [unfold step, handleMicClick_permission; rewrite ?Hf, ?Hr; reflexivity
        |symmetry; apply app_nil_r|reflexivity..].
    + apply (fe_other_intro _ _ [(now s, Render MicDenied)]);
        unfold step, handleMicClick_permission; rewrite ?Hf, ?Hr;
        try reflexivity; [apply flush_timers_same; reflexivity|].
      intros Ha. split; [exact Ha|reflexivity].
    + apply (fe_other_intro _ _ [(now s, GetUserMedia)]);
        unfold step, handleMicClick_permission; rewrite ?Hf, ?Hr;
        try reflexivity; [apply flush_timers_same; reflexivity|].
      intros Ha. split; [exact Ha|reflexivity].
  - (* MicSettled *)
    destruct (find_task k (tasks s)) as [[| | | |]|] eqn:Hf;
      try (apply fe_unchanged; unfold step; rewrite ?Hf; reflexivity).
    destruct granted.
    + apply (fe_startCall s _ (emit StopTracks (drop_task k s)) [(now s, StopTracks)]);
        [unfold step, handleMicClick_mic; rewrite ?Hf; reflexivity|reflexivity..].
    + apply (fe_other_intro _ _ [(now s, Render MicDenied)]);
        unfold step, handleMicClick_mic; rewrite ?Hf;
        try reflexivity; [apply flush_timers_same; reflexivity|].
      intros Ha. split; [exact Ha|reflexivity].
  - (* SessionSettled *)
    destruct (find_task k (tasks s)) as [[| |userId| |]|] eqn:Hf;
      try (apply fe_unchanged; unfold step; rewrite ?Hf; reflexivity).
    destruct (step_log_app s (SessionSettled k r opens)) as [l Hl].
    apply (fe_other_intro _ _ l); [exact Hl|..];
      revert Hl; unfold step; rewrite ?Hf; destruct r, opens; norm;
      unfold startCall_open, startCall_catch; norm;
      rewrite <- ?app_assoc; intros Hl; apply app_inv_head in Hl; subst l;
      try reflexivity; try (apply flush_timers_same; reflexivity);
      intros Ha; split; try exact Ha; reflexivity.
  - (* StartSettled *)
    destruct (find_task k (tasks s)) as [[| | |sid|]|] eqn:Hf;
      try (apply fe_unchanged; unfold step; rewrite ?Hf; reflexivity).
    destruct ok.
    + apply (fe_other_intro _ _ []); unfold step; rewrite ?Hf; norm;
        try reflexivity; [symmetry; apply app_nil_r
                         |apply flush_timers_same; reflexivity|].
      intros Ha. split; [exact Ha|reflexivity].
    + apply (fe_other_intro _ _ [(now s, ConsoleError); (now s, Render CallError)]);
        unfold step; rewrite ?Hf; unfold startCall_started, startCall_catch; norm;
        rewrite <- ?app_assoc; try reflexivity;
        [apply flush_timers_same; reflexivity|].
      intros Ha. split; reflexivity.
  - (* AuthSettled *)
    destruct (find_task k (tasks s)) as [[| | | |]|] eqn:Hf;
      try (apply fe_unchanged; unfold step; rewrite ?Hf; reflexivity).
    destruct r as [[|]|].
    1,3: apply (fe_other_intro _ _ []); unfold step; rewrite ?Hf; norm;
        try reflexivity; [symmetry; apply app_nil_r
                         |apply flush_timers_same; reflexivity
                         |intros Ha; split; [exact Ha|reflexivity]].
    apply (fe_other_intro _ _ [(now s, Navigate "index.html")]);
      unfold step; rewrite ?Hf; try reflexivity;
      [apply flush_timers_same; reflexivity|].
    intros Ha. split; [exact Ha|reflexivity].
  - (* Transport *)
    destruct (Nat.ltb sid (next_sid s)) eqn:Hsid;
      [|apply fe_unchanged; unfold step; rewrite ?Hsid; reflexivity].
    destruct te as [| | | |m|].
    + (* call-start *)
      destruct (pendingText s) as [text|] eqn:Hp;
        [destruct (String.eqb_spec text "") as [E|E]|].
      * subst text. apply fe_start_plain; [right; exact Hp|..];
          [| |apply emitted_eq]; unfold step, dispatch, on_call_start;
          rewrite ?Hsid; norm; rewrite ?Hp; cbn [String.eqb]; norm;
          rewrite ?Hp; reflexivity.
      * apply (fe_start_flush _ _ text Hp E); [| |apply emitted_eq];
          unfold step, dispatch; rewrite ?Hsid;
          rewrite (on_call_start_flush s text Hp E); norm;
          rewrite <- ?app_assoc; try reflexivity.
        unfold flush_timers. norm. rewrite filter_app. reflexivity.
      * apply fe_start_plain; [left; exact Hp|..];
          [| |apply emitted_eq]; unfold step, dispatch, on_call_start;
          rewrite ?Hsid; norm; rewrite ?Hp; norm; rewrite ?Hp; reflexivity.
    + (* call-end *)
      destruct (agentSpeakingTimer s) as [h|] eqn:Hh.
      * apply (fe_other_intro _ _ [(now s, ClearTimeout h); (now s, Render CallEnded)]);
          unfold step, dispatch, on_call_end, cancel_agentSpeakingTimer;
          rewrite ?Hsid; norm; rewrite ?Hh; norm; rewrite <- ?app_assoc;
          try reflexivity.
        -- eexists. apply flush_timers_filter. reflexivity.
        -- intros _. split; reflexivity.
      * apply (fe_other_intro _ _ [(now s, Render CallEnded)]);
          unfold step, dispatch, on_call_end, cancel_agentSpeakingTimer;
          rewrite ?Hsid; norm; rewrite ?Hh; norm; try reflexivity.
        -- apply flush_timers_same. reflexivity.
        -- intros _. split; reflexivity.
    + (* speech-start *)
      destruct (isCallActive s) eqn:Ha.
      * apply (fe_other_intro _ _ [(now s, Render UserSpeaking)]);
          unfold step, dispatch, on_speech_start; rewrite ?Hsid, ?Ha;
          try reflexivity; [apply flush_timers_same; reflexivity|discriminate].
      * apply fe_unchanged. unfold step, dispatch, on_speech_start.
        rewrite ?Hsid, ?Ha. reflexivity.
    + (* speech-end *)
      destruct (isCallActive s) eqn:Ha.
      * apply (fe_other_intro _ _ [(now s, Render Listening)]);
          unfold step, dispatch, on_speech_end; rewrite ?Hsid, ?Ha;
          try reflexivity; [apply flush_timers_same; reflexivity|discriminate].
      * apply fe_unchanged. unfold step, dispatch, on_speech_end.
        rewrite ?Hsid, ?Ha. reflexivity.
    + (* message *)
      destruct (isCallActive s) eqn:Ha.
      * destruct (String.eqb (msg_type m) "speech-update"
                  && true && String.eqb (msg_role m) "assistant") eqn:Hm;
          [|apply fe_unchanged; unfold step, dispatch, on_message;
            rewrite ?Hsid, ?Ha, ?Hm; reflexivity].
        destruct (String.eqb (msg_status m) "started") eqn:Hst.
        -- destruct (agentSpeakingTimer s) as [h|] eqn:Hh.
           ++ apply (fe_other_intro _ _ [(now s, ClearTimeout h); (now s, Render AgentSpeaking)]);
                unfold step, dispatch, on_message, cancel_agentSpeakingTimer;
                rewrite ?Hsid, ?Ha, ?Hm, ?Hst, ?Hh; norm; rewrite <- ?app_assoc;
                try reflexivity; [|discriminate].
              eexists. apply flush_timers_filter. reflexivity.
           ++ apply (fe_other_intro _ _ [(now s, Render AgentSpeaking)]);
                unfold step, dispatch, on_message, cancel_agentSpeakingTimer;
                rewrite ?Hsid, ?Ha, ?Hm, ?Hst, ?Hh; norm;
                try reflexivity; [|discriminate].
              apply flush_timers_same. reflexivity.
        -- apply (fe_other_intro _ _ [(now s, SetTimeout (next_timer s) DEBOUNCE_DELAY)]);
             unfold step, dispatch, on_message;
             rewrite ?Hsid, ?Ha, ?Hm, ?Hst; norm;
             try reflexivity; [|discriminate].
           eapply flush_timers_debounce. reflexivity.
      * apply fe_unchanged. unfold step, dispatch, on_message.
        rewrite Hsid, Ha, andb_false_r. reflexivity.
    + (* error *)
      apply (fe_other_intro _ _ [(now s, ConsoleError); (now s, Render CallError)]);
        unfold step, dispatch, on_error; rewrite ?Hsid; norm;
        rewrite <- ?app_assoc; try reflexivity.
      * apply flush_timers_same. reflexivity.
      * intros _. split; reflexivity.
  - (* TimerFire *)
    destruct (find_timer id (timers s)) as [t|] eqn:Hf;
      [|apply fe_unchanged; unfold step; rewrite ?Hf; reflexivity].
    destruct (Nat.leb (t_due t) (now s)) eqn:Hdue;
      [|apply fe_unchanged; unfold step; rewrite ?Hf, ?Hdue; reflexivity].
    destruct (find_timer_In _ _ _ Hf) as [Hin Hid].
    destruct (t_action t) as [text|] eqn:Hact.
    + apply (fe_fire s _ id t text eq_refl Hin Hid Hact);
        [apply Nat.leb_le; exact Hdue|..];
        unfold step; rewrite ?Hf, ?Hdue, ?Hact; unfold run_timer, sendTextToVapi; norm.
      * destruct (vapi s); [destruct (isCallActive s)|]; reflexivity.
      * destruct (vapi s); [destruct (isCallActive s)|];
          apply flush_timers_filter; reflexivity.
      * destruct (vapi s) as [v|] eqn:Hv; [destruct (isCallActive s) eqn:Ha|].
        -- right. exists v. apply emitted_eq. unfold step.
           rewrite ?Hf, ?Hdue, ?Hact. unfold run_timer, sendTextToVapi. norm.
           rewrite ?Hv, ?Ha. reflexivity.
        -- left. apply emitted_eq. unfold step.
           rewrite ?Hf, ?Hdue, ?Hact. unfold run_timer, sendTextToVapi. norm.
           rewrite ?Hv, ?Ha. symmetry. apply app_nil_r.
        -- left. apply emitted_eq. unfold step.
           rewrite ?Hf, ?Hdue, ?Hact. unfold run_timer, sendTextToVapi. norm.
           rewrite ?Hv. symmetry. apply app_nil_r.
    + destruct (isCallActive s) eqn:Ha.
      * apply (fe_other_intro _ _ [(now s, Render Listening)]);
          unfold step; rewrite ?Hf, ?Hdue, ?Hact; unfold run_timer; norm;
          rewrite ?Ha; try reflexivity; [|discriminate].
        eexists. apply flush_timers_filter. reflexivity.
      * apply (fe_other_intro _ _ []);
          unfold step; rewrite ?Hf, ?Hdue, ?Hact; unfold run_timer; norm;
          rewrite ?Ha; try reflexivity.
        -- symmetry. apply app_nil_r.
        -- eexists. apply flush_timers_filter. reflexivity.
        -- intros _. split; [exact Ha|reflexivity].
  - (* Advance *)
    apply (fe_other_intro _ _ []); try reflexivity.
    + symmetry. apply app_nil_r.
    + apply flush_timers_same. reflexivity.
    + intros Ha. split; [exact Ha|reflexivity].
Qed.

Lemma in_flush_timers s t text :
  In t (timers s) -> t_action t = FlushText text -> In t (flush_timers s).
Proof.
  intros Hin Hact. apply filter_In. split; [exact Hin|].
  unfold is_flush. rewrite Hact. reflexivity.
Qed.

Lemma startCall_frame s :
  let s' := startCall s in
  vapi s' = vapi s /\ isCallActive s' = isCallActive s /\
  pendingText s' = pendingText s /\ agentSpeakingTimer s' = agentSpeakingTimer s /\
  ui s' = Connecting /\ now s' = now s /\ timers s' = timers s /\
  next_timer s' = next_timer s /\ next_sid s' = next_sid s.
Proof.
  unfold startCall, getOrCreateUserId, generateUserId.
  destruct (getItem USER_ID_KEY (localStorage (applyState Connecting s))) as [u|];
    [destruct (String.eqb u "")|]; norm; repeat split.
Qed.

Lemma emitted_unchanged s e : step s e = s -> emitted s e = [].
Proof. intros H. apply emitted_eq. rewrite H. symmetry. apply app_nil_r. Qed.


(** ** One call session at a time *)

Lemma find_task_In k l a : find_task k l = Some a -> In (k, a) l.
Proof.
  induction l as [|[k' a'] l IH]; simpl; [discriminate|].
  destruct (Nat.eqb_spec k k') as [E|E].
  - intros H. injection H as <-. subst. auto.
  - auto.
Qed.

Lemma find_prestart s k a :
  find_task k (tasks s) = Some a ->
  prestart (k, a) = true ->
  In (k, a) (prestart_tasks s).
Proof.
  intros Hf Hp. apply filter_In. split; [apply find_task_In|]; assumption.
Qed.

Lemma prestart_drop k s :
  prestart_tasks (drop_task k s) =
  filter (fun p => negb (Nat.eqb (fst p) k)) (prestart_tasks s).
Proof. unfold prestart_tasks, drop_task. norm. apply filter_filter_comm. Qed.

Lemma remove_single sid : remove Nat.eq_dec sid [sid] = [].
Proof. simpl. destruct (Nat.eq_dec sid sid); [reflexivity|contradiction]. Qed.

Lemma startCall_prestart s :
  exists userId,
    prestart_tasks (startCall s) =
    prestart_tasks s ++ [(next_task s, AwaitSession userId)].
Proof.
  unfold startCall, getOrCreateUserId, generateUserId.
  destruct (getItem USER_ID_KEY (localStorage (applyState Connecting s))) as [u|];
    [destruct (String.eqb u "")|]; eexists; unfold prestart_tasks; norm;
    rewrite filter_app; reflexivity.
Qed.

Lemma os_sub s s' live g :
  isCallActive s' = isCallActive s ->
  ui s' = ui s ->
  vapi s' = vapi s ->
  prestart_tasks s' = filter g (prestart_tasks s) ->
  one_session s live ->
  one_session s' live.
Proof.
  intros Ha Hu Hv Hp
    [Hl Hpre Hact|p Hl Hpre Hact Hlock|sid Hl Hvs Hpre Hact Hlock
    |sid Hl Hvs Hpre Hact Hui];
    rewrite Hpre in Hp; simpl in Hp.
  - apply os_rest; congruence.
  - destruct (g p).
    + apply (os_starting _ _ p); congruence.
    + apply os_rest; congruence.
  - apply (os_opening _ _ sid); congruence.
  - apply (os_in_call _ _ sid); congruence.
Qed.

Lemma os_same s s' live :
  isCallActive s' = isCallActive s ->
  ui s' = ui s ->
  vapi s' = vapi s ->
  prestart_tasks s' = prestart_tasks s ->
  one_session s live ->
  one_session s' live.
Proof.
  intros Ha Hu Hv Hp. apply (os_sub s s' live (fun _ => true)); try assumption.
  rewrite filter_true. exact Hp.
Qed.

(** A start attempt begins: only possible at rest. *)
Lemma os_begin s s' live p :
  one_session s live ->
  isCallActive s = false ->
  micBtn_disabled (ui s) = false ->
  isCallActive s' = false ->
  micBtn_disabled (ui s') = true ->
  prestart_tasks s' = prestart_tasks s ++ [p] ->
  one_session s' live.
Proof.
  intros [Hl Hpre Hact|p' Hl Hpre Hact Hlock|sid Hl Hvs Hpre Hact Hlock
         |sid Hl Hvs Hpre Hact Hui] Ha Hen Ha' Hlock' Hp; try congruence.
  apply (os_starting _ _ p); try assumption. rewrite Hp, Hpre. reflexivity.
Qed.

(** The pending start attempt is resumed. *)
Lemma os_resume s live k a :
  one_session s live ->
  find_task k (tasks s) = Some a ->
  prestart (k, a) = true ->
  live = [] /\ isCallActive s = false /\ micBtn_disabled (ui s) = true /\
  prestart_tasks (drop_task k s) = [].
Proof.
  intros Hos Hf Hp. pose proof (find_prestart _ _ _ Hf Hp) as Hin.
  destruct Hos as [Hl Hpre Hact|p Hl Hpre Hact Hlock|sid Hl Hvs Hpre Hact Hlock
                  |sid Hl Hvs Hpre Hact Hui];
    rewrite Hpre in Hin; try (destruct Hin; fail).
  destruct Hin as [->|[]]. repeat split; try assumption.
  rewrite prestart_drop, Hpre. simpl. rewrite Nat.eqb_refl. reflexivity.
Qed.

(** The session is over. *)
Lemma os_over s s' live sid g :
  one_session s live ->
  In sid live ->
  isCallActive s' = false ->
  prestart_tasks s' = filter g (prestart_tasks s) ->
  one_session s' (remove Nat.eq_dec sid live).
Proof.
  intros [Hl Hpre Hact|p Hl Hpre Hact Hlock|sid' Hl Hvs Hpre Hact Hlock
         |sid' Hl Hvs Hpre Hact Hui] Hin Ha Hp; subst live;
    try (destruct Hin; fail);
    destruct Hin as [->|[]]; rewrite remove_single;
    rewrite Hpre in Hp; simpl in Hp; apply os_rest; congruence.
Qed.

(** The session goes on, showing one of the three in-call states. *)
Lemma os_call s s' live sid :
  one_session s live ->
  In sid live ->
  isCallActive s' = true ->
  is_active_ui (ui s') = true ->
  vapi s' = vapi s ->
  prestart_tasks s' = prestart_tasks s ->
  one_session s' live.
Proof.
  intros [Hl Hpre Hact|p Hl Hpre Hact Hlock|sid' Hl Hvs Hpre Hact Hlock
         |sid' Hl Hvs Hpre Hact Hui] Hin Ha Hu Hv Hp; subst live;
    try (destruct Hin; fail);
    apply (os_in_call _ _ sid'); congruence.
Qed.

Lemma os_active s live :
  one_session s live ->
  isCallActive s = true ->
  exists sid, live = [sid] /\ vapi s = Some sid.
Proof.
  intros [Hl Hpre Hact|p Hl Hpre Hact Hlock|sid' Hl Hvs Hpre Hact Hlock
         |sid' Hl Hvs Hpre Hact Hui] Ha; try congruence.
  exists sid'. auto.
Qed.

Lemma os_live_registered s live sid :
  wf s ->
  one_session s live ->
  In sid live ->
  Nat.ltb sid (next_sid s) = true.
Proof.
  intros Hwf [Hl Hpre Hact|p Hl Hpre Hact Hlock|sid' Hl Hvs Hpre Hact Hlock
             |sid' Hl Hvs Hpre Hact Hui] Hin; subst live;
    try (destruct Hin; fail);
    destruct Hin as [->|[]]; apply Nat.ltb_lt, (wf_vapi _ Hwf); assumption.
Qed.

Lemma existsb_In sid live : existsb (Nat.eqb sid) live = true -> In sid live.
Proof.
  intros H. apply existsb_exists in H. destruct H as (x & Hin & Hx).
  apply Nat.eqb_eq in Hx. subst. exact Hin.
Qed.

Lemma one_session_step s live e :
  wf s ->
  one_session s live ->
  offered s live e = true ->
  one_session (step s e) (live_after s live e).
Proof.
  intros Hwf Hos Hoff.
  destruct e as [| |raw|k r|k granted|k r opens|k ok|k r|sid te|id|dt].
  - (* MicClick *)
    simpl in Hoff. apply negb_true_iff in Hoff.
    unfold live_after, step, handleMicClick, stopCall.
    destruct (isCallActive s) eqn:Ha.
    + destruct (vapi s); [apply (os_same s)|]; auto.
    + apply (os_begin s _ live (next_task s, AwaitPermission)); auto.
      unfold prestart_tasks. norm. rewrite filter_app. reflexivity.
  - (* RetryClick *)
    simpl in Hoff.
    assert (Hen : micBtn_disabled (ui s) = false)
      by (destruct (ui s); try discriminate Hoff; reflexivity).
    unfold live_after, step, handleMicClick, stopCall.
    destruct (isCallActive s) eqn:Ha.
    + destruct (vapi s); [apply (os_same s)|]; auto.
    + apply (os_begin s _ live (next_task s, AwaitPermission)); auto.
      unfold prestart_tasks. norm. rewrite filter_app. reflexivity.
  - (* TextSubmit *)
    simpl in Hoff.
    assert (Hen : micBtn_disabled (ui s) = false)
      by (destruct (ui s); try discriminate Hoff; reflexivity).
    unfold live_after, step, handleTextSend.
    destruct (String.eqb (trim raw) ""); [exact Hos|].
    destruct (isCallActive s) eqn:Ha.
    + unfold sendTextToVapi. rewrite Ha.
      destruct (vapi s); [apply (os_same s)|]; auto.
    + pose proof (startCall_frame (set_pendingText (Some (trim raw)) s))
        as (_ & Ha' & _ & _ & Hui' & _).
      destruct (startCall_prestart (set_pendingText (Some (trim raw)) s))
        as [u Hp].
      apply (os_begin s _ live (next_task s, AwaitSession u)); auto.
      * rewrite Ha'. exact Ha.
      * rewrite Hui'. reflexivity.
  - (* PermissionSettled *)
    unfold live_after, step.
    destruct (find_task k (tasks s)) as [[| | | |]|] eqn:Hf; try exact Hos.
    destruct (os_resume _ _ _ _ Hos Hf eq_refl) as (Hl & Ha & Hlock & Hp).
    unfold handleMicClick_permission. destruct (getMicPermissionState r).
    + pose proof (startCall_frame (drop_task k s)) as (_ & Ha' & _ & _ & Hui' & _).
      destruct (startCall_prestart (drop_task k s)) as [u Hp'].
      apply (os_starting _ _ (next_task s, AwaitSession u)); auto.
      * rewrite Hp', Hp. reflexivity.
      * rewrite Ha'. exact Ha.
      * rewrite Hui'. reflexivity.
    + apply os_rest; auto.
    + apply (os_starting _ _ (next_task s, AwaitMic)); auto.
      unfold prestart_tasks in *. norm. rewrite filter_app, Hp. reflexivity.
  - (* MicSettled *)
    unfold live_after, step.
    destruct (find_task k (tasks s)) as [[| | | |]|] eqn:Hf; try exact Hos.
    destruct (os_resume _ _ _ _ Hos Hf eq_refl) as (Hl & Ha & Hlock & Hp).
    unfold handleMicClick_mic. destruct granted.
    + pose proof (startCall_frame (emit StopTracks (drop_task k s)))
        as (_ & Ha' & _ & _ & Hui' & _).
      destruct (startCall_prestart (emit StopTracks (drop_task k s))) as [u Hp'].
      apply (os_starting _ _ (next_task s, AwaitSession u)); auto.
      * rewrite Hp'. change (prestart_tasks (emit StopTracks (drop_task k s)))
          with (prestart_tasks (drop_task k s)). rewrite Hp. reflexivity.
      * rewrite Ha'. exact Ha.
      * rewrite Hui'. reflexivity.
    + apply os_rest; auto.
  - (* SessionSettled *)
    unfold live_after, step.
    destruct (find_task k (tasks s)) as [[| |userId| |]|] eqn:Hf;
      try (destruct opens; exact Hos).
    destruct (os_resume _ _ _ _ Hos Hf eq_refl) as (Hl & Ha & Hlock & Hp).
    subst live. unfold startCall_open, startCall_catch.
    destruct opens.
    + apply (os_opening _ _ (next_sid s)); destruct r; norm; auto;
        unfold prestart_tasks in *; norm; rewrite filter_app, Hp; reflexivity.
    + apply os_rest; destruct r; auto.
  - (* StartSettled *)
    simpl in Hoff. unfold live_after, step.
    destruct (find_task k (tasks s)) as [[| | |sid|]|] eqn:Hf;
      try (destruct ok; exact Hos).
    destruct ok.
    + apply (os_sub s _ live (fun p => negb (Nat.eqb (fst p) k))); auto.
      apply prestart_drop.
    + apply (os_over s _ live sid (fun p => negb (Nat.eqb (fst p) k))); auto.
      * apply existsb_In. exact Hoff.
      * unfold startCall_started, startCall_catch, prestart_tasks, drop_task.
        norm. apply filter_filter_comm.
  - (* AuthSettled *)
    unfold live_after, step.
    destruct (find_task k (tasks s)) as [[| | | |]|] eqn:Hf; try exact Hos.
    apply (os_sub s _ live (fun p => negb (Nat.eqb (fst p) k)));
      try (destruct r as [[|]|]; reflexivity); auto.
    destruct r as [[|]|]; unfold guardAuth_settled, prestart_tasks, drop_task;
      norm; apply filter_filter_comm.
  - (* Transport *)
    simpl in Hoff. apply existsb_In in Hoff.
    pose proof (os_live_registered _ _ _ Hwf Hos Hoff) as Hreg.
    unfold step. rewrite Hreg.
    destruct te as [| | | |m|]; unfold live_after, dispatch.
    + (* call-start *)
      apply (os_call s _ live sid); auto; unfold on_call_start; norm;
        destruct (pendingText s) as [t|]; try destruct (String.eqb t "");
        reflexivity.
    + (* call-end *)
      apply (os_over s _ live sid (fun _ => true)); auto;
        unfold on_call_end, cancel_agentSpeakingTimer; norm;
        destruct (agentSpeakingTimer s); norm; try reflexivity;
        rewrite filter_true; reflexivity.
    + (* speech-start *)
      unfold on_speech_start. destruct (isCallActive s) eqn:Ha; [|exact Hos].
      apply (os_call s _ live sid); auto.
    + (* speech-end *)
      unfold on_speech_end. destruct (isCallActive s) eqn:Ha; [|exact Hos].
      apply (os_call s _ live sid); auto.
    + (* message *)
      unfold on_message, cancel_agentSpeakingTimer.
      destruct (isCallActive s) eqn:Ha;
        [|rewrite andb_false_r; exact Hos].
      destruct (String.eqb (msg_type m) "speech-update" && true
                && String.eqb (msg_role m) "assistant"); [|exact Hos].
      destruct (String.eqb (msg_status m) "started").
      * destruct (agentSpeakingTimer s); apply (os_call s _ live sid);
          norm; auto.
      * apply (os_same s); auto.
    + (* error *)
      apply (os_over s _ live sid (fun _ => true)); auto.
      unfold on_error. norm. rewrite filter_true. reflexivity.
  - (* TimerFire *)
    unfold live_after, step.
    destruct (find_timer id (timers s)) as [t|]; [|exact Hos].
    destruct (Nat.leb (t_due t) (now s)); [|exact Hos].
    destruct (t_action t); unfold run_timer, sendTextToVapi; norm.
    + destruct (vapi s); [destruct (isCallActive s)|]; apply (os_same s); auto.
    + destruct (isCallActive s) eqn:Ha.
      * destruct (os_active _ _ Hos Ha) as (sid & Hl & Hv).
        apply (os_call s _ live sid); auto. rewrite Hl. left. reflexivity.
      * apply (os_same s); auto.
  - (* Advance *)
    apply (os_same s); auto.
Qed.

Lemma one_session_boot ls : one_session (boot ls) [].
Proof.
  apply os_rest; [reflexivity| |].
  - unfold boot, guardAuth, getOrCreateUserId, generateUserId, blank.
    destruct (getItem USER_ID_KEY _) as [u|];
      [destruct (String.eqb u "")|]; reflexivity.
  - unfold boot, guardAuth, getOrCreateUserId, generateUserId, blank.
    destruct (getItem USER_ID_KEY _) as [u|];
      [destruct (String.eqb u "")|]; reflexivity.
Qed.

Lemma one_session_run evs :
  forall s live,
    wf s ->
    one_session s live ->
    admissible s live evs = true ->
    wf (run s evs) /\ one_session (run s evs) (live_sessions s live evs).
Proof.
  induction evs as [|e evs IH]; intros s live Hwf Hos Hadm; simpl in *.
  - split; assumption.
  - apply andb_prop in Hadm. destruct Hadm as [Hoff Hadm].
    apply IH; [apply wf_step; exact Hwf| |exact Hadm].
    apply one_session_step; assumption.
Qed.

Lemma one_session_length s live : one_session s live -> List.length live <= 1.
Proof.
  intros [Hl _ _|p Hl _ _ _|sid Hl _ _ _ _|sid Hl _ _ _ _]; subst live; simpl; lia.
Qed.

Lemma handleMicClick_active s :
  isCallActive s = true ->
  step s MicClick = stopCall s.
Proof. intros Ha. unfold step, handleMicClick. rewrite Ha. reflexivity. Qed.

(** C4. While the call is marked active a click on the microphone button
    runs [stopCall] and returns: the only effect is [vapi.stop()] on the
    instance held in [vapi] (nothing at all when [vapi] is [null]); no
    instance is constructed, no start attempt is suspended, and the state
    shown, the call flag and the reference are unchanged.  In every run
    from page load in which clicks and submissions come only from controls
    that are enabled and shown, and instance events and start rejections
    only from sessions that exist, at most one call session exists at any
    point, and whenever the call is marked active that session is the one
    held in [vapi], so a click there asks exactly that session to stop. *)
Theorem at_most_one_call_session :
  (forall s : State,
     isCallActive s = true ->
     step s MicClick = stopCall s /\
     emitted s MicClick =
       match vapi s with
       | Some sid => [(now s, VapiStop sid)]
       | None => []
       end /\
     next_sid (step s MicClick) = next_sid s /\
     tasks (step s MicClick) = tasks s /\
     vapi (step s MicClick) = vapi s /\
     isCallActive (step s MicClick) = true /\
     ui (step s MicClick) = ui s /\
     (forall live, live_after s live MicClick = live)) /\
  (forall (ls : Storage) (evs : list Event),
     admissible (boot ls) [] evs = true ->
     let s := run (boot ls) evs in
     let live := live_sessions (boot ls) [] evs in
     List.length live <= 1 /\
     (isCallActive s = true ->
      exists sid,
        live = [sid] /\ vapi s = Some sid /\
        emitted s MicClick = [(now s, VapiStop sid)])).
Proof.
  split.
  - intros s Ha. rewrite (handleMicClick_active s Ha).
    split; [reflexivity|].
    split.
    { apply emitted_eq. rewrite (handleMicClick_active s Ha). unfold stopCall.
      destruct (vapi s); [reflexivity|symmetry; apply app_nil_r]. }
    unfold stopCall. destruct (vapi s) eqn:Hv; norm; repeat split; auto.
  - intros ls evs Hadm s live.
    destruct (one_session_run evs (boot ls) [] (wf_boot ls)
                (one_session_boot ls) Hadm) as [Hwf Hos].
    fold s live in Hos. split; [exact (one_session_length _ _ Hos)|].
    intros Ha. destruct (os_active _ _ Hos Ha) as (sid & Hl & Hv).
    exists sid. repeat split; try assumption.
    apply emitted_eq. rewrite (handleMicClick_active s Ha). unfold stopCall.
    rewrite Hv. reflexivity.
Qed.

(** ** Page elements *)

Lemma contains_add_same t el : Element.contains t (Element.add t el) = true.
Proof.
  unfold Element.add. destruct (Element.contains t el) eqn:E; [exact E|].
  unfold Element.contains. simpl. rewrite existsb_app. simpl.
  rewrite String.eqb_refl, orb_true_r. reflexivity.
Qed.

Lemma contains_remove_same t el : Element.contains t (Element.remove t el) = false.
Proof.
  unfold Element.contains, Element.remove. simpl.
  induction (Element.classList el) as [|c l IH]; simpl; [reflexivity|].
  destruct (String.eqb_spec c t) as [E|E]; simpl; [exact IH|].
  rewrite IH. destruct (String.eqb_spec t c); [congruence|reflexivity].
Qed.

Lemma contains_add_other t t' el :
  t <> t' -> Element.contains t (Element.add t' el) = Element.contains t el.
Proof.
  intros Hne. unfold Element.add.
  destruct (Element.contains t' el); [reflexivity|].
  unfold Element.contains. simpl. rewrite existsb_app. simpl.
  destruct (String.eqb_spec t t'); [contradiction|].
  rewrite !orb_false_r. reflexivity.
Qed.

Lemma contains_remove_other t t' el :
  t <> t' -> Element.contains t (Element.remove t' el) = Element.contains t el.
Proof.
  intros Hne. unfold Element.contains, Element.remove. simpl.
  induction (Element.classList el) as [|c l IH]; simpl; [reflexivity|].
  destruct (String.eqb_spec c t') as [E|E]; simpl.
  - destruct (String.eqb_spec t c); [congruence|exact IH].
  - rewrite IH. reflexivity.
Qed.

Lemma disabled_add t el : Element.disabled (Element.add t el) = Element.disabled el.
Proof. unfold Element.add. destruct (Element.contains t el); reflexivity. Qed.

Lemma textContent_add t el :
  Element.textContent (Element.add t el) = Element.textContent el.
Proof. unfold Element.add. destruct (Element.contains t el); reflexivity. Qed.

Lemma add_add t el : Element.add t (Element.add t el) = Element.add t el.
Proof.
  unfold Element.add at 1. rewrite contains_add_same. reflexivity.
Qed.

Lemma remove_add t el : Element.remove t (Element.add t el) = Element.remove t el.
Proof.
  unfold Element.add. destruct (Element.contains t el); [reflexivity|].
  unfold Element.remove. simpl. rewrite filter_app. simpl.
  rewrite String.eqb_refl. simpl. rewrite app_nil_r. reflexivity.
Qed.

Lemma remove_add_other t t' el :
  t <> t' ->
  Element.remove t (Element.add t' el) = Element.add t' (Element.remove t el).
Proof.
  intros Hne. unfold Element.add at 2.
  rewrite (contains_remove_other t' t) by congruence.
  unfold Element.add. destruct (Element.contains t' el); [reflexivity|].
  unfold Element.remove. simpl. rewrite filter_app. simpl.
  destruct (String.eqb_spec t' t); [congruence|reflexivity].
Qed.

Lemma remove_remove t el : Element.remove t (Element.remove t el) = Element.remove t el.
Proof.
  unfold Element.remove. simpl. f_equal.
  induction (Element.classList el) as [|c l IH]; simpl; [reflexivity|].
  destruct (String.eqb c t) eqn:E; simpl; [exact IH|].
  rewrite E. simpl. rewrite IH. reflexivity.
Qed.

Lemma remove_comm t t' el :
  Element.remove t (Element.remove t' el) = Element.remove t' (Element.remove t el).
Proof.
  unfold Element.remove. simpl. f_equal.
  induction (Element.classList el) as [|c l IH]; simpl; [reflexivity|].
  destruct (String.eqb c t) eqn:E, (String.eqb c t') eqn:E'; simpl;
    rewrite ?E, ?E'; simpl; rewrite ?IH; reflexivity.
Qed.

Lemma remove_remove_remove t t' el :
  Element.remove t (Element.remove t' (Element.remove t el)) =
  Element.remove t' (Element.remove t el).
Proof. rewrite remove_comm, remove_remove. reflexivity. Qed.

Ltac unfold_page :=
  cbv [Page.applyState Page.setIcons Page.setStatus Page.setWaveform
       Page.setTextSection Page.show Page.hide Page.update Page.Ref_eqb
       Page.presentation Element.toggle Element.visible negb].

Ltac class_lists :=
  repeat first
    [ rewrite contains_add_same
    | rewrite contains_remove_same
    | rewrite contains_add_other by discriminate
    | rewrite contains_remove_other by discriminate
    | rewrite disabled_add
    | rewrite textContent_add
    | rewrite remove_add
    | rewrite remove_add_other by discriminate
    | rewrite add_add
    | rewrite remove_remove
    | rewrite remove_remove_remove ].

Lemma applyState_twice u d r :
  Page.applyState u (Page.applyState u d) r = Page.applyState u d r.
Proof.
  destruct u, r; unfold_page; class_lists; reflexivity.
Qed.

Lemma applyState_overwrites u d1 d2 :
  Page.presentation (Page.applyState u d1) =
  Page.presentation (Page.applyState u d2).
Proof.
  destruct u; unfold_page; class_lists; reflexivity.
Qed.

(** X1.  What [applyState] writes agrees with the flags the environment
    is taken to read: the microphone button is disabled exactly in
    [requesting-mic] and [connecting], the permission card is on display
    exactly in [mic-denied], the text section is on display and its input
    and send button are enabled as [setTextSection] was called for the
    state, and the wrapper carries ['active'] exactly in the three in-call
    states, whatever the page held before. *)
Theorem applyState_shows_projection (u : UIState) (d : Page.Dom) :
  let d' := Page.applyState u d in
  Element.disabled (d' Page.micBtn) = micBtn_disabled u /\
  Element.visible (d' Page.permCard) = permCard_shown u /\
  Element.visible (d' Page.textSection) = fst (textSection u) /\
  Element.disabled (d' Page.textInput) = negb (snd (textSection u)) /\
  Element.disabled (d' Page.sendBtn) = negb (snd (textSection u)) /\
  Element.contains "active" (d' Page.micWrapper) = is_active_ui u.
Proof.
  destruct u; unfold_page; class_lists; repeat split.
Qed.

(** X2.  [applyState] is idempotent on every element, and everything a
    visitor can tell from the page afterwards is determined by the state
    applied: nothing shown before survives it. *)
Theorem applyState_idempotent_and_overwrites (u : UIState) (d1 d2 : Page.Dom) :
  (forall r, Page.applyState u (Page.applyState u d1) r = Page.applyState u d1 r) /\
  Page.presentation (Page.applyState u d1) =
  Page.presentation (Page.applyState u d2).
Proof.
  split; [intros r; apply applyState_twice | apply applyState_overwrites].
Qed.

(** X3.  After [applyState] exactly one of the three icons is on display:
    the spinner while the microphone button is disabled, the stop icon in
    the in-call states, the microphone icon otherwise.  The waveform is
    active exactly in [user-speaking] and [agent-speaking], and in agent
    mode exactly in [agent-speaking]. *)
Theorem applyState_one_icon (u : UIState) (d : Page.Dom) :
  let d' := Page.applyState u d in
  Element.visible (d' Page.spinner) = micBtn_disabled u /\
  Element.visible (d' Page.stopIcon) = is_active_ui u /\
  Element.visible (d' Page.micIcon) = negb (micBtn_disabled u || is_active_ui u) /\
  List.length (filter (fun b : bool => b)
                 [Element.visible (d' Page.micIcon);
                  Element.visible (d' Page.stopIcon);
                  Element.visible (d' Page.spinner)]) = 1 /\
  Element.contains "active" (d' Page.waveform) =
    match u with UserSpeaking | AgentSpeaking => true | _ => false end /\
  Element.contains "agent-mode" (d' Page.waveform) =
    match u with AgentSpeaking => true | _ => false end.
Proof.
  destruct u; unfold_page; class_lists; repeat split.
Qed.

(** X4.  The status label identifies the state: two applications of
    [applyState] that leave the same label applied the same state. *)
Theorem status_label_determines_state (u u' : UIState) (d d' : Page.Dom) :
  Element.textContent (Page.applyState u d Page.statusLabel) =
  Element.textContent (Page.applyState u' d' Page.statusLabel) ->
  u = u'.
Proof.
  destruct u, u'; unfold_page; cbn [Element.textContent Element.set_textContent];
    intros H; first [reflexivity | discriminate H].
Qed.

(** ** The page follows the controller *)

Lemma last_render_snoc l t e :
  last_render (l ++ [(t, e)]) =
  match e with
  | Render u => Some u
  | _ => last_render l
  end.
Proof.
  unfold last_render. rewrite fold_left_app. simpl. destruct e; reflexivity.
Qed.

Lemma last_render_step s e :
  last_render (log s) = Some (ui s) ->
  last_render (log (step s e)) = Some (ui (step s e)).
Proof.
  intros H.
  destruct e; unfold_handlers; simpl; split_cases;
    rewrite ?last_render_snoc; simpl; first [exact H | reflexivity].
Qed.

Lemma last_render_boot ls : last_render (log (boot ls)) = Some (ui (boot ls)).
Proof.
  unfold boot, blank. unfold_handlers. simpl. split_cases; reflexivity.
Qed.

Lemma last_render_run s evs :
  last_render (log s) = Some (ui s) ->
  last_render (log (run s evs)) = Some (ui (run s evs)).
Proof.
  revert s. induction evs as [|e evs IH]; intros s H; simpl; [exact H|].
  apply IH, last_render_step, H.
Qed.

Lemma page_after_last_render l :
  forall d u,
    last_render l = Some u ->
    Page.presentation (Page.page_after l d) =
    Page.presentation (Page.applyState u d).
Proof.
  induction l as [|[t e] l IH] using rev_ind; intros d u H; [discriminate H|].
  rewrite last_render_snoc in H. unfold Page.page_after in *.
  rewrite fold_left_app. simpl. unfold Page.paint at 1. simpl.
  destruct e; try (apply IH; exact H).
  inversion H; subst. apply applyState_overwrites.
Qed.

(** X5.  At every point of every run from page load, what the page
    presents is what [applyState] writes for the state the controller is
    in: replaying the renderings of the log on any page gives the
    presentation of the current state. *)
Theorem page_presents_current_state (ls : Storage) (evs : list Event) (d : Page.Dom) :
  let s := run (boot ls) evs in
  Page.presentation (Page.page_after (log s) d) =
  Page.presentation (Page.applyState (ui s) d).
Proof.
  intros s. apply page_after_last_render.
  apply last_render_run, last_render_boot.
Qed.

(** ** In-call states and the call flag *)

Lemma inactive_step s e :
  isCallActive s = false ->
  is_call_start e = false ->
  isCallActive (step s e) = false /\
  filter is_active_render (emitted s e) = [].
Proof.
  intros Ha He. unfold emitted.
  destruct e as [| |raw|k r|k granted|k r opens|k ok|k r|sid te|id|dt];
    try (destruct te; try discriminate He);
    unfold_handlers; simpl; rewrite ?Ha, ?andb_false_r; simpl; split_cases;
    rewrite ?Ha; simpl;
    rewrite <- ?app_assoc, ?skipn_app, ?skipn_all, ?Nat.sub_diag; simpl;
    split; first [reflexivity | assumption | congruence].
Qed.

Lemma inactive_run evs :
  forall s,
    isCallActive s = false ->
    Forall (fun e => is_call_start e = false) evs ->
    isCallActive (run s evs) = false /\
    exists l, log (run s evs) = log s ++ l /\ filter is_active_render l = [].
Proof.
  induction evs as [|e evs IH]; intros s Ha Hev; simpl.
  - split; [exact Ha|]. exists []. split; [symmetry; apply app_nil_r|reflexivity].
  - inversion Hev as [|? ? He Hrest]; subst.
    destruct (inactive_step s e Ha He) as [Ha1 Hl1].
    destruct (IH (step s e) Ha1 Hrest) as (Ha2 & l & Hl & Hf).
    split; [exact Ha2|].
    exists (emitted s e ++ l). split.
    + rewrite Hl, log_step, app_assoc. reflexivity.
    + rewrite filter_app, Hl1, Hf. reflexivity.
Qed.

(** X6.  Once no call is active (before the first call, after
    ['call-end'], after ['error'], after a failed start) none of the
    in-call states is applied until a ['call-start'] arrives: whatever else
    happens, clicks, submissions, speech events, assistant updates and
    timers that fire late included, the call flag stays off, no in-call
    state is rendered and none is on display. *)
Theorem no_in_call_state_without_call_start (s : State) (evs : list Event) :
  reachable s ->
  isCallActive s = false ->
  Forall (fun e => is_call_start e = false) evs ->
  isCallActive (run s evs) = false /\
  is_active_ui (ui (run s evs)) = false /\
  exists l, log (run s evs) = log s ++ l /\ filter is_active_render l = [].
Proof.
  intros Hr Ha Hev.
  destruct (inactive_run evs s Ha Hev) as (Ha' & Hl).
  split; [exact Ha'|]. split; [|exact Hl].
  pose proof (wf_active _ (reachable_wf _ (reachable_run s evs Hr))) as Hwf.
  destruct (is_active_ui (ui (run s evs))); [|reflexivity].
  rewrite (Hwf eq_refl) in Ha'. discriminate Ha'.
Qed.

(** X7.  In every run from page load in which the environment delivers
    only what the page offers, the call flag and the display agree: the
    call is marked active exactly when one of the three in-call states is
    shown. *)
Theorem call_flag_matches_display (ls : Storage) (evs : list Event) :
  admissible (boot ls) [] evs = true ->
  let s := run (boot ls) evs in
  isCallActive s = is_active_ui (ui s).
Proof.
  intros Hadm s.
  destruct (one_session_run evs (boot ls) [] (wf_boot ls)
              (one_session_boot ls) Hadm) as [Hwf Hos].
  fold s in Hwf, Hos.
  destruct (isCallActive s) eqn:Ha.
  - destruct Hos as [_ _ H|p _ _ H _|sid _ _ _ H _|sid _ _ _ _ H];
      congruence.
  - destruct (is_active_ui (ui s)) eqn:Hu; [|reflexivity].
    rewrite (wf_active _ Hwf Hu) in Ha. discriminate Ha.
Qed.

(** ** Who talks to the instance *)

(** Closes a goal whose hypothesis [Hin] says that an effect is among
    those emitted by a step that does not emit it. *)
Ltac not_emitted Hin :=
  exfalso; revert Hin; unfold emitted; unfold_handlers; simpl; split_cases;
  rewrite <- ?app_assoc, ?skipn_app, ?skipn_all, ?Nat.sub_diag; simpl;
  intros Hin; repeat (destruct Hin as [Hin|Hin]; [discriminate Hin|]);
  exact Hin.

(** X8.  [vapi.stop()] is called by a click on the microphone or retry
    button made while the call is marked active, on the instance held in
    [vapi], and by nothing else: no handler of an instance event, no
    timer, no submission and no settlement stops a call.  Such a click
    does nothing but that call. *)
Theorem stop_only_by_click_in_call (s : State) (e : Event) (t sid : nat) :
  In (t, VapiStop sid) (emitted s e) ->
  (e = MicClick \/ e = RetryClick) /\
  isCallActive s = true /\
  vapi s = Some sid /\
  step s e = emit (VapiStop sid) s.
Proof.
  intros Hin.
  destruct e as [| |raw|k r|k granted|k r opens|k ok|k r|sid' te|id|dt];
    try (not_emitted Hin).
  - split; [left; reflexivity|]. revert Hin. unfold emitted, step, handleMicClick.
    destruct (isCallActive s) eqn:Ha; [|intros Hin; not_emitted Hin].
    unfold stopCall. destruct (vapi s) as [sid0|] eqn:Hv.
    + norm. rewrite skipn_app, skipn_all, Nat.sub_diag. simpl.
      intros [Hin|[]]. inversion Hin; subst. repeat split.
    + rewrite skipn_all. intros [].
  - split; [right; reflexivity|]. revert Hin. unfold emitted, step, handleMicClick.
    destruct (isCallActive s) eqn:Ha; [|intros Hin; not_emitted Hin].
    unfold stopCall. destruct (vapi s) as [sid0|] eqn:Hv.
    + norm. rewrite skipn_app, skipn_all, Nat.sub_diag. simpl.
      intros [Hin|[]]. inversion Hin; subst. repeat split.
    + rewrite skipn_all. intros [].
Qed.

(** X9.  [vapi.start] is called only by the continuation of [startCall]
    that follows the pre-registration request, on the instance it has just
    constructed, with the configured assistant id and the identity the
    request carried.  [variableValues] holds a [sessionToken] only when
    the request answered a truthy [data.token], and then that value; a
    failed request or a falsy token starts the call without one. *)
Theorem start_only_after_preregistration
    (s : State) (e : Event) (t sid : nat) (assistant userId : string)
    (token : option JsValue) :
  In (t, VapiStart sid assistant userId token) (emitted s e) ->
  exists k r,
    e = SessionSettled k r true /\
    find_task k (tasks s) = Some (AwaitSession userId) /\
    sid = next_sid s /\
    assistant = ASSISTANT_ID /\
    token = match r with
            | Some v => if truthy v then Some v else None
            | None => None
            end /\
    In (t, VapiNew sid) (emitted s e) /\
    vapi (step s e) = Some sid.
Proof.
  intros Hin.
  destruct e as [| |raw|k r|k granted|k r opens|k ok|k r|sid' te|id|dt];
    try (not_emitted Hin).
  exists k, r. revert Hin. unfold emitted, step.
  destruct (find_task k (tasks s)) as [[| |u| |]|] eqn:Hf;
    try (rewrite skipn_all; intros []).
  unfold startCall_open, startCall_catch, drop_task.
  destruct opens, r as [v|]; norm;
    rewrite <- ?app_assoc, ?skipn_app, ?skipn_all, ?Nat.sub_diag; simpl;
    intros Hin; repeat (destruct Hin as [Hin|Hin]; [try discriminate Hin|]);
    try contradiction; inversion Hin; subst; repeat split; auto.
Qed.

(** ** The auth guard *)

Lemma auth_tasks_filter (g : nat * Awaiting -> bool) l :
  List.length (filter is_auth_task (filter g l)) <=
  List.length (filter is_auth_task l).
Proof.
  induction l as [|p l IH]; simpl; [lia|].
  destruct (g p), (is_auth_task p) eqn:E; simpl; rewrite ?E; simpl; lia.
Qed.

Lemma auth_tasks_drop k l :
  find_task k l = Some AwaitAuth ->
  List.length (filter is_auth_task (filter (fun p => negb (Nat.eqb (fst p) k)) l)) <
  List.length (filter is_auth_task l).
Proof.
  induction l as [|[k' a] l IH]; simpl; [discriminate|].
  rewrite (Nat.eqb_sym k' k).
  destruct (Nat.eqb k k') eqn:E; simpl.
  - intros H. inversion H; subst. simpl.
    pose proof (auth_tasks_filter (fun p => negb (Nat.eqb (fst p) k)) l). lia.
  - intros H. specialize (IH H).
    destruct (is_auth_task (k', a)) eqn:Ea; simpl; lia.
Qed.

(** What one step does to the pending status requests and to the
    navigations logged. *)
Lemma guard_step s e :
  (List.length (filter is_auth_task (tasks (step s e))) <=
     List.length (filter is_auth_task (tasks s)) /\
   filter is_navigate (emitted s e) = []) \/
  (exists k,
     e = AuthSettled k (Some false) /\
     List.length (filter is_auth_task (tasks (step s e))) <
       List.length (filter is_auth_task (tasks s)) /\
     emitted s e = [(now s, Navigate "index.html")]).
Proof.
  destruct e as [| |raw|k r|k granted|k r opens|k ok|k r|sid te|id|dt].
  8: {
    unfold emitted, step.
    destruct (find_task k (tasks s)) as [[| | | |]|] eqn:Hf;
      try (left; split; [lia|rewrite skipn_all; reflexivity]).
    pose proof (auth_tasks_drop k _ Hf) as Hlt.
    unfold guardAuth_settled, drop_task.
    destruct r as [[|]|]; norm.
    - left. split; [lia|rewrite skipn_all; reflexivity].
    - right. exists k. split; [reflexivity|]. split; [exact Hlt|].
      rewrite skipn_app, skipn_all, Nat.sub_diag. reflexivity.
    - left. split; [lia|rewrite skipn_all; reflexivity]. }
  all: left; unfold emitted; unfold_handlers; simpl; split_cases;
    rewrite <- ?app_assoc, ?skipn_app, ?skipn_all, ?Nat.sub_diag; simpl;
    rewrite ?filter_app; simpl; rewrite ?app_nil_r;
    (split; [first [lia | apply auth_tasks_filter] | reflexivity]).
Qed.

Lemma guard_run evs :
  forall s,
    List.length (filter is_auth_task (tasks (run s evs))) +
      List.length (filter is_navigate (log (run s evs))) <=
    List.length (filter is_auth_task (tasks s)) +
      List.length (filter is_navigate (log s)) /\
    forall t url,
      In (t, Navigate url) (log (run s evs)) ->
      In (t, Navigate url) (log s) \/
      url = "index.html" /\ exists k, In (AuthSettled k (Some false)) evs.
Proof.
  induction evs as [|e evs IH]; intros s.
  - split; [simpl; lia|]. intros t url H. left. exact H.
  - change (run s (e :: evs)) with (run (step s e) evs).
    destruct (IH (step s e)) as [Hc Hn]. rewrite log_step in Hc, Hn.
    rewrite filter_app, length_app in Hc.
    destruct (guard_step s e) as [[Ht Hnav]|(k & -> & Ht & Hnav)].
    + rewrite Hnav in Hc. cbn [List.length] in Hc. split; [lia|].
      intros t url H. destruct (Hn t url H) as [Hin|(Hu & k & Hk)].
      * apply in_app_or in Hin. destruct Hin as [Hin|Hin]; [left; exact Hin|].
        exfalso. assert (Hf : In (t, Navigate url) (filter is_navigate (emitted s e))).
        { apply filter_In. split; [exact Hin|reflexivity]. }
        rewrite Hnav in Hf. exact Hf.
      * right. split; [exact Hu|]. exists k. right. exact Hk.
    + rewrite Hnav in Hc, Hn. cbn [filter is_navigate snd List.length] in Hc.
      split; [lia|].
      intros t url H. destruct (Hn t url H) as [Hin|(Hu & k' & Hk)].
      * apply in_app_or in Hin. destruct Hin as [Hin|[Hin|[]]]; [left; exact Hin|].
        inversion Hin; subst. right. split; [reflexivity|].
        exists k. left. reflexivity.
      * right. split; [exact Hu|]. exists k'. right. exact Hk.
Qed.

Lemma guard_boot ls :
  List.length (filter is_auth_task (tasks (boot ls))) = 1 /\
  filter is_navigate (log (boot ls)) = [].
Proof.
  unfold boot, blank. unfold_handlers. simpl. split_cases; split; reflexivity.
Qed.

(** X10.  The auth guard leaves the voice page at most once, and only for
    [index.html] after the status request it sent at page load answered
    that the calendar is not connected.  When that request fails, or
    answers connected, the page is never left. *)
Theorem guard_redirects_at_most_once (ls : Storage) (evs : list Event) :
  let s := run (boot ls) evs in
  List.length (filter is_navigate (log s)) <= 1 /\
  (forall t url,
     In (t, Navigate url) (log s) ->
     url = "index.html" /\ exists k, In (AuthSettled k (Some false)) evs) /\
  ((forall k, ~ In (AuthSettled k (Some false)) evs) ->
   filter is_navigate (log s) = []).
Proof.
  intros s. destruct (guard_run evs (boot ls)) as [Hc Hn].
  destruct (guard_boot ls) as [Hb1 Hb2]. rewrite Hb1, Hb2 in Hc. simpl in Hc.
  fold s in Hc, Hn.
  assert (Hsrc : forall t url, In (t, Navigate url) (log s) ->
            url = "index.html" /\ exists k, In (AuthSettled k (Some false)) evs).
  { intros t url H. destruct (Hn t url H) as [Hin|Hr]; [|exact Hr].
    exfalso. assert (Hf : In (t, Navigate url) (filter is_navigate (log (boot ls)))).
    { apply filter_In. split; [exact Hin|reflexivity]. }
    rewrite Hb2 in Hf. exact Hf. }
  split; [lia|]. split; [exact Hsrc|].
  intros Hno. destruct (filter is_navigate (log s)) as [|[t e] l] eqn:Hf; [reflexivity|].
  exfalso.
  assert (Hin : In (t, e) (filter is_navigate (log s))) by (rewrite Hf; left; reflexivity).
  apply filter_In in Hin. destruct Hin as [Hin He].
  destruct e; try discriminate He.
  destruct (Hsrc _ _ Hin) as (_ & k & Hk). exact (Hno k Hk).
Qed.

(** ** One identity *)

Lemma identity_kept_step id s e :
  id <> "" ->
  identity_kept id s ->
  identity_kept id (step s e) /\
  localStorage (step s e) = localStorage s /\
  uuids_drawn (step s e) = uuids_drawn s.
Proof.
  intros Hne [Hs Ht Hl].
  assert (Hne' : String.eqb id "" = false) by (apply String.eqb_neq; exact Hne).
  assert (Hfind : forall k u, find_task k (tasks s) = Some (AwaitSession u) -> u = id).
  { intros k u Hf. apply (Ht k). apply find_task_In. exact Hf. }
  destruct e as [| |raw|k r|k granted|k r opens|k ok|k r|sid te|id'|dt];
    unfold_handlers; simpl; rewrite ?Hs, ?Hne'; simpl; split_cases;
    rewrite ?Hs, ?Hne'; simpl.
  all: split; [|split; reflexivity].
  all: constructor; simpl; [exact Hs| |].
  all: intros;
    repeat match goal with
      | H : In _ (_ ++ _) |- _ => apply in_app_or in H; destruct H as [H|H]
      | H : In _ (filter _ _) |- _ => apply filter_In in H; destruct H as [H _]
      | H : In _ [_] |- _ => destruct H as [H|[]]; inversion H; subst; clear H
      end;
    try (eapply Ht; eassumption);
    try (eapply Hl; eassumption);
    try (simpl in *; congruence).
  all: simpl in *;
    match goal with
    | H : Some _ = Some _ |- _ => inversion H; subst; clear H
    end;
    eapply Hfind; eassumption.
Qed.

Lemma identity_kept_run id evs :
  id <> "" ->
  forall s,
    identity_kept id s ->
    identity_kept id (run s evs) /\
    localStorage (run s evs) = localStorage s /\
    uuids_drawn (run s evs) = uuids_drawn s.
Proof.
  intros Hne. induction evs as [|e evs IH]; intros s H.
  - repeat split; apply H.
  - change (run s (e :: evs)) with (run (step s e) evs).
    destruct (identity_kept_step id s e Hne H) as (H1 & H2 & H3).
    destruct (IH _ H1) as (H4 & H5 & H6).
    split; [exact H4|]. split; congruence.
Qed.

Lemma identity_kept_boot ls :
  (forall n, randomUUID n <> "") ->
  let id := fst (getOrCreateUserId (blank ls)) in
  id <> "" /\ identity_kept id (boot ls) /\ uuids_drawn (boot ls) <= 1 /\
  (forall u, getItem USER_ID_KEY ls = Some u -> u <> "" ->
             id = u /\ boot ls = suspend AwaitAuth
                                   (emit (FetchAuthStatus u) (applyState Idle (blank ls)))).
Proof.
  intros Huuid. unfold boot, guardAuth, getOrCreateUserId, generateUserId.
  cbn [localStorage applyState blank set_ui emit set_log set_isCallActive].
  destruct (getItem USER_ID_KEY ls) as [u|] eqn:Hg.
  - destruct (String.eqb_spec u "") as [E|E]; cbn [fst].
    + split; [apply Huuid|]. split; [|split; [simpl; lia|]].
      * constructor; simpl.
        -- apply getItem_setItem.
        -- intros k u0 [H|[]]. discriminate H.
        -- intros t e u0 H Hu.
           repeat (destruct H as [H|H]; [inversion H; subst; simpl in Hu; congruence|]).
           contradiction.
      * intros u0 H Hne. inversion H; subst. contradiction.
    + split; [exact E|]. split; [|split; [simpl; lia|]].
      * constructor; simpl.
        -- exact Hg.
        -- intros k u0 [H|[]]. discriminate H.
        -- intros t e u0 H Hu.
           repeat (destruct H as [H|H]; [inversion H; subst; simpl in Hu; congruence|]).
           contradiction.
      * intros u0 H Hne. inversion H; subst. split; reflexivity.
  - cbn [fst]. split; [apply Huuid|]. split; [|split; [simpl; lia|]].
    + constructor; simpl.
      * apply getItem_setItem.
      * intros k u0 [H|[]]. discriminate H.
      * intros t e u0 H Hu.
        repeat (destruct H as [H|H]; [inversion H; subst; simpl in Hu; congruence|]).
        contradiction.
    + intros u0 H. discriminate H.
Qed.

(** X11.  One identity is used throughout.  Provided
    [crypto.randomUUID()] never returns the empty string, the identity
    fixed at page load (the stored one, or a fresh one when nothing usable
    was stored) stays under ['calendarUserId'] for the rest of the run:
    the store is never written again and no further value is drawn, so at
    most one is drawn in all, and every request to the backend and every
    [vapi.start] carries that identity.  A page loaded with a non-empty
    stored identity uses it and draws nothing. *)
Theorem one_identity_throughout (ls : Storage) (evs : list Event) :
  (forall n, randomUUID n <> "") ->
  let id := fst (getOrCreateUserId (blank ls)) in
  let s := run (boot ls) evs in
  id <> "" /\
  getItem USER_ID_KEY (localStorage s) = Some id /\
  localStorage s = localStorage (boot ls) /\
  uuids_drawn s = uuids_drawn (boot ls) /\
  uuids_drawn s <= 1 /\
  (forall t e u, In (t, e) (log s) -> user_of e = Some u -> u = id) /\
  (forall u, getItem USER_ID_KEY ls = Some u -> u <> "" ->
             id = u /\ uuids_drawn s = 0 /\ localStorage s = ls).
Proof.
  intros Huuid id s.
  destruct (identity_kept_boot ls Huuid) as (Hne & Hk & Hd & Hst). fold id in Hne, Hk, Hst.
  destruct (identity_kept_run id evs Hne (boot ls) Hk) as (Hk' & Hls & Hdr).
  fold s in Hk', Hls, Hdr.
  split; [exact Hne|]. split; [apply Hk'|]. split; [exact Hls|].
  split; [exact Hdr|]. split; [lia|]. split; [apply Hk'|].
  intros u Hg Hu. destruct (Hst u Hg Hu) as [Hid Hb].
  split; [exact Hid|]. rewrite Hdr, Hls, Hb. split; reflexivity.
Qed.

Lemma getOrCreateUserId_stores s :
  (forall n, randomUUID n <> "") ->
  fst (getOrCreateUserId s) <> "" /\
  getItem USER_ID_KEY (localStorage (snd (getOrCreateUserId s))) =
    Some (fst (getOrCreateUserId s)).
Proof.
  intros Huuid. unfold getOrCreateUserId.
  destruct (getItem USER_ID_KEY (localStorage s)) as [u|] eqn:Hg.
  - destruct (String.eqb_spec u "") as [E|E]; simpl.
    + split; [apply Huuid|apply getItem_setItem].
    + split; [exact E|exact Hg].
  - simpl. split; [apply Huuid|apply getItem_setItem].
Qed.

(** X12.  The identity is shared by the two pages.  Provided
    [crypto.randomUUID()] never returns the empty string, the identity the
    index page sends with its status request is the one its connect
    buttons put in the address of the consent redirect, and a voice page
    loaded afterwards from the same store draws no identity of its own,
    leaves the store as it is and puts that identity in every request it
    makes and in every [vapi.start]. *)
Theorem identity_shared_across_pages
    (p : Index.Dom) (s : State) (evs : list Event) :
  (forall n, randomUUID n <> "") ->
  let id := fst (getOrCreateUserId s) in
  let s0 := snd (checkAuthStatus p s) in
  let v := run (boot (localStorage s0)) evs in
  (exists l1 l2, log s0 = log s ++ l1 ++ (now s, FetchAuthStatus id) :: l2) /\
  redirectToGoogle s0 =
    emit (Navigate (String.append "/auth/google?userId=" id)) s0 /\
  uuids_drawn v = 0 /\
  localStorage v = localStorage s0 /\
  (forall t e u, In (t, e) (log v) -> user_of e = Some u -> u = id).
Proof.
  intros Huuid id s0 v.
  destruct (getOrCreateUserId_stores s Huuid) as [Hne Hst]. fold id in Hne, Hst.
  assert (Hls : localStorage s0 = localStorage (snd (getOrCreateUserId s))).
  { subst s0. unfold checkAuthStatus.
    destruct (getOrCreateUserId s) as [u s']. reflexivity. }
  assert (Hst0 : getItem USER_ID_KEY (localStorage s0) = Some id)
    by (rewrite Hls; exact Hst).
  split.
  { subst s0 id. unfold checkAuthStatus, getOrCreateUserId, generateUserId.
    destruct (getItem USER_ID_KEY (localStorage s)) as [u|];
      [destruct (String.eqb u "")|]; norm.
    - exists [(now s, DrawUUID); (now s, StorageSet USER_ID_KEY (randomUUID (uuids_drawn s)))], [].
      rewrite <- !app_assoc. reflexivity.
    - exists [], []. reflexivity.
    - exists [(now s, DrawUUID); (now s, StorageSet USER_ID_KEY (randomUUID (uuids_drawn s)))], [].
      rewrite <- !app_assoc. reflexivity. }
  split.
  { unfold redirectToGoogle.
    rewrite (getOrCreateUserId_stored s0 id Hst0 Hne). reflexivity. }
  destruct (identity_kept_boot (localStorage s0) Huuid) as (_ & Hk & _ & Hstb).
  destruct (Hstb id Hst0 Hne) as [Hid Hb]. rewrite Hid in Hk.
  destruct (identity_kept_run id evs Hne _ Hk) as (Hk' & Hl & Hd).
  fold v in Hk', Hl, Hd.
  split; [rewrite Hd, Hb; reflexivity|].
  split; [rewrite Hl, Hb; reflexivity|].
  apply Hk'.
Qed.

(** ** What is sent *)

Lemma texts_from_weaken (Q Q' : string -> Prop) s :
  (forall x, Q x -> Q' x) -> texts_from Q s -> texts_from Q' s.
Proof.
  intros HQ [H1 H2 H3]. constructor.
  - intros x Hp Hx. apply HQ. exact (H1 x Hp Hx).
  - intros t x Hin Ha. apply HQ. exact (H2 t x Hin Ha).
  - intros t sid role x Hin. destruct (H3 t sid role x Hin) as [Hr Hx].
    split; [exact Hr|apply HQ; exact Hx].
Qed.

Lemma no_send_in l t sid role x :
  sends l = [] -> ~ In (t, VapiSend sid role x) l.
Proof.
  intros Hs Hin.
  assert (H : In (t, VapiSend sid role x) (sends l)).
  { apply filter_In. split; [exact Hin|reflexivity]. }
  rewrite Hs in H. exact H.
Qed.

Lemma flush_timer_kept s s' (f : Timer -> bool) t x :
  flush_timers s' = filter f (flush_timers s) ->
  In t (timers s') -> t_action t = FlushText x -> In t (timers s).
Proof.
  intros Hf Hin Ha. pose proof (in_flush_timers s' t x Hin Ha) as H.
  rewrite Hf in H. apply filter_In in H. destruct H as [H _].
  unfold flush_timers in H. apply filter_In in H. apply H.
Qed.

Lemma texts_from_step (Q : string -> Prop) s e :
  texts_from Q s ->
  (forall raw, e = TextSubmit raw -> trim raw <> "" -> Q (trim raw)) ->
  texts_from Q (step s e).
Proof.
  intros [H1 H2 H3] Hsub.
  destruct (is_text_submit e) eqn:He.
  - destruct e as [| |raw| | | | | | | |]; try discriminate He. clear He.
    specialize (Hsub raw eq_refl). unfold step, handleTextSend.
    destruct (String.eqb_spec (trim raw) "") as [E|E]; [constructor; assumption|].
    specialize (Hsub E).
    destruct (isCallActive s) eqn:Hact.
    + unfold sendTextToVapi. rewrite Hact.
      destruct (vapi s) as [sid|]; [|constructor; assumption].
      constructor; norm; try assumption.
      intros t sid' role x Hin. apply in_app_or in Hin.
      destruct Hin as [Hin|[Hin|[]]]; [exact (H3 _ _ _ _ Hin)|].
      inversion Hin; subst. split; [reflexivity|exact Hsub].
    + pose proof (startCall_frame (set_pendingText (Some (trim raw)) s))
        as (_ & _ & Hp & _ & _ & _ & Ht & _).
      destruct (startCall_log (set_pendingText (Some (trim raw)) s))
        as (l & Hl & Hs & _).
      constructor.
      * rewrite Hp. norm. intros x Hx _. inversion Hx; subst. exact Hsub.
      * rewrite Ht. exact H2.
      * rewrite Hl. norm. intros t sid role x Hin. apply in_app_or in Hin.
        destruct Hin as [Hin|Hin]; [exact (H3 _ _ _ _ Hin)|].
        exfalso. exact (no_send_in _ _ _ _ _ Hs Hin).
  - clear Hsub.
    destruct (step_flush_effect s e He)
      as [Hp [f Hf] Hs _|Hp0 Hp Hf Hem|text Hp0 Hne Hp Hf Hem
          |id t0 text -> Hin0 Hid Hact Hdue Hp Hf Hem];
      constructor; rewrite ?Hp, ?log_step.
    + exact H1.
    + intros t x Hin Ha. exact (H2 t x (flush_timer_kept _ _ f t x Hf Hin Ha) Ha).
    + intros t sid role x Hin. apply in_app_or in Hin.
      destruct Hin as [Hin|Hin]; [exact (H3 _ _ _ _ Hin)|].
      exfalso. exact (no_send_in _ _ _ _ _ Hs Hin).
    + exact H1.
    + intros t x Hin Ha. apply (H2 t x); [|exact Ha].
      apply (flush_timer_kept s (step s e) (fun _ => true) t x);
        [rewrite filter_true; exact Hf|exact Hin|exact Ha].
    + rewrite Hem. intros t sid role x Hin. apply in_app_or in Hin.
      destruct Hin as [Hin|[Hin|[]]]; [exact (H3 _ _ _ _ Hin)|discriminate Hin].
    + intros x Hx. discriminate Hx.
    + intros t x Hin Ha. pose proof (in_flush_timers _ t x Hin Ha) as Hin'.
      rewrite Hf in Hin'. apply in_app_or in Hin'.
      destruct Hin' as [Hin'|[Hin'|[]]].
      * apply (H2 t x); [|exact Ha]. unfold flush_timers in Hin'.
        apply filter_In in Hin'. apply Hin'.
      * subst t. simpl in Ha. inversion Ha; subst. exact (H1 _ Hp0 Hne).
    + rewrite Hem. intros t sid role x Hin. apply in_app_or in Hin.
      destruct Hin as [Hin|[Hin|[Hin|[]]]];
        [exact (H3 _ _ _ _ Hin)|discriminate Hin|discriminate Hin].
    + exact H1.
    + intros t x Hin Ha.
      exact (H2 t x (flush_timer_kept _ _ _ t x Hf Hin Ha) Ha).
    + intros t sid role x Hin. apply in_app_or in Hin.
      destruct Hin as [Hin|Hin]; [exact (H3 _ _ _ _ Hin)|].
      destruct Hem as [Hem|[sid0 Hem]]; rewrite Hem in Hin; [destruct Hin|].
      destruct Hin as [Hin|[]]. inversion Hin; subst.
      split; [reflexivity|]. exact (H2 t0 x Hin0 Hact).
Qed.

Lemma texts_from_run evs :
  forall pre s,
    texts_from (submitted pre) s ->
    texts_from (submitted (pre ++ evs)) (run s evs).
Proof.
  induction evs as [|e evs IH]; intros pre s H.
  - rewrite app_nil_r. exact H.
  - change (run s (e :: evs)) with (run (step s e) evs).
    replace (pre ++ e :: evs) with ((pre ++ [e]) ++ evs)
      by (rewrite <- app_assoc; reflexivity).
    apply IH. apply texts_from_step.
    + apply (texts_from_weaken (submitted pre)); [|exact H].
      intros x (Hx & raw & Hin & Hr). split; [exact Hx|].
      exists raw. split; [apply in_or_app; left; exact Hin|exact Hr].
    + intros raw -> Hne. split; [exact Hne|]. exists raw.
      split; [apply in_or_app; right; left; reflexivity|reflexivity].
Qed.

Lemma texts_from_boot ls : texts_from (submitted []) (boot ls).
Proof.
  unfold boot, blank. unfold_handlers. simpl. split_cases; constructor; simpl;
    intros; try discriminate; try contradiction;
    repeat match goal with
      | H : _ \/ _ |- _ => destruct H as [H|H]; [discriminate H|]
      end; contradiction.
Qed.

(** X13.  Whatever is sent to the instance was typed: in every run from
    page load each [vapi.send] carries the role ['user'] and the trimmed,
    non-empty text of one of the submissions made so far.  The controller
    never sends an empty message nor a text of its own. *)
Theorem only_submitted_text_is_sent
    (ls : Storage) (evs : list Event) (t sid : nat) (role content : string) :
  In (t, VapiSend sid role content) (log (run (boot ls) evs)) ->
  role = "user" /\
  content <> "" /\
  exists raw, In (TextSubmit raw) evs /\ content = trim raw.
Proof.
  intros Hin.
  pose proof (texts_from_run evs [] (boot ls) (texts_from_boot ls)) as H.
  destruct (tf_log _ _ H t sid role content Hin) as [Hr Hs].
  split; [exact Hr|]. exact Hs.
Qed.

(** ** Silence after an assistant update *)

Lemma on_message_other s m :
  isCallActive s = true ->
  is_assistant_update m = true ->
  msg_status m <> "started" ->
  on_message m s =
  set_agentSpeakingTimer (Some (next_timer s))
    (snd (setTimeout BackToListening DEBOUNCE_DELAY s)).
Proof.
  intros Ha Hm Hst. unfold on_message. unfold is_assistant_update in Hm.
  apply andb_prop in Hm. destruct Hm as [H1 H2]. rewrite H1, H2, Ha.
  destruct (String.eqb_spec (msg_status m) "started"); [contradiction|].
  reflexivity.
Qed.

(** X15.  An assistant speech update whose status is not ['started'],
    received during a call, leaves the state shown as it is, where the
    copies of the script without debounce show [listening] at once.  The
    timer it arms does not run before 800 ms have passed.  Fired after
    800 ms in which only quiet events were handled (clicks,
    submissions, the passing of time, settlements other than a failed open
    or start, the start of user speech, messages that are not assistant
    speech updates), it shows [listening], clears [agentSpeakingTimer] and
    is gone. *)
Theorem silence_returns_to_listening
    (s : State) (sid : nat) (m : Message) (mid : list Event) :
  reachable s ->
  isCallActive s = true ->
  sid < next_sid s ->
  is_assistant_update m = true ->
  msg_status m <> "started" ->
  Forall (fun e => quiet e = true) mid ->
  let id := next_timer s in
  let s1 := step s (Transport sid (MessageEv m)) in
  let s2 := run s1 mid in
  let s3 := step s2 (TimerFire id) in
  ui (on_message_undebounced m s) = Listening /\
  ui s1 = ui s /\
  (now s2 < now s + DEBOUNCE_DELAY -> s3 = s2) /\
  (now s + DEBOUNCE_DELAY <= now s2 ->
   ui s3 = Listening /\
   agentSpeakingTimer s3 = None /\
   emitted s2 (TimerFire id) = [(now s2, Render Listening)] /\
   find_timer id (timers s3) = None).
Proof.
  intros Hr Ha Hsid Hm Hst Hmid id s1 s2 s3.
  pose proof (wf_timers_fresh _ (reachable_wf _ Hr)) as Hfresh.
  assert (Hs1 : s1 = set_agentSpeakingTimer (Some id)
                       (snd (setTimeout BackToListening DEBOUNCE_DELAY s))).
  { subst s1. unfold step, dispatch.
    destruct (Nat.ltb_spec sid (next_sid s)) as [_|Hge]; [|lia].
    apply on_message_other; assumption. }
  assert (Ha1 : isCallActive s1 = true) by (rewrite Hs1; exact Ha).
  pose proof (quiet_run mid Hmid s1 Ha1) as Hund. fold s2 in Hund.
  destruct Hund as [Ha2 Hh2 Ht2 _ _ _ _].
  assert (Hfind : find_timer id (timers s2) =
                  Some (mkTimer id (now s + DEBOUNCE_DELAY) BackToListening)).
  { rewrite Ht2, Hs1. norm.
    apply (find_new_timer (mkTimer id (now s + DEBOUNCE_DELAY) BackToListening)).
    exact Hfresh. }
  split.
  { unfold on_message_undebounced. unfold is_assistant_update in Hm.
    apply andb_prop in Hm. destruct Hm as [H1 H2]. rewrite H1, H2, Ha.
    destruct (String.eqb_spec (msg_status m) "started"); [contradiction|].
    reflexivity. }
  split; [rewrite Hs1; reflexivity|].
  split.
  - intros Hlt. subst s3. unfold step. rewrite Hfind. cbn [t_due].
    destruct (Nat.leb_spec (now s + DEBOUNCE_DELAY) (now s2)); [lia|reflexivity].
  - intros Hle.
    assert (Hs3 : s3 = applyState Listening
                         (set_agentSpeakingTimer None
                            (set_timers
                               (filter (fun t' => negb (Pos.eqb (t_id t') id)) (timers s2))
                               s2))).
    { subst s3. unfold step. rewrite Hfind. cbn [t_due t_action].
      destruct (Nat.leb_spec (now s + DEBOUNCE_DELAY) (now s2)); [|lia].
      unfold run_timer. norm. rewrite Ha2. reflexivity. }
    split; [rewrite Hs3; reflexivity|].
    split; [rewrite Hs3; reflexivity|].
    split.
    + apply emitted_eq. fold s3. rewrite Hs3. reflexivity.
    + rewrite Hs3. norm. apply find_timer_filter_same.
Qed.

(** ** The index page *)

Ltac unfold_index :=
  cbv [Index.showState Index.update Index.Ref_eqb Element.visible negb].

Lemma showState_visible name d r :
  Element.visible (Index.showState name d r) = Index.Ref_eqb name r.
Proof.
  destruct name, r; unfold_index; class_lists; reflexivity.
Qed.

(** X16.  [showState] leaves exactly the panel it names on display,
    whatever was shown before, and showing the same panel again changes
    nothing. *)
Theorem showState_shows_one_panel (name : Index.Ref) (d : Index.Dom) :
  let d' := Index.showState name d in
  (forall r, Element.visible (d' r) = Index.Ref_eqb name r) /\
  List.length (filter (fun b : bool => b)
                 [Element.visible (d' Index.stateLoading);
                  Element.visible (d' Index.stateDisconnected);
                  Element.visible (d' Index.stateConnected)]) = 1 /\
  (forall r, Index.showState name d' r = d' r).
Proof.
  split; [intros r; apply showState_visible|]. split.
  - rewrite !showState_visible. destruct name; reflexivity.
  - intros r. destruct name, r; unfold_index; class_lists; reflexivity.
Qed.

Lemma emit_changes e s : emit e s <> s.
Proof.
  intros H. assert (Hl : List.length (log (emit e s)) = List.length (log s))
    by (rewrite H; reflexivity).
  simpl in Hl. rewrite length_app in Hl. simpl in Hl. lia.
Qed.

(** X17.  The two pages do not send a visitor back and forth.  With the
    same answer from the backend on both, the index page leaves for
    [voice.html] exactly when the calendar is connected and the address
    has no [reconnect] parameter, and the voice page leaves for
    [index.html] exactly when it is not connected; so when the index page
    leaves, the guard of the voice page stays, and when the guard leaves,
    the index page stays and shows the panel for connecting.  A failed
    status request moves neither page. *)
Theorem guards_do_not_bounce
    (r : option bool) (isReconnect : bool) (p : Index.Dom) (s sv : State) :
  let index := checkAuthStatus_settled r isReconnect p s in
  let voice := guardAuth_settled r sv in
  (snd index = emit (Navigate "voice.html") s <->
   r = Some true /\ isReconnect = false) /\
  (snd index <> s -> snd index = emit (Navigate "voice.html") s) /\
  (voice = emit (Navigate "index.html") sv <-> r = Some false) /\
  (voice <> sv -> voice = emit (Navigate "index.html") sv) /\
  (snd index <> s -> voice = sv) /\
  (voice <> sv ->
   snd index = s /\
   forall x, Element.visible (fst index x) = Index.Ref_eqb Index.stateDisconnected x) /\
  (r = None -> snd index = s /\ voice = sv).
Proof.
  unfold checkAuthStatus_settled, guardAuth_settled.
  destruct r as [[|]|], isReconnect; cbn [negb fst snd];
    repeat match goal with
      | |- _ /\ _ => split
      | |- _ <-> _ => split
      end;
    intros;
    repeat match goal with
      | H : _ /\ _ |- _ => destruct H
      | H : ?x <> ?x |- _ => exfalso; apply H; reflexivity
      | H : ?x = emit _ ?x |- _ => exfalso; exact (emit_changes _ _ (eq_sym H))
      end;
    try discriminate; try reflexivity; try apply showState_visible;
    split; intros; first [reflexivity | apply showState_visible].
Qed.

(** ** The transition table *)

Ltac eqb_facts :=
  repeat match goal with
    | H : _ && _ = true |- _ => apply andb_prop in H; destruct H
    | H : String.eqb _ _ = true |- _ => apply String.eqb_eq in H
    | H : String.eqb _ _ = false |- _ => apply String.eqb_neq in H
    end.

(** X18.  Every handler applies at most one state, and which one is
    fixed by the event: a step that renders [u] does so once, at the time
    of the event, leaves [u] on display and is one of the transitions of
    the table.  In particular [idle] is never applied again after page
    load, [call-ended] is applied by ['call-end'] only, and [call-error]
    only by ['error'], a failed open or a rejected start. *)
Theorem render_follows_transition_table
    (s : State) (e : Event) (t : nat) (u : UIState) :
  In (t, Render u) (emitted s e) ->
  transition s e u /\
  ui (step s e) = u /\
  filter is_render (emitted s e) = [(now s, Render u)].
Proof.
  unfold emitted.
  destruct e as [| |raw|k r|k granted|k r opens|k ok|k r|sid te|id|dt];
    unfold_handlers; simpl; split_cases;
    rewrite <- ?app_assoc, ?skipn_app, ?skipn_all, ?Nat.sub_diag; simpl;
    intros Hin;
    repeat (destruct Hin as [Hin|Hin]; [try discriminate Hin|]);
    try contradiction;
    inversion Hin; subst; clear Hin;
    (split; [|split; reflexivity]);
    eqb_facts; simpl; unfold is_assistant_update; eauto 10.
  all: do 2 eexists; split; [reflexivity|]; repeat split; try assumption;
    match goal with
    | H1 : msg_type _ = _, H2 : msg_role _ = _ |- _ => rewrite H1, H2; reflexivity
    end.
Qed.

(** Every message sent is sent by a submission handled during a call or
    by the callback of a flush timer that is due. *)
Lemma send_cause
    (s : State) (e : Event) (t sid : nat) (role content : string) :
  In (t, VapiSend sid role content) (emitted s e) ->
  vapi s = Some sid /\
  isCallActive s = true /\
  emitted s e = [(now s, VapiSend sid "user" content)] /\
  ((exists raw, e = TextSubmit raw /\ content = trim raw) \/
   (exists id tm,
      e = TimerFire id /\ find_timer id (timers s) = Some tm /\
      t_action tm = FlushText content /\ t_due tm <= now s)).
Proof.
  intros Hin.
  destruct e as [| |raw|k r|k granted|k r opens|k ok|k r|sid' te|id|dt];
    try (not_emitted Hin).
  - revert Hin. unfold emitted, step, handleTextSend.
    destruct (String.eqb (trim raw) ""); [rewrite skipn_all; intros []|].
    destruct (isCallActive s) eqn:Ha; [|intros Hin; not_emitted Hin].
    unfold sendTextToVapi. rewrite Ha.
    destruct (vapi s) as [sid0|] eqn:Hv; [|rewrite skipn_all; intros []].
    cbn [negb]. norm. rewrite skipn_app, skipn_all, Nat.sub_diag. simpl.
    intros [Hin|[]]. inversion Hin; subst.
    repeat split. left. exists raw. split; reflexivity.
  - revert Hin. unfold emitted, step.
    destruct (find_timer id (timers s)) as [tm|] eqn:Hf; [|rewrite skipn_all; intros []].
    destruct (Nat.leb_spec (t_due tm) (now s)) as [Hdue|Hdue];
      [|rewrite skipn_all; intros []].
    unfold run_timer. destruct (t_action tm) as [text|] eqn:Hact.
    + unfold sendTextToVapi. norm.
      destruct (vapi s) as [sid0|] eqn:Hv; [|rewrite skipn_all; intros []].
      destruct (isCallActive s) eqn:Ha; [|rewrite skipn_all; intros []].
      cbn [negb]. norm. rewrite skipn_app, skipn_all, Nat.sub_diag. simpl.
      intros [Hin|[]]. inversion Hin; subst.
      repeat split. right. exists id, tm. repeat split; assumption.
    + norm. destruct (isCallActive s); norm;
        rewrite ?skipn_app, skipn_all, ?Nat.sub_diag; simpl; intros Hin;
        repeat (destruct Hin as [Hin|Hin]; [discriminate Hin|]); contradiction.
Qed.

(** X19.  A message goes to the instance held in [vapi], while the call
    is marked active, and only at two moments: when a non-blank text is
    submitted, or when the timer armed for a queued text fires once it is
    due.  No other handler sends anything, and nothing is ever sent to an
    instance other than the current one. *)
Theorem send_only_to_current_instance
    (s : State) (e : Event) (t sid : nat) (role content : string) :
  In (t, VapiSend sid role content) (emitted s e) ->
  vapi s = Some sid /\
  isCallActive s = true /\
  emitted s e = [(now s, VapiSend sid "user" content)] /\
  ((exists raw, e = TextSubmit raw /\ content = trim raw) \/
   (exists id tm,
      e = TimerFire id /\ find_timer id (timers s) = Some tm /\
      t_action tm = FlushText content /\ t_due tm <= now s)).
Proof. exact (send_cause s e t sid role content). Qed.
(** ** Timers across a step *)

Lemma next_monotone s e :
  (next_timer s <= next_timer (step s e))%positive /\
  next_sid s <= next_sid (step s e).
Proof.
  destruct e; unfold_handlers; simpl; split_cases; simpl; split; lia.
Qed.

Lemma next_monotone_run evs :
  forall s,
    (next_timer s <= next_timer (run s evs))%positive /\
    next_sid s <= next_sid (run s evs).
Proof.
  induction evs as [|e evs IH]; intros s.
  - simpl. split; lia.
  - change (run s (e :: evs)) with (run (step s e) evs).
    destruct (next_monotone s e), (IH (step s e)). split; lia.
Qed.

Lemma wf_run s evs : wf s -> wf (run s evs).
Proof.
  revert s. induction evs as [|e evs IH]; intros s H; [exact H|].
  change (run s (e :: evs)) with (run (step s e) evs). apply IH, wf_step, H.
Qed.

Lemma pending_handle_fresh id tm s :
  wf s -> find_timer id (timers s) = Some tm -> (id < next_timer s)%positive.
Proof.
  intros Hwf Hf. destruct (find_timer_In _ _ _ Hf) as [Hin Hid].
  pose proof (wf_timers_fresh _ Hwf) as Hall. rewrite Forall_forall in Hall.
  specialize (Hall _ Hin). simpl in Hall. rewrite Hid in Hall. exact Hall.
Qed.

(** What one step can do to the pending timers and to the stored handle:
    nothing, arm a fresh timer, clear the timer whose handle is stored, or
    run a timer that is due. *)
Lemma timers_step s e :
  (timers (step s e) = timers s \/
   (exists d a, timers (step s e) = timers s ++ [mkTimer (next_timer s) d a]) \/
   (exists h, agentSpeakingTimer s = Some h /\
      timers (step s e) = filter (fun t => negb (Pos.eqb (t_id t) h)) (timers s)) \/
   (exists id t,
      e = TimerFire id /\ find_timer id (timers s) = Some t /\
      t_due t <= now s /\
      timers (step s e) = filter (fun t' => negb (Pos.eqb (t_id t') id)) (timers s))) /\
  (agentSpeakingTimer (step s e) = agentSpeakingTimer s \/
   agentSpeakingTimer (step s e) = None \/
   agentSpeakingTimer (step s e) = Some (next_timer s)).
Proof.
  destruct e as [| |raw|k r|k granted|k r opens|k ok|k r|sid te|id|dt].
  10: {
    unfold step. destruct (find_timer id (timers s)) as [t|] eqn:Hf;
      [|split; left; reflexivity].
    destruct (Nat.leb_spec (t_due t) (now s)) as [Hdue|Hdue];
      [|split; left; reflexivity].
    split.
    - right; right; right. exists id, t. repeat split; try assumption.
      unfold run_timer, sendTextToVapi. norm.
      destruct (t_action t); norm;
        [destruct (vapi s); [destruct (isCallActive s)|]|destruct (isCallActive s)];
        reflexivity.
    - unfold run_timer, sendTextToVapi. norm.
      destruct (t_action t); norm;
        [destruct (vapi s); [destruct (isCallActive s)|]; left; reflexivity
        |destruct (isCallActive s); right; left; reflexivity]. }
  all: unfold_handlers; simpl; split_cases; simpl;
    (split;
     [first [ left; reflexivity
            | right; left; do 2 eexists; reflexivity
            | right; right; left; eexists; split; reflexivity ]
     |first [ left; reflexivity
            | left; assumption
            | right; left; reflexivity
            | right; right; reflexivity ]]).
Qed.

(** A pending timer whose handle is not the stored one stays pending
    until its callback runs. *)
Lemma pending_timer_step id tm s e :
  wf s ->
  find_timer id (timers s) = Some tm ->
  agentSpeakingTimer s <> Some id ->
  fires id s e = false ->
  find_timer id (timers (step s e)) = Some tm /\
  agentSpeakingTimer (step s e) <> Some id.
Proof.
  intros Hwf Hf Hh Hfire.
  pose proof (pending_handle_fresh _ _ _ Hwf Hf) as Hlt.
  destruct (timers_step s e) as [Ht Hh'].
  split.
  - destruct Ht as [E|[(d & a & E)|[(h & Hs & E)|(id' & t & He & Hf' & Hdue & E)]]];
      rewrite E.
    + exact Hf.
    + rewrite find_timer_app, Hf. reflexivity.
    + rewrite find_timer_filter_other; [exact Hf|congruence].
    + rewrite find_timer_filter_other; [exact Hf|].
      intros Heq. subst id' e. simpl in Hfire.
      rewrite Pos.eqb_refl, Hf in Hfire. rewrite Hf in Hf'. inversion Hf'; subst t.
      apply Nat.leb_le in Hdue. rewrite Hdue in Hfire. discriminate Hfire.
  - destruct Hh' as [E|[E|E]]; rewrite E; [exact Hh|discriminate|].
    intros H. inversion H. lia.
Qed.

Lemma pending_timer_run id tm mid :
  forall s,
    wf s ->
    find_timer id (timers s) = Some tm ->
    agentSpeakingTimer s <> Some id ->
    fired id s mid = false ->
    find_timer id (timers (run s mid)) = Some tm.
Proof.
  induction mid as [|e mid IH]; intros s Hwf Hf Hh Hfired; [exact Hf|].
  change (run s (e :: mid)) with (run (step s e) mid).
  simpl in Hfired. apply orb_false_elim in Hfired. destruct Hfired as [H1 H2].
  destruct (pending_timer_step id tm s e Hwf Hf Hh H1) as [Hf' Hh'].
  apply IH; [apply wf_step; exact Hwf|exact Hf'|exact Hh'|exact H2].
Qed.

(** ** The settle timer from call start to callback *)

Lemma flush_callback s id tm text :
  find_timer id (timers s) = Some tm ->
  t_action tm = FlushText text ->
  t_due tm <= now s ->
  step s (TimerFire id) =
  sendTextToVapi text
    (set_timers (filter (fun t' => negb (Pos.eqb (t_id t') id)) (timers s)) s).
Proof.
  intros Hf Ha Hd. unfold step. rewrite Hf. apply Nat.leb_le in Hd. rewrite Hd.
  unfold run_timer. rewrite Ha. reflexivity.
Qed.

Lemma flush_callback_effect s id tm text :
  find_timer id (timers s) = Some tm ->
  t_action tm = FlushText text ->
  t_due tm <= now s ->
  emitted s (TimerFire id) =
    match vapi s with
    | Some sid => if isCallActive s then [(now s, VapiSend sid "user" text)] else []
    | None => []
    end /\
  pendingText (step s (TimerFire id)) = pendingText s /\
  find_timer id (timers (step s (TimerFire id))) = None /\
  (vapi s = None \/ isCallActive s = false ->
   step s (TimerFire id) =
     set_timers (filter (fun t' => negb (Pos.eqb (t_id t') id)) (timers s)) s /\
   log (step s (TimerFire id)) = log s).
Proof.
  intros Hf Ha Hd. pose proof (flush_callback s id tm text Hf Ha Hd) as Hs.
  split; [|split; [|split]].
  - apply emitted_eq. rewrite Hs. unfold sendTextToVapi. norm.
    destruct (vapi s); [destruct (isCallActive s)|]; norm;
      rewrite ?app_nil_r; reflexivity.
  - rewrite Hs. unfold sendTextToVapi. norm.
    destruct (vapi s); [destruct (isCallActive s)|]; reflexivity.
  - rewrite Hs. unfold sendTextToVapi. norm.
    destruct (vapi s); [destruct (isCallActive s)|]; norm;
      apply find_timer_filter_same.
  - intros Hoff. rewrite Hs.
    rewrite sendTextToVapi_noop by exact Hoff. split; reflexivity.
Qed.

Lemma timer_gone id s post :
  (id < next_timer s)%positive ->
  find_timer id (timers s) = None ->
  find_timer id (timers (run s post)) = None /\
  step (run s post) (TimerFire id) = run s post.
Proof.
  intros Hlt Hnone.
  pose proof (cancelled_for_good id s post Hlt Hnone) as H.
  split; [exact H|]. unfold step. rewrite H. reflexivity.
Qed.

(** A call start that finds text in the slot shows [listening], empties
    the slot and arms the settle timer, which then stays pending until its
    callback runs. *)
Lemma flush_armed s sid text mid :
  wf s ->
  pendingText s = Some text ->
  text <> "" ->
  sid < next_sid s ->
  let id := next_timer s in
  let s1 := step s (Transport sid CallStart) in
  fired id s1 mid = false ->
  emitted s (Transport sid CallStart) =
    [(now s, Render Listening); (now s, SetTimeout id 600)] /\
  ui s1 = Listening /\
  isCallActive s1 = true /\
  pendingText s1 = None /\
  find_timer id (timers (run s1 mid)) =
    Some (mkTimer id (now s + 600) (FlushText text)) /\
  wf (run s1 mid).
Proof.
  intros Hwf Hp Hne Hsid id s1 Hfired.
  assert (Hs1 : s1 = snd (setTimeout (FlushText text) SETTLE_DELAY
         (set_pendingText None (applyState Listening (set_isCallActive true s))))).
  { subst s1. unfold step. apply Nat.ltb_lt in Hsid. rewrite Hsid.
    apply on_call_start_flush; assumption. }
  assert (Hwf1 : wf s1) by (apply wf_step; exact Hwf).
  assert (Hf1 : find_timer id (timers s1) =
                Some (mkTimer id (now s + 600) (FlushText text))).
  { rewrite Hs1. norm.
    apply (find_new_timer (mkTimer id (now s + 600) (FlushText text))).
    exact (wf_timers_fresh _ Hwf). }
  assert (Hh1 : agentSpeakingTimer s1 <> Some id).
  { rewrite Hs1. norm. intros H. pose proof (wf_handle_fresh _ Hwf _ H). subst id. lia. }
  split; [apply emitted_eq; fold s1; rewrite Hs1; norm; rewrite <- app_assoc; reflexivity|].
  split; [rewrite Hs1; reflexivity|].
  split; [rewrite Hs1; reflexivity|].
  split; [rewrite Hs1; reflexivity|].
  split; [apply pending_timer_run; assumption|].
  apply wf_run. exact Hwf1.
Qed.


(** ** Text queued before the call is live: from submission to flush *)


(** C9, as the code has it.  Neither the ['error'] handler, nor the
    ['call-end'] handler, nor the [catch] block of [startCall] touches
    [pendingText]; whatever the event, a non-empty slot is emptied only by
    the ['call-start'] handler.  Consequently, when text is submitted
    while no call is active and the session cannot be opened, the
    controller shows [call-error] with the text still queued; it stays
    queued through whatever happens next short of a call start or another
    submission, and the next ['call-start'] of any instance takes it: it
    empties the slot and arms the settle timer for the text, which stays
    pending until its callback runs.  When the callback runs, 600 ms or
    more after that call start, the text is sent, once, to the instance
    then held if the call is then marked active; otherwise nothing is
    sent, and either way the slot is left as it is and the timer is gone,
    so a text that is not sent then is never sent. *)
Theorem pendingText_survives_call_error :
  (forall (s : State) (sid : nat),
     pendingText (step s (Transport sid ErrorEv)) = pendingText s /\
     pendingText (step s (Transport sid CallEnd)) = pendingText s) /\
  (forall (s : State) (k : nat) (r : option JsValue),
     pendingText (step s (SessionSettled k r false)) = pendingText s /\
     pendingText (step s (StartSettled k false)) = pendingText s) /\
  (forall (s : State) (e : Event),
     pendingText s <> None ->
     pendingText (step s e) = None ->
     exists sid, e = Transport sid CallStart) /\
  (forall (s : State) (raw : string) (r : option JsValue) (pre mid : list Event)
          (sid : nat),
     reachable s ->
     isCallActive s = false ->
     trim raw <> "" ->
     Forall (fun e => is_call_start e = false /\ is_text_submit e = false) pre ->
     let text := trim raw in
     let s1 := step s (TextSubmit raw) in
     let s2 := step s1 (SessionSettled (next_task s) r false) in
     let s3 := run s2 pre in
     let id := next_timer s3 in
     let s4 := step s3 (Transport sid CallStart) in
     let s5 := run s4 mid in
     let s6 := step s5 (TimerFire id) in
     sid < next_sid s3 ->
     fired id s4 mid = false ->
     pendingText s1 = Some text /\
     ui s2 = CallError /\
     pendingText s2 = Some text /\
     pendingText s3 = Some text /\
     emitted s3 (Transport sid CallStart) =
       [(now s3, Render Listening); (now s3, SetTimeout id 600)] /\
     pendingText s4 = None /\
     find_timer id (timers s5) =
       Some (mkTimer id (now s3 + 600) (FlushText text)) /\
     (now s3 + 600 <= now s5 ->
      emitted s5 (TimerFire id) =
        match vapi s5 with
        | Some sid' =>
            if isCallActive s5 then [(now s5, VapiSend sid' "user" text)] else []
        | None => []
        end /\
      pendingText s6 = pendingText s5 /\
      forall post : list Event,
        find_timer id (timers (run s6 post)) = None /\
        step (run s6 post) (TimerFire id) = run s6 post)).
Proof.
  split; [|split; [|split]].
  - intros s sid. split.
    + destruct (pendingText_step s (Transport sid ErrorEv))
        as [E|[(sid' & E & _)|(raw & E & _)]]; [exact E|discriminate E..].
    + destruct (pendingText_step s (Transport sid CallEnd))
        as [E|[(sid' & E & _)|(raw & E & _)]]; [exact E|discriminate E..].
  - intros s k r. split.
    + destruct (pendingText_step s (SessionSettled k r false))
        as [E|[(sid' & E & _)|(raw & E & _)]]; [exact E|discriminate E..].
    + destruct (pendingText_step s (StartSettled k false))
        as [E|[(sid' & E & _)|(raw & E & _)]]; [exact E|discriminate E..].
  - intros s e Hsome Hnone.
    destruct (pendingText_step s e) as [E|[(sid & E & _)|(raw & _ & _ & E)]].
    + congruence.
    + exists sid. exact E.
    + congruence.
  - intros s raw r pre mid sid Hr Ha Hne Hpre text s1 s2 s3 id s4 s5 s6 Hsid Hfired.
    assert (Hs1 : s1 = startCall (set_pendingText (Some text) s))
      by (apply handleTextSend_queues; assumption).
    assert (Hp1 : pendingText s1 = Some text)
      by (rewrite Hs1, startCall_pendingText; reflexivity).
    assert (Hf : find_task (next_task s) (tasks s1) =
                 Some (AwaitSession (fst (getOrCreateUserId
                   (applyState Connecting (set_pendingText (Some text) s)))))).
    { rewrite Hs1.
      apply (startCall_suspends (set_pendingText (Some text) s)).
      exact (wf_tasks_fresh _ (reachable_wf _ Hr)). }
    assert (Hui : ui s2 = CallError)
      by (apply (session_open_failure_ui s1 _ _ r Hf)).
    assert (Hp2 : pendingText s2 = Some text).
    { subst s2.
      destruct (pendingText_step s1 (SessionSettled (next_task s) r false))
        as [E|[(sid' & E & _)|(raw' & E & _)]]; [congruence|discriminate E..]. }
    assert (Hp3 : pendingText s3 = Some text)
      by (subst s3; rewrite pendingText_run; assumption).
    assert (Hr3 : reachable s3).
    { subst s3 s2 s1. apply reachable_run. repeat constructor. exact Hr. }
    pose proof (reachable_wf _ Hr3) as Hwf3.
    destruct (flush_armed s3 sid text mid Hwf3 Hp3 Hne Hsid Hfired)
      as (Hem & _ & _ & Hp4 & Hf5 & Hwf5).
    fold id s4 s5 in Hem, Hp4, Hf5, Hwf5.
    split; [exact Hp1|]. split; [exact Hui|]. split; [exact Hp2|].
    split; [exact Hp3|]. split; [exact Hem|]. split; [exact Hp4|].
    split; [exact Hf5|].
    intros Hdue.
    destruct (flush_callback_effect s5 id _ text Hf5 eq_refl Hdue)
      as (He & Hp6 & Hgone & _).
    fold s6 in Hp6, Hgone.
    split; [exact He|]. split; [exact Hp6|].
    intros post. apply timer_gone; [|exact Hgone].
    pose proof (pending_handle_fresh _ _ _ Hwf5 Hf5) as Hlt.
    destruct (next_monotone s5 (TimerFire id)) as [Hm _]. fold s6 in Hm. lia.
Qed.

Lemma slot_stays_empty evs :
  forall s,
    pendingText s = None ->
    Forall (fun e => is_text_submit e = false) evs ->
    pendingText (run s evs) = None.
Proof.
  induction evs as [|e evs IH]; intros s Hp Hev; [exact Hp|].
  change (run s (e :: evs)) with (run (step s e) evs).
  inversion Hev as [|? ? He Hrest]; subst.
  apply IH; [|exact Hrest].
  destruct (pendingText_step s e) as [E|[(sid & _ & E)|(raw & -> & _)]];
    [congruence|exact E|discriminate He].
Qed.

(** C10, as the code has it.  [sendTextToVapi] returns without doing
    anything when [vapi] is [null] or the call is not marked active.  The
    callback of a settle timer that is due therefore sends nothing exactly
    when, at that moment, no instance is held or no call is marked active:
    it then only removes its own timer, logs nothing, leaves the slot as it
    is and the timer is never pending again, so the text is not queued
    again.  That is the case whenever a ['call-end'] or an ['error'] of a
    constructed instance was handled within the delay and no call has
    started since.  The guard reads the reference and the flag of the
    page, not the session that queued the text: when a call is marked
    active and an instance held at that moment, the text is sent to that
    instance. *)
Theorem sendTextToVapi_noop_without_call :
  (forall (s : State) (text : string),
     vapi s = None \/ isCallActive s = false ->
     sendTextToVapi text s = s) /\
  (forall (s : State) (text : string) (sid : nat) (mid : list Event),
     reachable s ->
     pendingText s = Some text ->
     text <> "" ->
     sid < next_sid s ->
     let id := next_timer s in
     let s1 := step s (Transport sid CallStart) in
     let s2 := run s1 mid in
     let s3 := step s2 (TimerFire id) in
     fired id s1 mid = false ->
     now s + 600 <= now s2 ->
     emitted s2 (TimerFire id) =
       match vapi s2 with
       | Some sid' =>
           if isCallActive s2 then [(now s2, VapiSend sid' "user" text)] else []
       | None => []
       end /\
     (vapi s2 = None \/ isCallActive s2 = false ->
      s3 = set_timers (filter (fun t => negb (Pos.eqb (t_id t) id)) (timers s2)) s2 /\
      log s3 = log s2 /\
      pendingText s3 = pendingText s2 /\
      forall post : list Event,
        find_timer id (timers (run s3 post)) = None /\
        step (run s3 post) (TimerFire id) = run s3 post)) /\
  (forall (s : State) (text : string) (sid sid' : nat) (te : TransportEvent)
          (mid1 mid2 : list Event),
     reachable s ->
     pendingText s = Some text ->
     text <> "" ->
     sid < next_sid s ->
     let id := next_timer s in
     let s1 := step s (Transport sid CallStart) in
     let mid := mid1 ++ Transport sid' te :: mid2 in
     let s2 := run s1 mid in
     let s3 := step s2 (TimerFire id) in
     te = CallEnd \/ te = ErrorEv ->
     sid' < next_sid (run s1 mid1) ->
     Forall (fun e => is_call_start e = false) mid2 ->
     fired id s1 mid = false ->
     now s + 600 <= now s2 ->
     isCallActive s2 = false /\
     emitted s2 (TimerFire id) = [] /\
     log s3 = log s2 /\
     pendingText s3 = pendingText s2 /\
     (Forall (fun e => is_text_submit e = false) mid -> pendingText s3 = None)).
Proof.
  split; [exact sendTextToVapi_noop|]. split.
  - intros s text sid mid Hr Hp Hne Hsid id s1 s2 s3 Hfired Hdue.
    pose proof (reachable_wf _ Hr) as Hwf.
    destruct (flush_armed s sid text mid Hwf Hp Hne Hsid Hfired)
      as (_ & _ & _ & _ & Hf2 & Hwf2).
    fold id s1 s2 in Hf2, Hwf2.
    destruct (flush_callback_effect s2 id _ text Hf2 eq_refl Hdue)
      as (He & Hp3 & Hgone & Hoff).
    fold s3 in Hp3, Hgone, Hoff.
    split; [exact He|].
    intros Hno. destruct (Hoff Hno) as [Hs3 Hlog].
    split; [exact Hs3|]. split; [exact Hlog|]. split; [exact Hp3|].
    intros post. apply timer_gone; [|exact Hgone].
    pose proof (pending_handle_fresh _ _ _ Hwf2 Hf2) as Hlt.
    destruct (next_monotone s2 (TimerFire id)) as [Hm _]. fold s3 in Hm. lia.
  - intros s text sid sid' te mid1 mid2 Hr Hp Hne Hsid id s1 mid s2 s3
           Hte Hsid' Hmid2 Hfired Hdue.
    pose proof (reachable_wf _ Hr) as Hwf.
    destruct (flush_armed s sid text mid Hwf Hp Hne Hsid Hfired)
      as (_ & _ & _ & Hp1 & Hf2 & Hwf2).
    fold id s1 s2 in Hp1, Hf2, Hwf2.
    destruct (flush_callback_effect s2 id _ text Hf2 eq_refl Hdue)
      as (He & Hp3 & _ & Hoff).
    fold s3 in Hp3, Hoff.
    assert (Hrun : s2 = run (step (run s1 mid1) (Transport sid' te)) mid2).
    { subst s2 mid. unfold run. rewrite fold_left_app. reflexivity. }
    assert (Hina : isCallActive s2 = false).
    { rewrite Hrun. apply inactive_run; [|exact Hmid2].
      unfold step. apply Nat.ltb_lt in Hsid'. rewrite Hsid'.
      destruct Hte as [-> | ->]; unfold dispatch, on_call_end, on_error; reflexivity. }
    destruct (Hoff (or_intror Hina)) as [_ Hlog].
    split; [exact Hina|].
    split.
    { rewrite He. destruct (vapi s2); [rewrite Hina|]; reflexivity. }
    split; [exact Hlog|]. split; [exact Hp3|].
    intros Hsub. rewrite Hp3. apply slot_stays_empty; assumption.
Qed.

(** ** The debounce window *)

Lemma calm_no_listening s e :
  disturbs s e = false ->
  filter is_listening_render (emitted s e) = [] /\
  (ui s <> Listening -> ui (step s e) <> Listening).
Proof.
  intros Hd.
  assert (Hsame : step s e = s ->
            filter is_listening_render (emitted s e) = [] /\
            (ui s <> Listening -> ui (step s e) <> Listening)).
  { intros E. rewrite (emitted_unchanged s e E), E. split; [reflexivity|auto]. }
  destruct e as [| |raw|k r|k granted|k r opens|k ok|k r|sid te|id|dt].
  9: {
    simpl in Hd.
    destruct (Nat.ltb sid (next_sid s)) eqn:Hreg;
      [|apply Hsame; unfold step; rewrite Hreg; reflexivity].
    assert (Hst : step s (Transport sid te) = dispatch te s)
      by (unfold step; rewrite Hreg; reflexivity).
    simpl in Hd.
    destruct te as [| | | |m|]; try discriminate Hd.
    - unfold emitted. rewrite Hst. unfold dispatch, on_call_end, cancel_agentSpeakingTimer.
      norm. destruct (agentSpeakingTimer s); norm;
        rewrite <- ?app_assoc, skipn_app, skipn_all, Nat.sub_diag;
        split; [reflexivity|discriminate|reflexivity|discriminate].
    - unfold emitted. rewrite Hst. unfold dispatch, on_speech_start.
      destruct (isCallActive s); norm;
        rewrite ?skipn_app, skipn_all, ?Nat.sub_diag;
        split; [reflexivity|discriminate|reflexivity|auto].
    - unfold emitted. rewrite Hst. unfold dispatch, on_speech_end.
      rewrite Hd. rewrite skipn_all. split; [reflexivity|auto].
    - unfold emitted. rewrite Hst. unfold dispatch, on_message.
      unfold is_assistant_update in Hd.
      destruct (isCallActive s), (String.eqb (msg_type m) "speech-update"),
        (String.eqb (msg_role m) "assistant"),
        (String.eqb (msg_status m) "started"); simpl in Hd; try discriminate Hd;
        cbn [andb]; rewrite ?skipn_all; try (split; [reflexivity|auto]).
      unfold cancel_agentSpeakingTimer. norm.
      destruct (agentSpeakingTimer s); norm;
        rewrite <- ?app_assoc, skipn_app, skipn_all, Nat.sub_diag;
        split; [reflexivity|discriminate|reflexivity|discriminate]. }
  9: {
    simpl in Hd. unfold emitted, step.
    destruct (find_timer id (timers s)) as [t|] eqn:Hf; [|rewrite skipn_all; split; [reflexivity|auto]].
    destruct (Nat.leb (t_due t) (now s)); [|rewrite skipn_all; split; [reflexivity|auto]].
    unfold run_timer, sendTextToVapi, is_flush in *.
    destruct (t_action t); norm.
    - destruct (vapi s); [destruct (isCallActive s)|]; cbn [negb]; norm;
        rewrite ?skipn_app, skipn_all, ?Nat.sub_diag; split; try reflexivity; auto.
    - simpl in Hd. rewrite Hd. rewrite skipn_all. split; [reflexivity|auto]. }
  all: clear Hsame; revert Hd; unfold emitted, disturbs; unfold_handlers; simpl;
    split_cases;
    rewrite <- ?app_assoc, ?skipn_app, ?skipn_all, ?Nat.sub_diag; simpl;
    intros Hd; try discriminate Hd;
    (split; [reflexivity|intros Hu; first [exact Hu|discriminate]]).
Qed.

Lemma calm_pending id tm s e :
  is_flush tm = false ->
  disturbs s e = false ->
  ends_window e = false ->
  isCallActive s = true ->
  agentSpeakingTimer s = Some id ->
  find_timer id (timers s) = Some tm ->
  isCallActive (step s e) = true /\
  agentSpeakingTimer (step s e) = Some id /\
  find_timer id (timers (step s e)) = Some tm.
Proof.
  intros Htm Hd Hw Ha Hh Hf.
  assert (Hsame : step s e = s ->
            isCallActive (step s e) = true /\
            agentSpeakingTimer (step s e) = Some id /\
            find_timer id (timers (step s e)) = Some tm).
  { intros E. rewrite E. repeat split; assumption. }
  destruct (quiet e) eqn:Hq.
  { destruct (quiet_step s e Hq Ha) as [Ha' Hh' Ht' _ _ _ _].
    rewrite Ha', Hh', Ht'. repeat split; assumption. }
  destruct e as [| |raw|k r|k granted|k r opens|k ok|k r|sid te|id'|dt];
    try discriminate Hq.
  - (* a failed open *)
    simpl in Hq, Hd. subst opens. simpl in Hd. apply Hsame. unfold step.
    destruct (find_task k (tasks s)) as [[| | | |]|]; try reflexivity; discriminate Hd.
  - (* a rejected start *)
    simpl in Hq, Hd. subst ok. simpl in Hd. apply Hsame. unfold step.
    destruct (find_task k (tasks s)) as [[| | | |]|]; try reflexivity; discriminate Hd.
  - (* events of an instance *)
    simpl in Hd.
    destruct (Nat.ltb sid (next_sid s)) eqn:Hreg;
      [|apply Hsame; unfold step; rewrite Hreg; reflexivity].
    simpl in Hd.
    destruct te as [| | | |m|]; try discriminate Hd; try discriminate Hq;
      try discriminate Hw.
    + rewrite Ha in Hd. discriminate Hd.
    + simpl in Hq, Hw. rewrite Hw in Hq. discriminate Hq.
  - (* a timer callback *)
    simpl in Hd. unfold step.
    destruct (find_timer id' (timers s)) as [t|] eqn:Hf';
      [|repeat split; assumption].
    destruct (Nat.leb (t_due t) (now s)) eqn:Hdue;
      [|repeat split; assumption].
    rewrite Ha in Hd. simpl in Hd. rewrite andb_true_r in Hd.
    apply negb_false_iff in Hd.
    assert (Hne : id' <> id).
    { intros ->. rewrite Hf in Hf'. inversion Hf'; subst t. congruence. }
    unfold is_flush in Hd. unfold run_timer.
    destruct (t_action t) as [text|]; [|discriminate Hd].
    unfold sendTextToVapi. norm.
    destruct (vapi s); [rewrite Ha; cbn [negb]|]; norm;
      (split; [exact Ha|]; split; [exact Hh|]);
      rewrite find_timer_filter_other by exact Hne; exact Hf.
Qed.

Lemma calm_phase id tm s e :
  wf s ->
  (id < next_timer s)%positive ->
  is_flush tm = false ->
  disturbs s e = false ->
  debounce_phase id tm s ->
  debounce_phase id tm (step s e).
Proof.
  intros Hwf Hlt Htm Hd [(Ha & Hh & Hf)|Hnone];
    [|right; apply (cancelled_stays_cancelled id s e Hlt Hnone)].
  destruct (ends_window e) eqn:Hw;
    [|left; apply calm_pending; assumption].
  destruct e as [| |raw|k r|k granted|k r opens|k ok|k r|sid te|id'|dt];
    try discriminate Hw.
  simpl in Hd.
  destruct (Nat.ltb sid (next_sid s)) eqn:Hreg;
    [|left; unfold step; rewrite Hreg; repeat split; assumption].
  simpl in Hd. unfold step. rewrite Hreg.
  destruct te as [| | | |m|]; try discriminate Hw.
  - right. unfold dispatch, on_call_end, cancel_agentSpeakingTimer. norm.
    rewrite Hh. norm. apply find_timer_filter_same.
  - simpl in Hw. rewrite Ha, Hw in Hd. simpl in Hd. apply negb_false_iff in Hd.
    right. unfold dispatch, on_message. unfold is_assistant_update in Hw.
    apply andb_prop in Hw. destruct Hw as [H1 H2]. rewrite H1, H2, Ha, Hd.
    unfold cancel_agentSpeakingTimer. rewrite Hh. norm.
    apply find_timer_filter_same.
Qed.

Lemma calm_pending_run id tm mid :
  forall s,
    is_flush tm = false ->
    calm s mid = true ->
    Forall (fun e => ends_window e = false) mid ->
    isCallActive s = true ->
    agentSpeakingTimer s = Some id ->
    find_timer id (timers s) = Some tm ->
    isCallActive (run s mid) = true /\
    agentSpeakingTimer (run s mid) = Some id /\
    find_timer id (timers (run s mid)) = Some tm.
Proof.
  induction mid as [|e mid IH]; intros s Htm Hc Hw Ha Hh Hf;
    [repeat split; assumption|].
  change (run s (e :: mid)) with (run (step s e) mid).
  simpl in Hc. apply andb_prop in Hc. destruct Hc as [Hd Hc].
  apply negb_true_iff in Hd.
  inversion Hw as [|? ? He Hrest]; subst.
  destruct (calm_pending id tm s e Htm Hd He Ha Hh Hf) as (Ha' & Hh' & Hf').
  apply IH; assumption.
Qed.

Lemma calm_run id tm mid :
  forall s,
    wf s ->
    (id < next_timer s)%positive ->
    is_flush tm = false ->
    calm s mid = true ->
    debounce_phase id tm s ->
    ui s <> Listening ->
    debounce_phase id tm (run s mid) /\
    ui (run s mid) <> Listening /\
    exists l, log (run s mid) = log s ++ l /\ filter is_listening_render l = [].
Proof.
  induction mid as [|e mid IH]; intros s Hwf Hlt Htm Hc Hph Hui.
  - split; [exact Hph|]. split; [exact Hui|].
    exists []. split; [symmetry; apply app_nil_r|reflexivity].
  - change (run s (e :: mid)) with (run (step s e) mid).
    simpl in Hc. apply andb_prop in Hc. destruct Hc as [Hd Hc].
    apply negb_true_iff in Hd.
    destruct (calm_no_listening s e Hd) as [Hl Hu].
    destruct (next_monotone s e) as [Hm _].
    destruct (IH (step s e) (wf_step _ _ Hwf)) as (Hph' & Hui' & l & Hlog & Hll);
      [lia|exact Htm|exact Hc|apply calm_phase; assumption|apply Hu; exact Hui|].
    split; [exact Hph'|]. split; [exact Hui'|].
    exists (emitted s e ++ l). split.
    + rewrite Hlog, log_step, app_assoc. reflexivity.
    + rewrite filter_app, Hl, Hll. reflexivity.
Qed.

Lemma calm_firstn n mid : forall s, calm s mid = true -> calm s (firstn n mid) = true.
Proof.
  revert n. induction mid as [|e mid IH]; intros [|n] s H; try reflexivity.
  simpl in *. apply andb_prop in H. destruct H as [H1 H2].
  rewrite H1. simpl. apply IH. exact H2.
Qed.

Lemma calm_app mid1 mid2 :
  forall s, calm s (mid1 ++ mid2) = calm s mid1 && calm (run s mid1) mid2.
Proof.
  induction mid1 as [|e mid1 IH]; intros s; [reflexivity|].
  simpl. rewrite IH, andb_assoc. reflexivity.
Qed.

(** C1, as the code has it.  Whenever the controller shows
    [agent-speaking] and an assistant speech update with status
    ['stopped'] arrives, it keeps showing [agent-speaking], and the only
    thing it does is arm a timer of 800 ms whose handle it stores in
    [agentSpeakingTimer]; while only time passes the state shown stays
    [agent-speaking].  If an assistant speech update with status
    ['started'] arrives later and nothing handled in between disturbs the
    debounce (no call start and no error of a constructed instance; during
    a call, no end of user speech, no assistant speech update other than
    ['started'] and no callback of a due debounce timer; no failed open
    and no rejected start of a pending attempt), then [listening] is
    neither shown nor rendered at any point from the ['stopped'] update to
    the ['started'] update included, and once ['started'] has been handled
    the timer is not pending, in any continuation, so it never fires.
    The timer is still pending as ['started'] arrives whenever no call end
    and no assistant speech update was handled in between, and then it is
    that update which clears it: the controller clears exactly that timer,
    renders [agent-speaking] and empties the handle. *)
Theorem debounce_cancelled_by_started :
  forall (s : State) (sid sid' : nat) (mid : list Event),
    reachable s ->
    ui s = AgentSpeaking ->
    sid < next_sid s ->
    sid' < next_sid s ->
    let id := next_timer s in
    let s1 := step s (Transport sid (MessageEv stopped_update)) in
    let s2 := run s1 mid in
    let s3 := step s2 (Transport sid' (MessageEv started_update)) in
    calm s1 mid = true ->
    ui s1 = AgentSpeaking /\
    emitted s (Transport sid (MessageEv stopped_update)) =
      [(now s, SetTimeout id 800)] /\
    agentSpeakingTimer s1 = Some id /\
    find_timer id (timers s1) = Some (mkTimer id (now s + 800) BackToListening) /\
    (forall waits : list nat, ui (run s1 (map Advance waits)) = AgentSpeaking) /\
    (forall n : nat, ui (run s1 (firstn n mid)) <> Listening) /\
    ui s3 <> Listening /\
    filter is_listening_render (skipn (List.length (log s1)) (log s3)) = [] /\
    (forall evs : list Event, find_timer id (timers (run s3 evs)) = None) /\
    (Forall (fun e => ends_window e = false) mid ->
     find_timer id (timers s2) <> None) /\
    (find_timer id (timers s2) <> None ->
     emitted s2 (Transport sid' (MessageEv started_update)) =
       [(now s2, ClearTimeout id); (now s2, Render AgentSpeaking)] /\
     ui s3 = AgentSpeaking /\
     agentSpeakingTimer s3 = None).
Proof.
  intros s sid sid' mid Hr Hui Hsid Hsid' id s1 s2 s3 Hcalm.
  pose proof (reachable_wf _ Hr) as Hwf.
  pose proof (wf_timers_fresh _ Hwf) as Hfresh.
  set (tm := mkTimer id (now s + 800) BackToListening).
  assert (Ha : isCallActive s = true)
    by (apply (wf_active _ Hwf); rewrite Hui; reflexivity).
  assert (Hreg : Nat.ltb sid (next_sid s) = true) by (apply Nat.ltb_lt; exact Hsid).
  assert (Hs1 : s1 = set_agentSpeakingTimer (Some id)
                       (snd (setTimeout BackToListening DEBOUNCE_DELAY s))).
  { subst s1. unfold step. rewrite Hreg. apply on_message_stopped, Ha. }
  assert (Hwf1 : wf s1) by (apply wf_step; exact Hwf).
  assert (Hui1 : ui s1 = AgentSpeaking) by (rewrite Hs1; exact Hui).
  assert (Hf1 : find_timer id (timers s1) = Some tm).
  { rewrite Hs1. norm. apply (find_new_timer tm). exact Hfresh. }
  assert (Hlt1 : (id < next_timer s1)%positive) by (rewrite Hs1; norm; subst id; lia).
  assert (Hph1 : debounce_phase id tm s1).
  { left. rewrite Hs1. repeat split; [exact Ha|]. rewrite <- Hs1. exact Hf1. }
  assert (Hnl1 : ui s1 <> Listening) by (rewrite Hui1; discriminate).
  assert (Hsid2 : sid' < next_sid s2).
  { destruct (next_monotone_run mid s1) as [_ Hm]. fold s2 in Hm.
    replace (next_sid s1) with (next_sid s) in Hm by (rewrite Hs1; reflexivity). lia. }
  assert (Hreg2 : Nat.ltb sid' (next_sid s2) = true) by (apply Nat.ltb_lt; exact Hsid2).
  assert (Hcalm3 : calm s1 (mid ++ [Transport sid' (MessageEv started_update)]) = true).
  { rewrite calm_app, Hcalm. fold s2. simpl.
    rewrite Hreg2, !andb_false_r. reflexivity. }
  assert (Hs3 : s3 = run s1 (mid ++ [Transport sid' (MessageEv started_update)])).
  { subst s3 s2. unfold run. rewrite fold_left_app. reflexivity. }
  destruct (calm_run id tm _ s1 Hwf1 Hlt1 eq_refl Hcalm3 Hph1 Hnl1)
    as (Hph3 & Hui3 & l & Hlog3 & Hll3).
  rewrite <- Hs3 in Hph3, Hui3, Hlog3.
  assert (Hlt2 : (id < next_timer s2)%positive).
  { destruct (next_monotone_run mid s1) as [Hm _]. fold s2 in Hm. lia. }
  split; [exact Hui1|].
  split; [apply emitted_eq; fold s1; rewrite Hs1; reflexivity|].
  split; [rewrite Hs1; reflexivity|].
  split; [exact Hf1|].
  split; [intros waits; rewrite run_advance; exact Hui1|].
  split.
  { intros n.
    apply (calm_run id tm (firstn n mid) s1 Hwf1 Hlt1 eq_refl
             (calm_firstn n mid s1 Hcalm) Hph1 Hnl1). }
  split; [exact Hui3|].
  split; [rewrite Hlog3, skipn_app, skipn_all, Nat.sub_diag; exact Hll3|].
  destruct (calm_run id tm mid s1 Hwf1 Hlt1 eq_refl Hcalm Hph1 Hnl1)
    as (Hph2 & _ & _).
  fold s2 in Hph2.
  assert (Hgone3 : find_timer id (timers s3) = None).
  { destruct Hph2 as [(Ha2 & Hh2 & Hf2)|Hnone2].
    - subst s3. unfold step. rewrite Hreg2. unfold dispatch.
      rewrite (on_message_started s2 Ha2). unfold cancel_agentSpeakingTimer.
      rewrite Hh2. norm. apply find_timer_filter_same.
    - apply (cancelled_stays_cancelled id s2 _ Hlt2 Hnone2). }
  split.
  { intros evs. apply cancelled_for_good; [|exact Hgone3].
    destruct (next_monotone s2 (Transport sid' (MessageEv started_update))) as [Hm _].
    fold s3 in Hm. lia. }
  split.
  { intros Hw.
    destruct (calm_pending_run id tm mid s1 eq_refl Hcalm Hw) as (_ & _ & Hf2).
    - rewrite Hs1. exact Ha.
    - rewrite Hs1. reflexivity.
    - exact Hf1.
    - fold s2 in Hf2. rewrite Hf2. discriminate. }
  intros Hpend.
  destruct Hph2 as [(Ha2 & Hh2 & Hf2)|Hnone2]; [|contradiction].
  assert (Hs3' : s3 = applyState AgentSpeaking (cancel_agentSpeakingTimer s2)).
  { subst s3. unfold step. rewrite Hreg2. apply on_message_started, Ha2. }
  split.
  { apply emitted_eq. fold s3. rewrite Hs3'.
    unfold cancel_agentSpeakingTimer. rewrite Hh2. norm.
    rewrite <- app_assoc. reflexivity. }
  split; [rewrite Hs3'; reflexivity|].
  rewrite Hs3'. unfold cancel_agentSpeakingTimer. rewrite Hh2. reflexivity.
Qed.

End Controller.

Lemma demo_uuid_v4 : forall n, is_uuid_v4 (demo_uuid n) = true.
Proof. intros n. unfold demo_uuid. destruct (Nat.even n); reflexivity. Qed.

Lemma demo_reachable evs : reachable demo_uuid (run demo_uuid (boot demo_uuid []) evs).
Proof. apply reachable_run. constructor. Qed.

(** ** The debounce timer after an error

    C3 does not hold of the code.  The ['call-end'] handler clears the
    timer whose handle is in [agentSpeakingTimer]; the ['error'] handler,
    which ends the call in the same way, does not, and a second ['stopped']
    update overwrites the handle of a timer that is still pending. *)

(** C3 at a failing input.  In no state does the ['error'] handler touch
    the pending timers or the stored handle.  The agent starts and stops
    speaking and 100 ms later the transport reports an error: the
    controller shows [call-error] with the call inactive and the reference
    dropped, but the debounce timer is still pending and its handle still
    stored.  When the user then starts a new call that is live 500 ms
    after the stop and begins to speak, the stale timer fires into the new
    session and the controller shows [listening] while the user is
    speaking.  And after two ['stopped'] updates in a row, ['call-end']
    clears the second timer only: the first one is still pending once the
    call has ended. *)
Theorem error_leaves_debounce_timer_pending :
  let spoken :=
    demo_call ++ [Transport 0 (MessageEv started_update);
                  Transport 0 (MessageEv stopped_update);
                  Advance 100] in
  let failed := run demo_uuid (boot demo_uuid []) (spoken ++ [Transport 0 ErrorEv]) in
  let again :=
    [MicClick;
     PermissionSettled 4 (Some Granted);
     SessionSettled 5 (Some (JString "tok")) true;
     Advance 400;
     Transport 1 CallStart;
     Advance 100;
     Transport 1 SpeechStart;
     Advance 200] in
  let ended_twice :=
    run demo_uuid (boot demo_uuid [])
      (spoken ++ [Transport 0 (MessageEv stopped_update);
                  Advance 100;
                  Transport 0 CallEnd]) in
  (forall (random : nat -> string) (s : State) (sid : nat),
     timers (step random s (Transport sid ErrorEv)) = timers s /\
     agentSpeakingTimer (step random s (Transport sid ErrorEv)) =
       agentSpeakingTimer s) /\
  (ui failed = CallError /\
   isCallActive failed = false /\
   vapi failed = None /\
   agentSpeakingTimer failed = Some 1%positive /\
   timers failed = [mkTimer 1 800 BackToListening]) /\
  (admissible demo_uuid (boot demo_uuid []) []
     (spoken ++ [Transport 0 ErrorEv] ++ again ++ [TimerFire 1]) = true /\
   ui (run demo_uuid failed again) = UserSpeaking /\
   ui (run demo_uuid failed (again ++ [TimerFire 1])) = Listening) /\
  (ui ended_twice = CallEnded /\
   agentSpeakingTimer ended_twice = None /\
   timers ended_twice = [mkTimer 1 800 BackToListening]).
Proof.
  split.
  - intros random s sid. unfold step.
    destruct (Nat.ltb sid (next_sid s)); split; reflexivity.
  - vm_compute. repeat split.
Qed.

(** ** Text that is never sent *)


(** ** A debounce that is not cancelled

    C1 fails as stated.  The agent is speaking and a ['stopped'] update
    arms the debounce timer.  When the user speaks and stops within the
    window, the ['speech-end'] handler shows [listening] at once, 600 ms
    before the timer is due.  When a second ['stopped'] update arrives
    before ['started'], the handle of the first timer is overwritten:
    ['started'] clears the second timer only, the first one stays pending
    and fires 800 ms after the first update, showing [listening] while the
    agent speaks.  And the copies of the script without text input have no
    timer: their handler shows [listening] as soon as the update
    arrives. *)
Lemma debounce_defeated :
  let speaking := demo_call ++ [Transport 0 (MessageEv started_update)] in
  let s := run demo_uuid (boot demo_uuid []) speaking in
  let heard :=
    [Transport 0 (MessageEv stopped_update);
     Advance 100;
     Transport 0 SpeechStart;
     Advance 100;
     Transport 0 SpeechEnd] in
  let twice :=
    [Transport 0 (MessageEv stopped_update);
     Advance 100;
     Transport 0 (MessageEv stopped_update);
     Advance 100;
     Transport 0 (MessageEv started_update)] in
  ui s = AgentSpeaking /\
  (admissible demo_uuid (boot demo_uuid []) [] (speaking ++ heard) = true /\
   find_timer 1 (timers (run demo_uuid s heard)) =
     Some (mkTimer 1 800 BackToListening) /\
   now (run demo_uuid s heard) = 200 /\
   ui (run demo_uuid s heard) = Listening /\
   In (200, Render Listening) (log (run demo_uuid s heard))) /\
  (admissible demo_uuid (boot demo_uuid []) []
     (speaking ++ twice ++ [Advance 600; TimerFire 1]) = true /\
   ui (run demo_uuid s twice) = AgentSpeaking /\
   agentSpeakingTimer (run demo_uuid s twice) = None /\
   find_timer 1 (timers (run demo_uuid s twice)) =
     Some (mkTimer 1 800 BackToListening) /\
   ui (run demo_uuid s (twice ++ [Advance 600; TimerFire 1])) = Listening) /\
  ui (on_message_undebounced stopped_update s) = Listening.
Proof.
  vm_compute. repeat split. do 14 right. left. reflexivity.
Qed.

(** ** A carried-over text that is lost

    C9 fails as stated.  The microphone is denied, the user types a
    message and the session cannot be opened: the text stays queued.  The
    user starts a call with the microphone button; that call starts, takes
    the text and ends 300 ms later.  When the settle timer fires the call
    is over: nothing has been sent, the slot is empty and no timer is left
    that could send the text later. *)
Lemma carried_text_lost :
  let failed := demo_typed ++ [SessionSettled 2 (Some (JString "tok")) false] in
  let again :=
    [MicClick;
     PermissionSettled 3 (Some Granted);
     SessionSettled 4 (Some (JString "tok")) true;
     Transport 0 CallStart;
     Advance 300;
     Transport 0 CallEnd;
     Advance 300;
     TimerFire 1] in
  let s := run demo_uuid (boot demo_uuid []) failed in
  let s' := run demo_uuid s again in
  admissible demo_uuid (boot demo_uuid []) [] (failed ++ again) = true /\
  ui s = CallError /\
  pendingText s = Some "Schedule a sync" /\
  In (0, Render Listening) (log s') /\
  sends (log s') = [] /\
  pendingText s' = None /\
  timers s' = [].
Proof.
  vm_compute. repeat split. do 17 right. left. reflexivity.
Qed.

(** ** A flush that reaches another call

    C10 fails as stated.  The microphone is denied, the user types a
    message, the call starts and ends 50 ms later, within the settle
    delay.  The user starts another call at once, which is live when the
    settle timer of the first one fires: the guard of [sendTextToVapi]
    finds an instance and an active call, and the text of the session that
    has ended is sent into the other one. *)
Lemma stale_flush_reaches_other_call :
  let evs :=
    demo_typed ++ [SessionSettled 2 (Some (JString "tok")) true;
                   Transport 0 CallStart;
                   Advance 50;
                   Transport 0 CallEnd;
                   MicClick;
                   PermissionSettled 4 (Some Granted);
                   SessionSettled 5 (Some (JString "tok")) true;
                   Transport 1 CallStart;
                   Advance 550] in
  let s := run demo_uuid (boot demo_uuid []) evs in
  admissible demo_uuid (boot demo_uuid []) [] (evs ++ [TimerFire 1]) = true /\
  live_sessions demo_uuid (boot demo_uuid []) [] evs = [1] /\
  find_timer 1 (timers s) = Some (mkTimer 1 600 (FlushText "Schedule a sync")) /\
  now s = 600 /\
  vapi s = Some 1 /\
  emitted demo_uuid s (TimerFire 1) = [(600, VapiSend 1 "user" "Schedule a sync")].
Proof.
  vm_compute. repeat split.
Qed.

(** ** The theorems at concrete inputs *)

Ltac split_conj := repeat match goal with |- _ /\ _ => split end.

Lemma at_most_one_call_session_witness :
  let s := run demo_uuid (boot demo_uuid []) demo_call in
  isCallActive s = true /\
  admissible demo_uuid (boot demo_uuid []) [] (demo_call ++ [MicClick]) = true /\
  step demo_uuid s MicClick = stopCall s /\
  List.length (live_sessions demo_uuid (boot demo_uuid []) []
                 (demo_call ++ [MicClick])) <= 1.
Proof.
  intros s.
  assert (Ha : isCallActive s = true) by (vm_compute; reflexivity).
  assert (Hadm : admissible demo_uuid (boot demo_uuid []) []
                   (demo_call ++ [MicClick]) = true) by (vm_compute; reflexivity).
  destruct (at_most_one_call_session demo_uuid) as (H1 & H2).
  destruct (H1 s Ha) as (Hstop & _).
  destruct (H2 [] (demo_call ++ [MicClick]) Hadm) as (Hlen & _).
  split_conj; [exact Ha|exact Hadm|exact Hstop|exact Hlen].
Defined.

Lemma open_failure_goes_to_call_error_witness :
  let s := run demo_uuid (boot demo_uuid [])
               [MicClick; PermissionSettled 1 (Some Granted)] in
  let s' := step demo_uuid s (SessionSettled 2 (Some (JString "tok")) true) in
  find_task 2 (tasks s) = Some (AwaitSession (demo_uuid 0)) /\
  find_task 3 (tasks s') = Some (AwaitStart 0) /\
  is_settlement (StartSettled 3 false) = true /\
  ui (step demo_uuid s (SessionSettled 2 None false)) = CallError /\
  ui (step demo_uuid s' (StartSettled 3 false)) = CallError /\
  vapi (step demo_uuid s' (StartSettled 3 false)) = None /\
  isCallActive (step demo_uuid s' (StartSettled 3 false)) = false.
Proof.
  intros s s'.
  assert (Hf : find_task 2 (tasks s) = Some (AwaitSession (demo_uuid 0)))
    by (vm_compute; reflexivity).
  assert (Hf' : find_task 3 (tasks s') = Some (AwaitStart 0)) by (vm_compute; reflexivity).
  assert (Hset : is_settlement (StartSettled 3 false) = true) by (vm_compute; reflexivity).
  destruct (open_failure_goes_to_call_error demo_uuid) as (H1 & H2 & H3).
  destruct (H1 s 2 _ None Hf) as (Hui & _ & _).
  destruct (H2 s' 3 0 Hf') as (Hui' & Hv' & Ha').
  assert (Hui'' : ui (step demo_uuid s' (StartSettled 3 false)) = CallError)
    by exact Hui'.
  pose proof (H3 s' (StartSettled 3 false) Hset Hui'') as Hwhy.
  split_conj; [exact Hf|exact Hf'|exact Hset|exact Hui|exact Hui'|exact Hv'|exact Ha'].
Defined.

Lemma preregistration_failure_is_swallowed_witness :
  let s0 := run demo_uuid (boot demo_uuid [])
                [MicClick; PermissionSettled 1 (Some Denied)] in
  let s := run demo_uuid (boot demo_uuid [])
               [MicClick; PermissionSettled 1 (Some Granted)] in
  reachable demo_uuid s0 /\
  find_task 2 (tasks s) = Some (AwaitSession (demo_uuid 0)) /\
  find_task (next_task s0) (tasks (startCall demo_uuid s0)) =
    Some (AwaitSession (demo_uuid 0)) /\
  emitted demo_uuid s (SessionSettled 2 None true) =
    [(0, ConsoleWarn); (0, VapiNew 0);
     (0, VapiStart 0 ASSISTANT_ID (demo_uuid 0) None)] /\
  ui (step demo_uuid s (SessionSettled 2 None true)) = Connecting.
Proof.
  intros s0 s.
  assert (Hr : reachable demo_uuid s0) by apply demo_reachable.
  assert (Hf : find_task 2 (tasks s) = Some (AwaitSession (demo_uuid 0)))
    by (vm_compute; reflexivity).
  destruct (preregistration_failure_is_swallowed demo_uuid) as (H1 & H2 & _).
  pose proof (H1 s0 Hr) as Hsus.
  destruct (H2 s 2 _ Hf) as (Hem & Hui & _).
  split_conj; [exact Hr|exact Hf|exact Hsus|exact Hem|exact Hui].
Defined.

Lemma requestMic_only_when_prompt_witness :
  let s := boot demo_uuid [] in
  let s1 := step demo_uuid s MicClick in
  reachable demo_uuid s /\ isCallActive s = false /\
  find_task 1 (tasks s1) = Some AwaitPermission /\
  getMicPermissionState None = Prompt /\
  In (0, GetUserMedia) (emitted demo_uuid s1 (PermissionSettled 1 None)) /\
  ui (step demo_uuid s1 (PermissionSettled (next_task s) (Some Denied))) = MicDenied /\
  emitted demo_uuid s1 (PermissionSettled 1 None) = [(now s1, GetUserMedia)].
Proof.
  intros s s1.
  assert (Hr : reachable demo_uuid s) by constructor.
  assert (Ha : isCallActive s = false) by (vm_compute; reflexivity).
  assert (Hf : find_task 1 (tasks s1) = Some AwaitPermission) by (vm_compute; reflexivity).
  assert (Hp : getMicPermissionState None = Prompt) by (vm_compute; reflexivity).
  assert (Hin : In (0, GetUserMedia) (emitted demo_uuid s1 (PermissionSettled 1 None)))
    by (vm_compute; left; reflexivity).
  destruct (requestMic_only_when_prompt demo_uuid) as (H1 & H1' & H2 & H3).
  destruct (H1 s Hr Ha) as (Hui & _).
  pose proof (H1' s1 1 Hf) as Hdenied.
  pose proof (H2 s1 _ _ Hin) as Hwhy.
  pose proof (H3 s1 1 None Hf Hp) as Hem.
  split_conj; [exact Hr|exact Ha|exact Hf|exact Hp|exact Hin|exact Hui|exact Hem].
Defined.

Lemma getOrCreateUserId_idempotent_witness :
  let s1 := snd (getOrCreateUserId demo_uuid (blank [])) in
  (forall n, is_uuid_v4 (demo_uuid n) = true) /\
  getItem USER_ID_KEY (localStorage (blank [])) = None /\
  localStorage (blank (localStorage s1)) = localStorage s1 /\
  fst (getOrCreateUserId demo_uuid (blank [])) = demo_uuid 0 /\
  getOrCreateUserId demo_uuid (blank (localStorage s1)) =
    (demo_uuid 0, blank (localStorage s1)).
Proof.
  intros s1.
  assert (Hnone : getItem USER_ID_KEY (localStorage (blank [])) = None)
    by (vm_compute; reflexivity).
  assert (Hls : localStorage (blank (localStorage s1)) = localStorage s1)
    by (vm_compute; reflexivity).
  destruct (getOrCreateUserId_idempotent demo_uuid (blank []) demo_uuid_v4)
    as (H1 & _ & H3).
  destruct (H1 Hnone) as (Hid & _).
  pose proof (H3 (blank (localStorage s1)) Hls) as Hagain.
  split_conj; [exact demo_uuid_v4|exact Hnone|exact Hls|exact Hid|exact Hagain].
Defined.

Lemma debounce_cancelled_by_started_witness :
  let s := run demo_uuid (boot demo_uuid [])
               (demo_call ++ [Transport 0 (MessageEv started_update)]) in
  let mid := [Advance 300; Transport 0 SpeechStart; TextSubmit "one more thing"; Advance 200] in
  let id := next_timer s in
  let s1 := step demo_uuid s (Transport 0 (MessageEv stopped_update)) in
  let s2 := run demo_uuid s1 mid in
  let s3 := step demo_uuid s2 (Transport 0 (MessageEv started_update)) in
  reachable demo_uuid s /\ ui s = AgentSpeaking /\ 0 < next_sid s /\
  calm demo_uuid s1 mid = true /\
  find_timer id (timers s2) <> None /\
  ui s1 = AgentSpeaking /\
  find_timer id (timers s1) = Some (mkTimer id (now s + 800) BackToListening) /\
  ui s3 <> Listening /\
  find_timer id (timers (run demo_uuid s3 [Advance 900; TimerFire 1])) = None /\
  emitted demo_uuid s2 (Transport 0 (MessageEv started_update)) =
    [(now s2, ClearTimeout id); (now s2, Render AgentSpeaking)] /\
  ui s3 = AgentSpeaking.
Proof.
  intros s mid id s1 s2 s3.
  assert (Hr : reachable demo_uuid s) by apply demo_reachable.
  assert (Hui : ui s = AgentSpeaking) by (vm_compute; reflexivity).
  assert (Hsid : 0 < next_sid s) by (vm_compute; lia).
  assert (Hcalm : calm demo_uuid s1 mid = true) by (vm_compute; reflexivity).
  assert (Hpend : find_timer id (timers s2) <> None) by (vm_compute; discriminate).
  destruct (debounce_cancelled_by_started demo_uuid s 0 0 mid Hr Hui Hsid Hsid Hcalm)
    as (H1 & _ & _ & H4 & _ & _ & H7 & _ & H9 & _ & H10).
  pose proof (H9 [Advance 900; TimerFire 1%positive]) as Hgone.
  destruct (H10 Hpend) as (H11 & H12 & _).
  split_conj;
    [exact Hr|exact Hui|exact Hsid|exact Hcalm|exact Hpend|exact H1|exact H4
    |exact H7|exact Hgone|exact H11|exact H12].
Defined.


Lemma pendingText_survives_call_error_witness :
  let s := run demo_uuid (boot demo_uuid [])
               [MicClick; PermissionSettled 1 (Some Denied)] in
  let raw := "  Schedule a sync " in
  let text := trim raw in
  let pre := [Advance 1000;
              MicClick;
              PermissionSettled 3 (Some Granted);
              SessionSettled 4 (Some (JString "tok")) true] in
  let mid := [Advance 200; Transport 0 SpeechStart; Advance 400] in
  let s1 := step demo_uuid s (TextSubmit raw) in
  let s2 := step demo_uuid s1 (SessionSettled (next_task s) None false) in
  let s3 := run demo_uuid s2 pre in
  let id := next_timer s3 in
  let s4 := step demo_uuid s3 (Transport 0 CallStart) in
  let s5 := run demo_uuid s4 mid in
  reachable demo_uuid s /\ isCallActive s = false /\ trim raw <> "" /\
  Forall (fun e => is_call_start e = false /\ is_text_submit e = false) pre /\
  0 < next_sid s3 /\
  fired demo_uuid id s4 mid = false /\
  now s3 + 600 <= now s5 /\
  ui s2 = CallError /\
  pendingText s3 = Some text /\
  pendingText s4 = None /\
  emitted demo_uuid s5 (TimerFire id) =
    match vapi s5 with
    | Some sid' =>
        if isCallActive s5 then [(now s5, VapiSend sid' "user" text)] else []
    | None => []
    end /\
  vapi s5 = Some 0 /\
  isCallActive s5 = true.
Proof.
  intros s raw text pre mid s1 s2 s3 id s4 s5.
  assert (Hr : reachable demo_uuid s) by apply demo_reachable.
  assert (Ha : isCallActive s = false) by (vm_compute; reflexivity).
  assert (Hne : trim raw <> "") by (vm_compute; discriminate).
  assert (Hpre : Forall (fun e => is_call_start e = false /\ is_text_submit e = false) pre)
    by (repeat constructor).
  assert (Hsid : 0 < next_sid s3) by (vm_compute; lia).
  assert (Hfired : fired demo_uuid id s4 mid = false) by (vm_compute; reflexivity).
  assert (Hdue : now s3 + 600 <= now s5) by (vm_compute; lia).
  assert (Hv : vapi s5 = Some 0) by (vm_compute; reflexivity).
  assert (Ha5 : isCallActive s5 = true) by (vm_compute; reflexivity).
  destruct (pendingText_survives_call_error demo_uuid) as (_ & _ & _ & H4).
  destruct (H4 s raw None pre mid 0 Hr Ha Hne Hpre Hsid Hfired)
    as (_ & Hui & _ & Hp3 & _ & Hp4 & _ & Hfire).
  destruct (Hfire Hdue) as (Hsend & _).
  split_conj;
    [exact Hr|exact Ha|exact Hne|exact Hpre|exact Hsid|exact Hfired|exact Hdue
    |exact Hui|exact Hp3|exact Hp4|exact Hsend|exact Hv|exact Ha5].
Defined.

Lemma sendTextToVapi_noop_without_call_witness :
  let s := run demo_uuid (boot demo_uuid [])
               (demo_typed ++ [SessionSettled 2 (Some (JString "tok")) true]) in
  let text := "Schedule a sync" in
  let mid1 := [Advance 300] in
  let mid2 := [Advance 200; MicClick; Advance 100] in
  let mid := mid1 ++ Transport 0 CallEnd :: mid2 in
  let id := next_timer s in
  let s1 := step demo_uuid s (Transport 0 CallStart) in
  let s2 := run demo_uuid s1 mid in
  let s3 := step demo_uuid s2 (TimerFire id) in
  reachable demo_uuid s /\ pendingText s = Some text /\ text <> "" /\
  0 < next_sid s /\
  0 < next_sid (run demo_uuid s1 mid1) /\
  Forall (fun e => is_call_start e = false) mid2 /\
  Forall (fun e => is_text_submit e = false) mid /\
  fired demo_uuid id s1 mid = false /\
  now s + 600 <= now s2 /\
  isCallActive s2 = false /\
  emitted demo_uuid s2 (TimerFire id) = [] /\
  log s3 = log s2 /\
  pendingText s3 = None.
Proof.
  intros s text mid1 mid2 mid id s1 s2 s3.
  assert (Hr : reachable demo_uuid s) by apply demo_reachable.
  assert (Hp : pendingText s = Some text) by (vm_compute; reflexivity).
  assert (Hne : text <> "") by (vm_compute; discriminate).
  assert (Hsid : 0 < next_sid s) by (vm_compute; lia).
  assert (Hsid' : 0 < next_sid (run demo_uuid s1 mid1)) by (vm_compute; lia).
  assert (Hmid2 : Forall (fun e => is_call_start e = false) mid2)
    by (repeat constructor).
  assert (Hsub : Forall (fun e => is_text_submit e = false) mid)
    by (repeat constructor).
  assert (Hfired : fired demo_uuid id s1 mid = false) by (vm_compute; reflexivity).
  assert (Hdue : now s + 600 <= now s2) by (vm_compute; lia).
  destruct (sendTextToVapi_noop_without_call demo_uuid) as (_ & _ & H3).
  destruct (H3 s text 0 0 CallEnd mid1 mid2 Hr Hp Hne Hsid (or_introl eq_refl)
              Hsid' Hmid2 Hfired Hdue) as (Hina & Hem & Hlog & _ & Hslot).
  pose proof (Hslot Hsub) as Hp3.
  split_conj;
    [exact Hr|exact Hp|exact Hne|exact Hsid|exact Hsid'|exact Hmid2|exact Hsub
    |exact Hfired|exact Hdue|exact Hina|exact Hem|exact Hlog|exact Hp3].
Defined.

(** ** The further properties at concrete inputs *)

Lemma demo_uuid_nonempty : forall n, demo_uuid n <> "".
Proof. intros n. apply is_uuid_v4_nonempty, demo_uuid_v4. Qed.

Lemma status_label_determines_state_witness :
  let d := Page.applyState Listening bare_page in
  Element.textContent (Page.applyState CallEnded bare_page Page.statusLabel) =
  Element.textContent (Page.applyState CallEnded d Page.statusLabel) /\
  CallEnded = CallEnded.
Proof.
  intros d.
  assert (H : Element.textContent (Page.applyState CallEnded bare_page Page.statusLabel) =
              Element.textContent (Page.applyState CallEnded d Page.statusLabel))
    by (vm_compute; reflexivity).
  pose proof (status_label_determines_state CallEnded CallEnded bare_page d H) as Hu.
  split_conj; [exact H|exact Hu].
Defined.

Lemma no_in_call_state_without_call_start_witness :
  let s := run demo_uuid (boot demo_uuid []) (demo_call ++ [Transport 0 CallEnd]) in
  reachable demo_uuid s /\
  isCallActive s = false /\
  Forall (fun e => is_call_start e = false) demo_after_call /\
  isCallActive (run demo_uuid s demo_after_call) = false /\
  is_active_ui (ui (run demo_uuid s demo_after_call)) = false.
Proof.
  intros s.
  assert (Hr : reachable demo_uuid s) by apply demo_reachable.
  assert (Ha : isCallActive s = false) by (vm_compute; reflexivity).
  assert (Hev : Forall (fun e => is_call_start e = false) demo_after_call)
    by (repeat constructor).
  destruct (no_in_call_state_without_call_start demo_uuid s demo_after_call Hr Ha Hev)
    as (H1 & H2 & _).
  split_conj; [exact Hr|exact Ha|exact Hev|exact H1|exact H2].
Defined.

Lemma call_flag_matches_display_witness :
  let evs := demo_call ++ [Transport 0 SpeechStart] in
  let s := run demo_uuid (boot demo_uuid []) evs in
  admissible demo_uuid (boot demo_uuid []) [] evs = true /\
  isCallActive s = is_active_ui (ui s).
Proof.
  intros evs s.
  assert (Hadm : admissible demo_uuid (boot demo_uuid []) [] evs = true)
    by (vm_compute; reflexivity).
  pose proof (call_flag_matches_display demo_uuid [] evs Hadm) as H.
  split_conj; [exact Hadm|exact H].
Defined.

Lemma stop_only_by_click_in_call_witness :
  let s := run demo_uuid (boot demo_uuid []) demo_call in
  In (0, VapiStop 0) (emitted demo_uuid s MicClick) /\
  isCallActive s = true /\
  vapi s = Some 0 /\
  step demo_uuid s MicClick = emit (VapiStop 0) s.
Proof.
  intros s.
  assert (Hin : In (0, VapiStop 0) (emitted demo_uuid s MicClick))
    by (vm_compute; left; reflexivity).
  destruct (stop_only_by_click_in_call demo_uuid s MicClick 0 0 Hin)
    as (_ & H1 & H2 & H3).
  split_conj; [exact Hin|exact H1|exact H2|exact H3].
Defined.

Lemma start_only_after_preregistration_witness :
  let s := run demo_uuid (boot demo_uuid [])
               [MicClick; PermissionSettled 1 (Some Granted)] in
  let e := SessionSettled 2 (Some (JString "tok")) true in
  In (0, VapiStart 0 ASSISTANT_ID (demo_uuid 0) (Some (JString "tok")))
     (emitted demo_uuid s e) /\
  exists k r,
    e = SessionSettled k r true /\
    find_task k (tasks s) = Some (AwaitSession (demo_uuid 0)) /\
    0 = next_sid s /\
    ASSISTANT_ID = ASSISTANT_ID /\
    Some (JString "tok") = match r with
                           | Some v => if truthy v then Some v else None
                           | None => None
                           end /\
    In (0, VapiNew 0) (emitted demo_uuid s e) /\
    vapi (step demo_uuid s e) = Some 0.
Proof.
  intros s e.
  assert (Hin : In (0, VapiStart 0 ASSISTANT_ID (demo_uuid 0) (Some (JString "tok")))
                   (emitted demo_uuid s e))
    by (vm_compute; right; left; reflexivity).
  pose proof (start_only_after_preregistration demo_uuid s e 0 0 ASSISTANT_ID
                (demo_uuid 0) (Some (JString "tok")) Hin) as H.
  split_conj; [exact Hin|exact H].
Defined.

Lemma one_identity_throughout_witness :
  let s := run demo_uuid (boot demo_uuid []) demo_call in
  (forall n, demo_uuid n <> "") /\
  fst (getOrCreateUserId demo_uuid (blank [])) <> "" /\
  getItem USER_ID_KEY (localStorage s) =
    Some (fst (getOrCreateUserId demo_uuid (blank []))) /\
  uuids_drawn s <= 1.
Proof.
  intros s.
  destruct (one_identity_throughout demo_uuid [] demo_call demo_uuid_nonempty)
    as (H1 & H2 & _ & _ & H5 & _).
  split_conj; [exact demo_uuid_nonempty|exact H1|exact H2|exact H5].
Defined.

Lemma only_submitted_text_is_sent_witness :
  let evs := demo_call ++ [TextSubmit " hello "] in
  In (0, VapiSend 0 "user" "hello") (log (run demo_uuid (boot demo_uuid []) evs)) /\
  "user" = "user" /\
  "hello" <> "" /\
  exists raw, In (TextSubmit raw) evs /\ "hello" = trim raw.
Proof.
  intros evs.
  assert (Hin : In (0, VapiSend 0 "user" "hello")
                   (log (run demo_uuid (boot demo_uuid []) evs))).
  { vm_compute. do 11 right. left. reflexivity. }
  pose proof (only_submitted_text_is_sent demo_uuid [] evs 0 0 "user" "hello" Hin) as H.
  split; [exact Hin|exact H].
Defined.

Lemma silence_returns_to_listening_witness :
  let s := run demo_uuid (boot demo_uuid [])
               (demo_call ++ [Transport 0 (MessageEv started_update)]) in
  let mid := [Advance 500; Transport 0 SpeechStart; Advance 300] in
  let s1 := step demo_uuid s (Transport 0 (MessageEv stopped_update)) in
  let s2 := run demo_uuid s1 mid in
  let s3 := step demo_uuid s2 (TimerFire 1) in
  reachable demo_uuid s /\
  isCallActive s = true /\
  0 < next_sid s /\
  is_assistant_update stopped_update = true /\
  msg_status stopped_update <> "started" /\
  Forall (fun e => quiet e = true) mid /\
  now s + DEBOUNCE_DELAY <= now s2 /\
  ui s1 = ui s /\
  ui s3 = Listening /\
  agentSpeakingTimer s3 = None.
Proof.
  intros s mid s1 s2 s3.
  assert (Hr : reachable demo_uuid s) by apply demo_reachable.
  assert (Ha : isCallActive s = true) by (vm_compute; reflexivity).
  assert (Hsid : 0 < next_sid s) by (vm_compute; lia).
  assert (Hm : is_assistant_update stopped_update = true) by (vm_compute; reflexivity).
  assert (Hst : msg_status stopped_update <> "started") by (vm_compute; discriminate).
  assert (Hmid : Forall (fun e => quiet e = true) mid) by (repeat constructor).
  assert (Hdue : now s + DEBOUNCE_DELAY <= now s2) by (vm_compute; lia).
  destruct (silence_returns_to_listening demo_uuid s 0 stopped_update mid
              Hr Ha Hsid Hm Hst Hmid) as (_ & H1 & _ & H3).
  destruct (H3 Hdue) as (H4 & H5 & _).
  split_conj;
    [exact Hr|exact Ha|exact Hsid|exact Hm|exact Hst|exact Hmid|exact Hdue
    |exact H1|exact H4|exact H5].
Defined.

Lemma identity_shared_across_pages_witness :
  let s0 := snd (checkAuthStatus demo_uuid bare_index (blank [])) in
  let v := run demo_uuid (boot demo_uuid (localStorage s0)) demo_call in
  (forall n, demo_uuid n <> "") /\
  redirectToGoogle demo_uuid s0 =
    emit (Navigate (String.append "/auth/google?userId="
                      (fst (getOrCreateUserId demo_uuid (blank []))))) s0 /\
  uuids_drawn v = 0 /\
  localStorage v = localStorage s0.
Proof.
  intros s0 v.
  destruct (identity_shared_across_pages demo_uuid bare_index (blank []) demo_call
              demo_uuid_nonempty) as (_ & H1 & H2 & H3 & _).
  split_conj; [exact demo_uuid_nonempty|exact H1|exact H2|exact H3].
Defined.

Lemma render_follows_transition_table_witness :
  let s := run demo_uuid (boot demo_uuid []) demo_call in
  let e := Transport 0 (MessageEv started_update) in
  In (0, Render AgentSpeaking) (emitted demo_uuid s e) /\
  transition s e AgentSpeaking /\
  ui (step demo_uuid s e) = AgentSpeaking /\
  filter is_render (emitted demo_uuid s e) = [(now s, Render AgentSpeaking)].
Proof.
  intros s e.
  assert (Hin : In (0, Render AgentSpeaking) (emitted demo_uuid s e))
    by (vm_compute; left; reflexivity).
  destruct (render_follows_transition_table demo_uuid s e 0 AgentSpeaking Hin)
    as (H1 & H2 & H3).
  split; [exact Hin|]. split; [exact H1|]. split; [exact H2|exact H3].
Defined.

Lemma send_only_to_current_instance_witness :
  let s := run demo_uuid (boot demo_uuid []) demo_call in
  let e := TextSubmit " hello " in
  In (0, VapiSend 0 "user" "hello") (emitted demo_uuid s e) /\
  vapi s = Some 0 /\
  isCallActive s = true /\
  emitted demo_uuid s e = [(now s, VapiSend 0 "user" "hello")].
Proof.
  intros s e.
  assert (Hin : In (0, VapiSend 0 "user" "hello") (emitted demo_uuid s e))
    by (vm_compute; left; reflexivity).
  destruct (send_only_to_current_instance demo_uuid s e 0 0 "user" "hello" Hin)
    as (H1 & H2 & H3 & _).
  split; [exact Hin|]. split; [exact H1|]. split; [exact H2|exact H3].
Defined.
